(** * Arbitrage detection engine: a shallow embedding of
      [app/services/arbitrage_detector.py], of the cleanup sweeps and the
      task manager of [app/services/background_tasks.py], of the rule-based
      fallback of [app/services/ai_analyzer.py] and of the outcome names of
      [app/services/odds_collector.py].

    Conventions of the embedding.
    - Python [float] values (odds, stakes, probabilities, scores) are exact
      rationals [Q]; equalities between them are stated with [==].  What a
      computed number differs by from the exact one is then left out, which
      is harmless for bounds and layouts but not where the code compares two
      computed numbers.  The calculator is therefore given a second time over
      the numbers of the runtime (module [Run]), with exact arithmetic and
      IEEE 754 double precision as instances; lemma [exact_model_is_run]
      relates the two, and the properties that hang on a comparison of
      computed numbers are stated over [Run].
    - A Python [dict] with string keys is an association list kept in
      insertion order ([Dict.set] overwrites in place or appends), which is
      the iteration order of a Python dict.
    - A Python [set] of strings is a duplicate-free list, here in order of
      first insertion; Python leaves the iteration order of a set open, and
      the properties below are stated so as not to depend on it (sums up to
      [==], membership in the resulting dictionaries).
    - An exception is the [None] of the option monad; a [try/except] is a
      [match] on it.
    - [datetime.utcnow()] is the parameter [now] (microseconds), read once per
      call. *)

From Stdlib Require Import List String Ascii Bool ZArith QArith Qround Qabs Lia Lqa
  Permutation Sorted Floats.
Import ListNotations.

Local Open Scope Z_scope.
Local Open Scope Q_scope.

(** ** The option monad used for code that can raise *)

Definition bind {A B : Type} (m : option A) (k : A -> option B) : option B :=
  match m with
  | Some a => k a
  | None => None
  end.

Notation "x <- m ;; k" := (bind m (fun x => k))
  (at level 61, m at next level, right associativity).
Notation "' p <- m ;; k" := (bind m (fun x => let p := x in k))
  (at level 61, p pattern, m at next level, right associativity).

(** A [for] loop whose body can raise: the first exception ends the loop. *)
Fixpoint for_each {A S : Type} (body : S -> A -> option S) (xs : list A) (s : S)
  : option S :=
  match xs with
  | [] => Some s
  | x :: xs' => s' <- body s x ;; for_each body xs' s'
  end.

(** ** Numbers *)

Definition Qltb (x y : Q) : bool :=
  match x ?= y with
  | Lt => true
  | _ => false
  end.

(** [x / y] of Python: division by zero raises [ZeroDivisionError]. *)
Definition py_div (x y : Q) : option Q :=
  if Qeq_bool y 0 then None else Some (x / y).

(** [sum(values)]: starts from 0 and adds from left to right, here without
    rounding (for the rounded sum see [f64_sum]). *)
Definition py_sum (xs : list Q) : Q := fold_left Qplus xs 0.

(** Rounding of a rational to the nearest integer, ties to the even one. *)
Definition round_half_even (q : Q) : Z :=
  let f := Qfloor q in
  match ((q - inject_Z f) ?= (1 # 2))%Q with
  | Lt => f
  | Gt => (f + 1)%Z
  | Eq => if Z.even f then f else (f + 1)%Z
  end.

(** [round(x, 2)]. *)
Definition py_round2 (x : Q) : Q := (round_half_even (x * 100) # 100).

Definition py_max (x y : Q) : Q := if Qltb x y then y else x.
Definition py_min (x y : Q) : Q := if Qltb y x then y else x.

(** ** Dictionaries and sets with string keys *)

Module Dict.

Definition t (V : Type) : Type := list (string * V).

Fixpoint get {V : Type} (d : t V) (k : string) : option V :=
  match d with
  | [] => None
  | (k', v) :: r => if String.eqb k' k then Some v else get r k
  end.

(** [d.get(k, default)] *)
Definition get_default {V : Type} (d : t V) (k : string) (default : V) : V :=
  match get d k with
  | Some v => v
  | None => default
  end.

(** [d[k] = v] *)
Fixpoint set {V : Type} (d : t V) (k : string) (v : V) : t V :=
  match d with
  | [] => [(k, v)]
  | (k', v') :: r =>
      if String.eqb k' k then (k', v) :: r else (k', v') :: set r k v
  end.

(** [k in d] *)
Definition mem {V : Type} (d : t V) (k : string) : bool :=
  match get d k with
  | Some _ => true
  | None => false
  end.

Definition keys {V : Type} (d : t V) : list string := map fst d.
Definition values {V : Type} (d : t V) : list V := map snd d.
Definition items {V : Type} (d : t V) : list (string * V) := d.
Definition len {V : Type} (d : t V) : nat := List.length d.

End Dict.

Module StrSet.

Definition t : Type := list string.

Definition mem (s : t) (k : string) : bool :=
  existsb (String.eqb k) s.

Definition add (s : t) (k : string) : t :=
  if mem s k then s else s ++ [k].

(** [s.update(ks)] *)
Definition update (s : t) (ks : list string) : t := fold_left add ks s.

End StrSet.

(** ** Dates *)

(** A [datetime]: an instant in microseconds and whether it carries a time
    zone.  Columns declared [DateTime(timezone=True)] load as aware values;
    [datetime.utcnow()] is naive. *)
Record datetime : Type := mk_datetime {
  instant : Z;
  tzaware : bool
}.

Definition utcnow (now : Z) : datetime := mk_datetime now false.

(** [a - b]: a [timedelta] in microseconds; mixing a naive and an aware
    value raises [TypeError]. *)
Definition dt_sub (a b : datetime) : option Z :=
  if Bool.eqb (tzaware a) (tzaware b) then Some (instant a - instant b)%Z
  else None.

(** [td.total_seconds()] *)
Definition total_seconds (td : Z) : Q := (td # 1000000).

Definition minutes (n : Z) : Z := (n * 60 * 1000000)%Z.
Definition hours (n : Z) : Z := (n * 3600 * 1000000)%Z.

(** [dt + timedelta] *)
Definition dt_add (a : datetime) (td : Z) : datetime :=
  mk_datetime (instant a + td)%Z (tzaware a).

(** ** The data model ([app/models/events.py]) *)

Record Event : Type := mk_Event {
  event_id_of : string;
  sport : string;
  commence_time : datetime;
  event_status : string
}.

Record OddsSnapshot : Type := mk_OddsSnapshot {
  snap_event_id : string;
  snap_bookmaker : string;
  odds_data : Dict.t (Dict.t Q);      (* market type -> outcome -> price *)
  captured_at : datetime;
  is_active : bool
}.

(** One entry of [market_data]: [{'odds': ..., 'timestamp': ...}]. *)
Record bookmaker_data : Type := mk_bookmaker_data {
  bd_odds : Dict.t Q;
  bd_timestamp : datetime
}.

(** The dictionary built by [_calculate_arbitrage]. *)
Record opportunity : Type := mk_opportunity {
  event_id : string;
  market_type : string;
  profit_percentage : Q;
  total_stake : Q;
  expected_profit : Q;
  bookmaker_stakes : Dict.t (Dict.t Q);
  bookmaker_odds : Dict.t (Dict.t Q);
  risk_score : Q;
  expires_at : datetime
}.

(** A row of [arbitrage_opportunities] (the primary key, a random UUID, is
    left out; the JSON analysis payload is opaque text).  Nullable columns
    are options. *)
Record ArbitrageOpportunity : Type := mk_ArbitrageOpportunity {
  row_event_id : string;
  row_market_type : string;
  row_profit_percentage : Q;
  row_total_stake : Q;
  row_bookmaker_stakes : Dict.t (Dict.t Q);
  row_bookmaker_odds : Dict.t (Dict.t Q);
  row_expected_profit : Q;
  row_risk_score : Q;
  row_ai_score : option Q;
  row_ai_analysis : option string;
  row_status : string;
  row_detected_at : Z;
  row_expires_at : option Z;
  row_executed_at : option Z
}.

(** [settings] ([app/core/config.py]), as read by [ArbitrageDetector.__init__]. *)
Record ArbitrageDetector : Type := mk_ArbitrageDetector {
  min_profit_percentage : Q;
  max_stake_percentage : Q;
  kelly_fraction : Q
}.

Definition default_detector : ArbitrageDetector :=
  mk_ArbitrageDetector 2 10 (25 # 100).

(** ** Risk Scorer: [ArbitrageDetector._calculate_risk_score] *)

Definition volatile_sports : list string := ["tennis"; "basketball_nba"]%string.

(** The body of the [try] block: [None] when a sub-signal raises. *)
Definition risk_signals (event : Event) (market_data : Dict.t bookmaker_data)
    (now : Z) : option Q :=
  let risk_score := 5 in
  (* time to event factor *)
  td <- dt_sub (commence_time event) (utcnow now) ;;
  let time_to_event := total_seconds td / 3600 in
  let risk_score :=
    if Qltb time_to_event 1 then risk_score + 2
    else if Qltb time_to_event 24 then risk_score + 1
    else if Qltb 168 time_to_event then risk_score + 1
    else risk_score in
  (* number of bookmakers factor *)
  let num_bookmakers := Dict.len market_data in
  let risk_score :=
    if (4 <=? num_bookmakers)%nat then risk_score - 1
    else if (num_bookmakers =? 2)%nat then risk_score + 1
    else risk_score in
  (* odds age factor *)
  oldest_odds_age <-
    for_each
      (fun oldest bd =>
         age <- dt_sub (utcnow now) (bd_timestamp bd) ;;
         let age_minutes := total_seconds age / 60 in
         Some (py_max oldest age_minutes))
      (Dict.values market_data) 0 ;;
  let risk_score := if Qltb 10 oldest_odds_age then risk_score + 1 else risk_score in
  let risk_score := if Qltb 30 oldest_odds_age then risk_score + 2 else risk_score in
  (* sport-specific risk *)
  let risk_score :=
    if existsb (String.eqb (sport event)) volatile_sports
    then risk_score + (1 # 2) else risk_score in
  Some (py_min (py_max risk_score 1) 10).

Definition _calculate_risk_score (event : Event)
    (market_data : Dict.t bookmaker_data) (now : Z) : Q :=
  match risk_signals event market_data now with
  | Some r => r
  | None => 5                        (* except Exception: return 5.0 *)
  end.

(** ** Arbitrage Calculator: [ArbitrageDetector._calculate_arbitrage] *)

(** Lines 116-118: the union of the outcome names. *)
Definition all_outcomes_of (market_data : Dict.t bookmaker_data) : StrSet.t :=
  fold_left (fun s bd => StrSet.update s (Dict.keys (bd_odds bd)))
    (Dict.values market_data) [].

(** Line 132: [bookmaker_data['odds'].get(outcome, 0)]. *)
Definition price_of (bd : bookmaker_data) (outcome : string) : Q :=
  Dict.get_default (bd_odds bd) outcome 0.

(** Lines 132-135, one iteration of the inner loop; the state is
    [(best_odd, best_bookmaker)]. *)
Definition best_step (outcome : string) (acc : Q * option string)
    (item : string * bookmaker_data) : Q * option string :=
  let odds := price_of (snd item) outcome in
  if Qltb (fst acc) odds then (odds, Some (fst item)) else acc.

(** Lines 128-135: the inner loop, for one outcome. *)
Definition best_for_outcome (market_data : Dict.t bookmaker_data)
    (outcome : string) : Q * option string :=
  fold_left (best_step outcome) (Dict.items market_data) (0, None).

(** Lines 127-139, one iteration of the outer loop; the state is
    [(best_odds, best_bookmakers)].  When [best_odd > 0] the bookmaker has
    been assigned (lemma [best_for_outcome_assigned]), so the [None] branch
    is never taken. *)
Definition find_step (market_data : Dict.t bookmaker_data)
    (acc : Dict.t Q * Dict.t string) (outcome : string)
  : Dict.t Q * Dict.t string :=
  let best := best_for_outcome market_data outcome in
  if Qltb 0 (fst best) then
    match snd best with
    | Some bookmaker =>
        (Dict.set (fst acc) outcome (fst best),
         Dict.set (snd acc) outcome bookmaker)
    | None => acc
    end
  else acc.

(** Lines 124-139. *)
Definition find_best_odds (market_data : Dict.t bookmaker_data)
    (all_outcomes : StrSet.t) : Dict.t Q * Dict.t string :=
  fold_left (find_step market_data) all_outcomes ([], []).

(** Line 145: [{outcome: 1/odds for outcome, odds in best_odds.items()}]. *)
Definition implied_of (best_odds : Dict.t Q) : option (Dict.t Q) :=
  for_each
    (fun acc item => p <- py_div 1 (snd item) ;; Some (Dict.set acc (fst item) p))
    (Dict.items best_odds) [].

(** Lines 161-163. *)
Definition stakes_of (implied_probabilities : Dict.t Q)
    (total_implied_probability total_stake : Q) : option (Dict.t Q) :=
  for_each
    (fun acc item =>
       r <- py_div (snd item) total_implied_probability ;;
       let stake := r * total_stake in
       Some (Dict.set acc (fst item) (py_round2 stake)))
    (Dict.items implied_probabilities) [].

(** Lines 182-189, one iteration; the pair is
    [(opportunity['bookmaker_stakes'], opportunity['bookmaker_odds'])].  A
    missing key raises [KeyError]. *)
Definition organize_step (best_bookmakers : Dict.t string)
    (stakes best_odds : Dict.t Q)
    (acc : Dict.t (Dict.t Q) * Dict.t (Dict.t Q)) (outcome : string)
  : option (Dict.t (Dict.t Q) * Dict.t (Dict.t Q)) :=
  bookmaker <- Dict.get best_bookmakers outcome ;;
  let acc1 :=
    if negb (Dict.mem (fst acc) bookmaker)
    then (Dict.set (fst acc) bookmaker [], Dict.set (snd acc) bookmaker [])
    else acc in
  stake <- Dict.get stakes outcome ;;
  inner_stakes <- Dict.get (fst acc1) bookmaker ;;
  let bstakes := Dict.set (fst acc1) bookmaker (Dict.set inner_stakes outcome stake) in
  odds <- Dict.get best_odds outcome ;;
  inner_odds <- Dict.get (snd acc1) bookmaker ;;
  let bodds := Dict.set (snd acc1) bookmaker (Dict.set inner_odds outcome odds) in
  Some (bstakes, bodds).

(** Lines 112-195, in exact arithmetic: the sum of line 146, the quotients
    of lines 145, 152 and 162 and the tests of lines 149 and 154 are those of
    the rationals.  [Run._calculate_arbitrage] is the same function over the
    numbers of the runtime. *)
Definition _calculate_arbitrage (self : ArbitrageDetector) (event : Event)
    (market_type : string) (market_data : Dict.t bookmaker_data) (now : Z)
  : option opportunity :=
  let all_outcomes := all_outcomes_of market_data in
  if (List.length all_outcomes <? 2)%nat then None else
  let best := find_best_odds market_data all_outcomes in
  let best_odds := fst best in
  let best_bookmakers := snd best in
  if negb (Dict.len best_odds =? List.length all_outcomes)%nat then None else
  implied_probabilities <- implied_of best_odds ;;
  let total_implied_probability := py_sum (Dict.values implied_probabilities) in
  if Qle_bool 1 total_implied_probability then None else
  q <- py_div (1 - total_implied_probability) total_implied_probability ;;
  let profit_percentage := q * 100 in
  if Qltb profit_percentage (min_profit_percentage self) then None else
  let total_stake := 1000 in
  stakes <- stakes_of implied_probabilities total_implied_probability total_stake ;;
  let expected_profit := total_stake * (profit_percentage / 100) in
  let risk := _calculate_risk_score event market_data now in
  organized <-
    for_each (organize_step best_bookmakers stakes best_odds) all_outcomes ([], []) ;;
  Some {|
    event_id := event_id_of event;
    market_type := market_type;
    profit_percentage := py_round2 profit_percentage;
    total_stake := total_stake;
    expected_profit := py_round2 expected_profit;
    bookmaker_stakes := fst organized;
    bookmaker_odds := snd organized;
    risk_score := risk;
    expires_at := dt_add (utcnow now) (minutes 15)
  |}.

(** ** Market Aggregator: [ArbitrageDetector._analyze_event_for_arbitrage] *)

Fixpoint insert_desc (x : OddsSnapshot) (l : list OddsSnapshot)
  : list OddsSnapshot :=
  match l with
  | [] => [x]
  | y :: r =>
      if (instant (captured_at y) <? instant (captured_at x))%Z
      then x :: y :: r else y :: insert_desc x r
  end.

(** [ORDER BY captured_at DESC] *)
Definition order_by_captured_desc (l : list OddsSnapshot) : list OddsSnapshot :=
  fold_right insert_desc [] l.

(** Lines 71-84: the active snapshots of the event captured in the last 30
    minutes, latest first. *)
Definition select_odds_snapshots (table : list OddsSnapshot) (event : Event)
    (now : Z) : list OddsSnapshot :=
  order_by_captured_desc
    (filter
       (fun s =>
          String.eqb (snap_event_id s) (event_id_of event)
          && is_active s
          && (now - minutes 30 <? instant (captured_at s))%Z)
       table).

(** Lines 93-99, for one [(market_type, market_odds)] item of a snapshot.  The
    inner dictionary is read back right after it was ensured to exist. *)
Definition group_item (snapshot : OddsSnapshot)
    (odds_by_market : Dict.t (Dict.t bookmaker_data))
    (item : string * Dict.t Q) : Dict.t (Dict.t bookmaker_data) :=
  let odds_by_market1 :=
    if negb (Dict.mem odds_by_market (fst item))
    then Dict.set odds_by_market (fst item) []
    else odds_by_market in
  Dict.set odds_by_market1 (fst item)
    (Dict.set (Dict.get_default odds_by_market1 (fst item) [])
       (snap_bookmaker snapshot)
       (mk_bookmaker_data (snd item) (captured_at snapshot))).

(** Lines 92-99: the inner loop over the markets of one snapshot. *)
Definition group_snapshot (odds_by_market : Dict.t (Dict.t bookmaker_data))
    (snapshot : OddsSnapshot) : Dict.t (Dict.t bookmaker_data) :=
  fold_left (group_item snapshot) (Dict.items (odds_data snapshot)) odds_by_market.

(** Lines 90-99. *)
Definition group_by_market (odds_snapshots : list OddsSnapshot)
  : Dict.t (Dict.t bookmaker_data) :=
  fold_left group_snapshot odds_snapshots [].

(** Lines 102-108, one iteration: a market needs at least two bookmakers. *)
Definition analyze_market (self : ArbitrageDetector) (event : Event) (now : Z)
    (opportunities : list opportunity) (item : string * Dict.t bookmaker_data)
  : list opportunity :=
  if (2 <=? Dict.len (snd item))%nat then
    match _calculate_arbitrage self event (fst item) (snd item) now with
    | Some arb_opportunity => opportunities ++ [arb_opportunity]
    | None => opportunities
    end
  else opportunities.

Definition _analyze_event_for_arbitrage (self : ArbitrageDetector)
    (table : list OddsSnapshot) (event : Event) (now : Z) : list opportunity :=
  let odds_snapshots := select_odds_snapshots table event now in
  if (List.length odds_snapshots <? 2)%nat then [] else
  let odds_by_market := group_by_market odds_snapshots in
  fold_left (analyze_market self event now) (Dict.items odds_by_market) [].

(** ** Deduplicator: [ArbitrageDetector._store_opportunities] *)

Definition live_statuses : list string := ["detected"; "analyzed"]%string.

Definition status_in (statuses : list string) (s : string) : bool :=
  existsb (String.eqb s) statuses.

(** The [WHERE] clause of lines 246-253. *)
Definition similar_exists (now : Z) (opp_data : opportunity)
    (row : ArbitrageOpportunity) : bool :=
  String.eqb (row_event_id row) (event_id opp_data)
  && String.eqb (row_market_type row) (market_type opp_data)
  && status_in live_statuses (row_status row)
  && (now - hours 1 <? row_detected_at row)%Z.

(** [result.scalar_one_or_none()]: more than one row raises
    [MultipleResultsFound]. *)
Definition scalar_one_or_none {A : Type} (rows : list A) : option (option A) :=
  match rows with
  | [] => Some None
  | [r] => Some (Some r)
  | _ => None
  end.

(** The row constructed from the keys of [opp_data], once inserted: the column defaults
    give the status and the detection time. *)
Definition new_row (now : Z) (opp_data : opportunity) : ArbitrageOpportunity :=
  {|
    row_event_id := event_id opp_data;
    row_market_type := market_type opp_data;
    row_profit_percentage := profit_percentage opp_data;
    row_total_stake := total_stake opp_data;
    row_bookmaker_stakes := bookmaker_stakes opp_data;
    row_bookmaker_odds := bookmaker_odds opp_data;
    row_expected_profit := expected_profit opp_data;
    row_risk_score := risk_score opp_data;
    row_ai_score := None;
    row_ai_analysis := None;
    row_status := "detected";
    row_detected_at := now;
    row_expires_at := Some (instant (expires_at opp_data));
    row_executed_at := None
  |}.

(** The session of [app/core/database.py], which is not part of the sources
    at hand: [autoflush] tells whether a query sees the rows added earlier in
    the same session, [db_raises] whether the database fails during the
    call. *)
Record Session : Type := mk_Session {
  autoflush : bool;
  db_raises : bool
}.

(** Lines 242-261, one iteration; the state is the list of pending rows. *)
Definition store_step (db : Session) (table : list ArbitrageOpportunity)
    (now : Z) (pending : list ArbitrageOpportunity) (opp_data : opportunity)
  : option (list ArbitrageOpportunity) :=
  let visible := if autoflush db then table ++ pending else table in
  existing <- scalar_one_or_none (filter (similar_exists now opp_data) visible) ;;
  match existing with
  | None => Some (pending ++ [new_row now opp_data])
  | Some _ => Some pending
  end.

(** What the call leaves behind: the table, and whether it re-raised. *)
Record store_outcome : Type := mk_store_outcome {
  table_after : list ArbitrageOpportunity;
  raised : bool
}.

Definition _store_opportunities (db : Session)
    (table : list ArbitrageOpportunity) (now : Z)
    (opportunities : list opportunity) : store_outcome :=
  match
    (if db_raises db then None
     else for_each (store_step db table now) opportunities [])
  with
  | Some pending => mk_store_outcome (table ++ pending) false   (* commit *)
  | None => mk_store_outcome table true                         (* rollback; raise *)
  end.

(** ** Stake Allocator: [ArbitrageDetector.calculate_kelly_stakes] *)

(** Lines 282-286: the probability used as [p] in the Kelly formula. *)
Definition kelly_true_prob (odds : Q) : option Q :=
  implied_prob <- py_div 1 odds ;;
  let true_prob := implied_prob * (105 # 100) in
  Some (if Qltb 1 true_prob then (95 # 100) else true_prob).

(** Lines 277-298, one leg; the state is [(kelly_stakes, total_stake)]. *)
Definition kelly_leg (self : ArbitrageDetector) (bankroll : Q)
    (bookmaker : string) (acc : Dict.t Q * Q) (leg : string * Q)
  : option (Dict.t Q * Q) :=
  let odds := snd leg in
  true_prob <- kelly_true_prob odds ;;
  let b := odds - 1 in
  f <- py_div (b * true_prob - (1 - true_prob)) b ;;
  let f := f * kelly_fraction self in
  if Qltb 0 f then
    let stake := bankroll * f * (max_stake_percentage self / 100) in
    Some (Dict.set (fst acc) (bookmaker ++ "_" ++ fst leg)%string (py_max stake 10),
          snd acc + stake)
  else Some acc.

Record kelly_result : Type := mk_kelly_result {
  kelly_stakes : Dict.t Q;
  total_kelly_stake : Q;
  bankroll_percentage : Q
}.

Definition calculate_kelly_stakes (self : ArbitrageDetector)
    (opp : opportunity) (bankroll : Q) : kelly_result :=
  match
    (acc <- for_each
              (fun acc item =>
                 for_each (kelly_leg self bankroll (fst item))
                   (Dict.items (snd item)) acc)
              (Dict.items (bookmaker_odds opp)) ([], 0) ;;
     share <- py_div (snd acc) bankroll ;;
     Some (mk_kelly_result (fst acc) (snd acc) (share * 100)))
  with
  | Some r => r
  | None => mk_kelly_result [] 0 0
  end.

(** ** Cleanup sweep: [BackgroundTaskManager._cleanup_expired_opportunities] *)

(** The [WHERE] clause of lines 130-135; a NULL [expires_at] matches nothing. *)
Definition is_expired (now : Z) (row : ArbitrageOpportunity) : bool :=
  match row_expires_at row with
  | Some e => (e <=? now)%Z && status_in live_statuses (row_status row)
  | None => false
  end.

Definition set_status (s : string) (row : ArbitrageOpportunity)
  : ArbitrageOpportunity :=
  {|
    row_event_id := row_event_id row;
    row_market_type := row_market_type row;
    row_profit_percentage := row_profit_percentage row;
    row_total_stake := row_total_stake row;
    row_bookmaker_stakes := row_bookmaker_stakes row;
    row_bookmaker_odds := row_bookmaker_odds row;
    row_expected_profit := row_expected_profit row;
    row_risk_score := row_risk_score row;
    row_ai_score := row_ai_score row;
    row_ai_analysis := row_ai_analysis row;
    row_status := s;
    row_detected_at := row_detected_at row;
    row_expires_at := row_expires_at row;
    row_executed_at := row_executed_at row
  |}.

(** [UPDATE ... WHERE ... SET status = 'expired'] *)
Definition update_expired (now : Z) (table : list ArbitrageOpportunity)
  : list ArbitrageOpportunity :=
  map (fun row => if is_expired now row then set_status "expired" row else row)
    table.

(** The table after the call: a database failure rolls the update back. *)
Definition _cleanup_expired_opportunities (db : Session)
    (table : list ArbitrageOpportunity) (now : Z)
  : list ArbitrageOpportunity :=
  if db_raises db then table else update_expired now table.

(** ** Snapshot retention: [BackgroundTaskManager._cleanup_old_odds_snapshots] *)

Definition days (n : Z) : Z := (n * 86400 * 1000000)%Z.

(** The table after [DELETE ... WHERE captured_at < cutoff_date], with the
    cutoff seven days back; a database failure rolls the deletion back. *)
Definition _cleanup_old_odds_snapshots (db : Session) (table : list OddsSnapshot)
    (now : Z) : list OddsSnapshot :=
  if db_raises db then table else
  let cutoff_date := (now - days 7)%Z in
  filter (fun s => negb (instant (captured_at s) <? cutoff_date)%Z) table.

(** ** The detection cycle: [ArbitrageDetector.detect_arbitrage_opportunities] *)

Fixpoint insert_by_commence (x : Event) (l : list Event) : list Event :=
  match l with
  | [] => [x]
  | y :: r =>
      if (instant (commence_time x) <? instant (commence_time y))%Z
      then x :: y :: r else y :: insert_by_commence x r
  end.

(** [ORDER BY commence_time] *)
Definition order_by_commence_time (l : list Event) : list Event :=
  fold_right insert_by_commence [] l.

(** Lines 31-45: the upcoming events that start within seven days, soonest
    first, at most 100 of them. *)
Definition select_events (events : list Event) (now : Z) : list Event :=
  firstn 100
    (order_by_commence_time
       (filter
          (fun e =>
             String.eqb (event_status e) "upcoming"
             && (now <? instant (commence_time e))%Z
             && (instant (commence_time e) <? now + days 7)%Z)
          events)).

(** Lines 47-53: the opportunities of the events, in order. *)
Definition analyze_events (self : ArbitrageDetector) (snapshots : list OddsSnapshot)
    (events : list Event) (now : Z) : list opportunity :=
  fold_left
    (fun opportunities event =>
       opportunities ++ _analyze_event_for_arbitrage self snapshots event now)
    events [].

(** What a cycle leaves behind: the list it returns and the table of
    opportunities. *)
Record detect_outcome : Type := mk_detect_outcome {
  returned : list opportunity;
  opportunities_after : list ArbitrageOpportunity
}.

(** A failure of the database, or the exception re-raised by
    [_store_opportunities], is caught by the outer handler, which returns the
    empty list. *)
Definition detect_arbitrage_opportunities (self : ArbitrageDetector) (db : Session)
    (events : list Event) (snapshots : list OddsSnapshot)
    (table : list ArbitrageOpportunity) (now : Z) : detect_outcome :=
  if db_raises db then mk_detect_outcome [] table else
  let opportunities := analyze_events self snapshots (select_events events now) now in
  match opportunities with
  | [] => mk_detect_outcome opportunities table
  | _ :: _ =>
      let stored := _store_opportunities db table now opportunities in
      if raised stored then mk_detect_outcome [] (table_after stored)
      else mk_detect_outcome opportunities (table_after stored)
  end.

(** ** The task manager: [BackgroundTaskManager.start_all_tasks] and
       [stop_all_tasks] *)

(** The four loops; a task is recorded by the loop it runs. *)
Inductive loop_kind : Type :=
  | OddsCollectionLoop
  | ArbitrageDetectionLoop
  | AIAnalysisLoop
  | CleanupLoop.

Record BackgroundTaskManager : Type := mk_BackgroundTaskManager {
  tasks : list loop_kind;
  running : bool
}.

(** [__init__] *)
Definition new_manager : BackgroundTaskManager := mk_BackgroundTaskManager [] false.

Definition start_all_tasks (self : BackgroundTaskManager) : BackgroundTaskManager :=
  if running self then self
  else
    mk_BackgroundTaskManager
      (tasks self
       ++ [OddsCollectionLoop; ArbitrageDetectionLoop; AIAnalysisLoop; CleanupLoop])
      true.

(** Every task is cancelled and awaited, then the list is cleared. *)
Definition stop_all_tasks (self : BackgroundTaskManager) : BackgroundTaskManager :=
  mk_BackgroundTaskManager [] false.

Inductive manager_call : Type :=
  | Start
  | Stop.

Definition manager_step (self : BackgroundTaskManager) (c : manager_call)
  : BackgroundTaskManager :=
  match c with
  | Start => start_all_tasks self
  | Stop => stop_all_tasks self
  end.

(** ** The rule-based fallback: [AIAnalyzer._get_default_analysis] *)

(** [int(x)]: truncation towards zero. *)
Definition py_int (x : Q) : Z := if Qltb x 0 then Qceiling x else Qfloor x.

(** The analysis dictionary, without its [reasoning] text and its
    [analysis_timestamp], which are formatted strings. *)
Record analysis : Type := mk_analysis {
  ai_score : Q;
  risk_level : Z;
  execution_difficulty : string;
  recommended_action : string;
  confidence : Q;
  key_factors : list string;
  warnings : list string;
  execution_priority : string;
  model_used : string
}.

(** The arguments are [context['opportunity']['profit_percentage']],
    [context['opportunity']['risk_score']] and
    [context['event']['time_to_event_hours']]. *)
Definition _get_default_analysis (profit risk time_to_event : Q) : analysis :=
  let ai_score := 5 in
  let ai_score :=
    if Qltb 5 profit then ai_score + 2
    else if Qltb 3 profit then ai_score + 1
    else ai_score in
  let ai_score :=
    if Qltb risk 3 then ai_score + 1
    else if Qltb 7 risk then ai_score - 2
    else ai_score in
  let ai_score :=
    if Qltb time_to_event 2 then ai_score - 1
    else if Qltb 48 time_to_event then ai_score + 1
    else ai_score in
  let ai_score := py_max 1 (py_min 10 ai_score) in
  {|
    ai_score := ai_score;
    risk_level := Z.min 5 (Z.max 1 (py_int (risk / 2)));
    execution_difficulty := "medium";
    recommended_action :=
      if Qle_bool 7 ai_score then "execute"
      else if Qle_bool 4 ai_score then "monitor" else "skip";
    confidence := 6 # 10;
    key_factors := ["profit_margin"; "risk_assessment"; "time_factor"];
    warnings := ["AI analysis unavailable - using rule-based assessment"];
    execution_priority :=
      if Qle_bool 8 ai_score then "high"
      else if Qle_bool 5 ai_score then "medium" else "low";
    model_used := "rule_based_fallback"
  |}%string.

(** ** Outcome names: [OddsCollector._normalize_outcome_key] *)

(** [str.lower()] on an ASCII character. *)
Definition lower_char (c : ascii) : ascii :=
  let n := nat_of_ascii c in
  if (65 <=? n)%nat && (n <=? 90)%nat then ascii_of_nat (n + 32) else c.

(** The ASCII characters that [str.strip()] removes. *)
Definition is_space (c : ascii) : bool :=
  let n := nat_of_ascii c in
  ((9 <=? n)%nat && (n <=? 13)%nat) || ((28 <=? n)%nat && (n <=? 32)%nat).

Fixpoint lstrip (l : list ascii) : list ascii :=
  match l with
  | [] => []
  | c :: r => if is_space c then lstrip r else l
  end.

Fixpoint rstrip (l : list ascii) : list ascii :=
  match l with
  | [] => []
  | c :: r =>
      match rstrip r with
      | [] => if is_space c then [] else [c]
      | r' => c :: r'
      end
  end.

Definition strip (l : list ascii) : list ascii := rstrip (lstrip l).

Definition outcome_mappings : Dict.t string :=
  [("1", "home"); ("2", "away"); ("x", "draw"); ("draw", "draw");
   ("tie", "draw"); ("over", "over"); ("under", "under")]%string.

(** For names made of ASCII characters. *)
Definition _normalize_outcome_key (outcome_name : string) : string :=
  let outcome_name :=
    string_of_list_ascii
      (strip (map lower_char (list_ascii_of_string outcome_name))) in
  Dict.get_default outcome_mappings outcome_name outcome_name.

(** ** The calculator over the numbers of the runtime *)

(** The definitions above take Python's [float] as exact rationals.  The
    tests of lines 133, 137, 149 and 154 compare computed numbers, and a
    computed number is a rounded one: this section gives the calculator once
    more, line for line, over whatever numbers the runtime supplies.  A
    [Runtime] fixes the numbers with their operations, the built-in [sum] and
    [round(_, 2)], and the order in which a [set] is iterated. *)

Module Run.

Record Runtime : Type := mk_Runtime {
  num : Type;
  zero : num;                               (* 0 *)
  one : num;                                (* 1, 1.0 *)
  hundred : num;                            (* 100 *)
  thousand : num;                           (* 1000 *)
  sub : num -> num -> num;                  (* x - y *)
  mul : num -> num -> num;                  (* x * y *)
  quot : num -> num -> num;                 (* x / y, for y other than zero *)
  is_zero : num -> bool;                    (* y == 0, when x / y raises *)
  ltb : num -> num -> bool;                 (* x < y *)
  leb : num -> num -> bool;                 (* x <= y *)
  round2 : num -> num;                      (* round(x, 2) *)
  sum : list num -> num;                    (* sum(xs) *)
  set_iter : StrSet.t -> list string        (* for x in s *)
}.

(** What the properties below use of a runtime: 0 is not above itself, a
    number above 0 is not zero, 100 is not zero, and iterating a set visits
    each of its elements once. *)
Record lawful (R : Runtime) : Prop := mk_lawful {
  zero_not_positive : ltb R (zero R) (zero R) = false;
  positive_not_zero : forall x : num R, ltb R (zero R) x = true -> is_zero R x = false;
  hundred_not_zero : is_zero R (hundred R) = false;
  set_iter_perm : forall s : StrSet.t, Permutation (set_iter R s) s
}.

(** One entry of [market_data]: [{'odds': ..., 'timestamp': ...}]. *)
Record market_entry (N : Type) : Type := mk_market_entry {
  odds : Dict.t N;
  timestamp : datetime
}.

Arguments mk_market_entry {N} _ _.
Arguments odds {N} _.
Arguments timestamp {N} _.

(** The dictionary built by [_calculate_arbitrage]. *)
Record opportunity (N : Type) : Type := mk_opportunity {
  event_id : string;
  market_type : string;
  profit_percentage : N;
  total_stake : N;
  expected_profit : N;
  bookmaker_stakes : Dict.t (Dict.t N);
  bookmaker_odds : Dict.t (Dict.t N);
  risk_score : Q;
  expires_at : datetime
}.

Arguments mk_opportunity {N} _ _ _ _ _ _ _ _ _.
Arguments event_id {N} _.
Arguments market_type {N} _.
Arguments profit_percentage {N} _.
Arguments total_stake {N} _.
Arguments expected_profit {N} _.
Arguments bookmaker_stakes {N} _.
Arguments bookmaker_odds {N} _.
Arguments risk_score {N} _.
Arguments expires_at {N} _.

(** [settings], as read by [ArbitrageDetector.__init__]. *)
Record ArbitrageDetector (N : Type) : Type := mk_ArbitrageDetector {
  min_profit_percentage : N;
  max_stake_percentage : N;
  kelly_fraction : N
}.

Arguments mk_ArbitrageDetector {N} _ _ _.
Arguments min_profit_percentage {N} _.
Arguments max_stake_percentage {N} _.
Arguments kelly_fraction {N} _.

(** The risk scorer reads the number of bookmakers and their timestamps
    only: it is the one of the section on the Risk Scorer, run on the market
    without its prices. *)
Definition timestamps {N : Type} (market_data : Dict.t (market_entry N))
  : Dict.t bookmaker_data :=
  map (fun item => (fst item, mk_bookmaker_data [] (timestamp (snd item))))
    market_data.

Section Calculator.

Variable R : Runtime.

(** [x / y]: division by zero raises [ZeroDivisionError]. *)
Definition py_div (x y : num R) : option (num R) :=
  if is_zero R y then None else Some (quot R x y).

(** Lines 116-118. *)
Definition all_outcomes_of (market_data : Dict.t (market_entry (num R))) : StrSet.t :=
  fold_left (fun s entry => StrSet.update s (Dict.keys (odds entry)))
    (Dict.values market_data) [].

(** Line 132. *)
Definition price_of (entry : market_entry (num R)) (outcome : string) : num R :=
  Dict.get_default (odds entry) outcome (zero R).

(** Lines 132-135. *)
Definition best_step (outcome : string) (acc : num R * option string)
    (item : string * market_entry (num R)) : num R * option string :=
  let odds := price_of (snd item) outcome in
  if ltb R (fst acc) odds then (odds, Some (fst item)) else acc.

(** Lines 128-135. *)
Definition best_for_outcome (market_data : Dict.t (market_entry (num R)))
    (outcome : string) : num R * option string :=
  fold_left (best_step outcome) (Dict.items market_data) (zero R, None).

(** Lines 127-139, one iteration of the outer loop. *)
Definition find_step (market_data : Dict.t (market_entry (num R)))
    (acc : Dict.t (num R) * Dict.t string) (outcome : string)
  : Dict.t (num R) * Dict.t string :=
  let best := best_for_outcome market_data outcome in
  if ltb R (zero R) (fst best) then
    match snd best with
    | Some bookmaker =>
        (Dict.set (fst acc) outcome (fst best),
         Dict.set (snd acc) outcome bookmaker)
    | None => acc
    end
  else acc.

(** Lines 124-139, over the outcomes in the order of iteration. *)
Definition find_best_odds (market_data : Dict.t (market_entry (num R)))
    (outcomes : list string) : Dict.t (num R) * Dict.t string :=
  fold_left (find_step market_data) outcomes ([], []).

(** Line 145. *)
Definition implied_of (best_odds : Dict.t (num R)) : option (Dict.t (num R)) :=
  for_each
    (fun acc item =>
       p <- py_div (one R) (snd item) ;; Some (Dict.set acc (fst item) p))
    (Dict.items best_odds) [].

(** Lines 161-163. *)
Definition stakes_of (implied_probabilities : Dict.t (num R))
    (total_implied_probability total_stake : num R) : option (Dict.t (num R)) :=
  for_each
    (fun acc item =>
       r <- py_div (snd item) total_implied_probability ;;
       let stake := mul R r total_stake in
       Some (Dict.set acc (fst item) (round2 R stake)))
    (Dict.items implied_probabilities) [].

(** Lines 182-189, one iteration. *)
Definition organize_step (best_bookmakers : Dict.t string)
    (stakes best_odds : Dict.t (num R))
    (acc : Dict.t (Dict.t (num R)) * Dict.t (Dict.t (num R))) (outcome : string)
  : option (Dict.t (Dict.t (num R)) * Dict.t (Dict.t (num R))) :=
  bookmaker <- Dict.get best_bookmakers outcome ;;
  let acc1 :=
    if negb (Dict.mem (fst acc) bookmaker)
    then (Dict.set (fst acc) bookmaker [], Dict.set (snd acc) bookmaker [])
    else acc in
  stake <- Dict.get stakes outcome ;;
  inner_stakes <- Dict.get (fst acc1) bookmaker ;;
  let bstakes := Dict.set (fst acc1) bookmaker (Dict.set inner_stakes outcome stake) in
  price <- Dict.get best_odds outcome ;;
  inner_odds <- Dict.get (snd acc1) bookmaker ;;
  let bodds := Dict.set (snd acc1) bookmaker (Dict.set inner_odds outcome price) in
  Some (bstakes, bodds).

(** Lines 112-195. *)
Definition _calculate_arbitrage (self : ArbitrageDetector (num R)) (event : Event)
    (market_type : string) (market_data : Dict.t (market_entry (num R))) (now : Z)
  : option (opportunity (num R)) :=
  let all_outcomes := all_outcomes_of market_data in
  if (List.length all_outcomes <? 2)%nat then None else
  let best := find_best_odds market_data (set_iter R all_outcomes) in
  let best_odds := fst best in
  let best_bookmakers := snd best in
  if negb (Dict.len best_odds =? List.length all_outcomes)%nat then None else
  implied_probabilities <- implied_of best_odds ;;
  let total_implied_probability := sum R (Dict.values implied_probabilities) in
  if leb R (one R) total_implied_probability then None else
  q <- py_div (sub R (one R) total_implied_probability) total_implied_probability ;;
  let profit_percentage := mul R q (hundred R) in
  if ltb R profit_percentage (min_profit_percentage self) then None else
  let total_stake := thousand R in
  stakes <- stakes_of implied_probabilities total_implied_probability total_stake ;;
  h <- py_div profit_percentage (hundred R) ;;
  let expected_profit := mul R total_stake h in
  let risk := _calculate_risk_score event (timestamps market_data) now in
  organized <-
    for_each (organize_step best_bookmakers stakes best_odds)
      (set_iter R all_outcomes) ([], []) ;;
  Some {|
    event_id := event_id_of event;
    market_type := market_type;
    profit_percentage := round2 R profit_percentage;
    total_stake := total_stake;
    expected_profit := round2 R expected_profit;
    bookmaker_stakes := fst organized;
    bookmaker_odds := snd organized;
    risk_score := risk;
    expires_at := dt_add (utcnow now) (minutes 15)
  |}.

(** The best price found for an outcome. *)
Definition best_price (market_data : Dict.t (market_entry (num R)))
    (outcome : string) : num R :=
  fst (best_for_outcome market_data outcome).

(** The sum of the best-price implied probabilities, as the runtime computes
    it: [1 / best price] per outcome, summed by [sum] in the order in which
    the set of outcomes is iterated. *)
Definition computed_implied_sum (market_data : Dict.t (market_entry (num R))) : num R :=
  sum R (map (fun o => quot R (one R) (best_price market_data o))
           (set_iter R (all_outcomes_of market_data))).

(** The profit percentage of line 152, as the runtime computes it. *)
Definition computed_profit (market_data : Dict.t (market_entry (num R))) : num R :=
  mul R (quot R (sub R (one R) (computed_implied_sum market_data))
           (computed_implied_sum market_data))
    (hundred R).

End Calculator.

End Run.

(** *** Exact arithmetic *)

(** The runtime of the sections above: rationals, a set iterated in order of
    first insertion. *)
Definition exact_runtime : Run.Runtime :=
  {|
    Run.num := Q;
    Run.zero := 0;
    Run.one := 1;
    Run.hundred := 100;
    Run.thousand := 1000;
    Run.sub := Qminus;
    Run.mul := Qmult;
    Run.quot := Qdiv;
    Run.is_zero := fun y => Qeq_bool y 0;
    Run.ltb := Qltb;
    Run.leb := Qle_bool;
    Run.round2 := py_round2;
    Run.sum := py_sum;
    Run.set_iter := fun s => s
  |}.

(** *** IEEE 754 double precision *)

(** The rational that a finite double denotes (0 for the others). *)
Definition f64_exact (x : float) : Q :=
  match Prim2SF x with
  | S754_finite s m e =>
      (if s then - inject_Z (Z.pos m) else inject_Z (Z.pos m)) * Qpower 2 e
  | _ => 0
  end.

(** [sum(xs)] on floats, as CPython computes it up to version 3.11: from 0.0,
    left to right, every addition rounded. *)
Definition f64_sum (xs : list float) : float := fold_left PrimFloat.add xs 0%float.

(** [round(x, 2)] on a float: the exact value of [x] is rounded to the nearest
    multiple of 1/100, ties to the even one, and that decimal is converted
    back to the nearest double; zeros, infinities and NaN are returned as
    they are, and the sign is kept. *)
Definition f64_round2 (x : float) : float :=
  match Prim2SF x with
  | S754_finite s m e =>
      match round_half_even (inject_Z (Z.pos m) * Qpower 2 e * 100) with
      | Z.pos cents =>
          SF2Prim (SFdiv prec emax (S754_finite s cents 0) (S754_finite false 100 0))
      | _ => if s then (-0)%float else 0%float
      end
  | _ => x
  end.

Definition binary64 : Run.Runtime :=
  {|
    Run.num := float;
    Run.zero := 0%float;
    Run.one := 1%float;
    Run.hundred := 100%float;
    Run.thousand := 1000%float;
    Run.sub := PrimFloat.sub;
    Run.mul := PrimFloat.mul;
    Run.quot := PrimFloat.div;
    Run.is_zero := fun y => PrimFloat.eqb y 0%float;
    Run.ltb := PrimFloat.ltb;
    Run.leb := PrimFloat.leb;
    Run.round2 := f64_round2;
    Run.sum := f64_sum;
    Run.set_iter := fun s => s
  |}.

(** The market of the exact model that quotes the same prices. *)
Definition exact_market (market_data : Dict.t (Run.market_entry float))
  : Dict.t bookmaker_data :=
  map (fun item : string * Run.market_entry float =>
         (fst item,
          mk_bookmaker_data
            (map (fun quote : string * float => (fst quote, f64_exact (snd quote)))
               (Run.odds (snd item)))
            (Run.timestamp (snd item))))
    market_data.

(** The inputs and the result of the exact model, as those of the calculator
    run on [exact_runtime]. *)
Definition run_market (market_data : Dict.t bookmaker_data)
  : Dict.t (Run.market_entry Q) :=
  map (fun item : string * bookmaker_data =>
         (fst item,
          Run.mk_market_entry (N := Q)
            (bd_odds (snd item)) (bd_timestamp (snd item))))
    market_data.

Definition run_detector (self : ArbitrageDetector)
  : Run.ArbitrageDetector Q :=
  Run.mk_ArbitrageDetector (N := Q)
    (min_profit_percentage self) (max_stake_percentage self) (kelly_fraction self).

Definition run_opportunity (opp : opportunity) : Run.opportunity Q :=
  Run.mk_opportunity (N := Q)
    (event_id opp) (market_type opp) (profit_percentage opp) (total_stake opp)
    (expected_profit opp) (bookmaker_stakes opp) (bookmaker_odds opp)
    (risk_score opp) (expires_at opp).

(** * Notions used to state the properties *)

(** ** Auxiliary notions *)

(** The best price found for an outcome (0 when no bookmaker quotes a
    positive price). *)
Definition best_price (market_data : Dict.t bookmaker_data) (outcome : string) : Q :=
  fst (best_for_outcome market_data outcome).

(** The test of line 137. *)
Definition positive_best (market_data : Dict.t bookmaker_data) (outcome : string)
  : bool :=
  Qltb 0 (best_price market_data outcome).

(** All [(outcome, value)] legs of a [bookmaker -> outcome -> value] mapping. *)
Definition legs (d : Dict.t (Dict.t Q)) : list (string * Q) :=
  List.concat (Dict.values d).

(** [d[b][o] = v], creating [d[b]] first when [b] is new. *)
Definition nested_put (d : Dict.t (Dict.t Q)) (fresh : bool) (b o : string) (v : Q)
  : option (Dict.t (Dict.t Q)) :=
  let d1 := if fresh then Dict.set d b [] else d in
  inner <- Dict.get d1 b ;;
  Some (Dict.set d1 b (Dict.set inner o v)).

(** A count as a rational. *)
Definition count_Q (n : nat) : Q := inject_Z (Z.of_nat n).

(** Every market entry of the grouping has distinct bookmakers, each with a
    snapshot, among the known ones, that quotes the market. *)
Definition grouped_from (known : list OddsSnapshot)
    (odds_by_market : Dict.t (Dict.t bookmaker_data)) : Prop :=
  forall mt md,
    In (mt, md) odds_by_market ->
    NoDup (Dict.keys md)
    /\ forall b, In b (Dict.keys md) ->
         exists s, In s known /\ snap_bookmaker s = b
                   /\ Dict.mem (odds_data s) mt = true.

(** The bookmakers of a two-level mapping, each with its outcome names. *)
Definition shape (d : Dict.t (Dict.t Q)) : list (string * list string) :=
  map (fun entry => (fst entry, Dict.keys (snd entry))) d.

(** [odds_by_market[mt][b]], when both keys are present. *)
Definition group_entry (odds_by_market : Dict.t (Dict.t bookmaker_data))
    (mt b : string) : option bookmaker_data :=
  match Dict.get odds_by_market mt with
  | Some md => Dict.get md b
  | None => None
  end.

(** Snapshot [s] is of bookmaker [b] and quotes market [mt]. *)
Definition quotes (mt b : string) (s : OddsSnapshot) : Prop :=
  snap_bookmaker s = b /\ In mt (Dict.keys (odds_data s)).

(** A list that does not start with a space. *)
Definition starts_clean (l : list ascii) : Prop :=
  match l with
  | [] => True
  | c :: _ => is_space c = false
  end.

(** Every character is an ASCII one (below 128). *)
Definition is_ascii_name (s : string) : Prop :=
  Forall (fun c => (nat_of_ascii c < 128)%nat) (list_ascii_of_string s).

(** ** The notions of the specification *)

(** The union of the outcome names over all contributing bookmakers. *)
Definition outcome_union (market_data : Dict.t bookmaker_data) : list string :=
  nodup string_dec (flat_map (fun item => Dict.keys (bd_odds (snd item))) market_data).

(** The sum of the best-price implied probabilities of a market. *)
Definition implied_total (market_data : Dict.t bookmaker_data) : Q :=
  py_sum (map (fun o => 1 / best_price market_data o) (all_outcomes_of market_data)).

(** The sum over the outcome union of [1 / best price]. *)
Definition best_price_implied_sum (market_data : Dict.t bookmaker_data) : Q :=
  py_sum (map (fun o => 1 / best_price market_data o) (outcome_union market_data)).

(** The per-outcome stakes of an opportunity, over all bookmakers. *)
Definition all_stakes (opp : opportunity) : list Q :=
  map snd (legs (bookmaker_stakes opp)).

(** The total implied probability recomputed from the returned odds. *)
Definition recomputed_total_implied (opp : opportunity) : Q :=
  py_sum (map (fun leg => 1 / snd leg) (legs (bookmaker_odds opp))).

(** [b] is the earliest bookmaker, in the iteration order of the market
    mapping, among those quoting the maximum price of outcome [o]. *)
Definition first_at_max (market_data : Dict.t bookmaker_data) (o b : string) : Prop :=
  exists pre bd post,
    market_data = pre ++ (b, bd) :: post
    /\ Forall (fun item => price_of (snd item) o < price_of bd o) pre
    /\ Forall (fun item => price_of (snd item) o <= price_of bd o) post.

(** [b] is not greater, in the lexicographic order of identifiers, than any
    bookmaker quoting the best price of outcome [o]. *)
Definition lexicographically_smallest_at_max (market_data : Dict.t bookmaker_data)
    (o b : string) : Prop :=
  forall b' bd',
    In (b', bd') market_data ->
    price_of bd' o == best_price market_data o ->
    String.leb b b' = true.

(** The bookmaker under which the returned odds list outcome [o]. *)
Definition selected_for (opp : opportunity) (o b : string) : Prop :=
  exists inner, In (b, inner) (bookmaker_odds opp) /\ In o (Dict.keys inner).

(** The distinct bookmakers that contribute a quote for a market. *)
Definition contributing_bookmakers (odds_snapshots : list OddsSnapshot)
    (mt : string) : list string :=
  nodup string_dec
    (map snap_bookmaker
       (filter (fun s => Dict.mem (odds_data s) mt) odds_snapshots)).

(** The (event, market) pair of a row. *)
Definition row_key (row : ArbitrageOpportunity) : string * string :=
  (row_event_id row, row_market_type row).

(** An opportunity is due when its expiry time is reached ([expires_at <=
    now], the comparison of the sweep) and its status is still "detected" or
    "analyzed". *)
Definition due (now : Z) (row : ArbitrageOpportunity) : Prop :=
  (exists e, row_expires_at row = Some e /\ (e <= now)%Z)
  /\ (row_status row = "detected"%string \/ row_status row = "analyzed"%string).

(** Every column but [status] is the same in both rows. *)
Definition same_but_status (old new : ArbitrageOpportunity) : Prop :=
  row_event_id new = row_event_id old
  /\ row_market_type new = row_market_type old
  /\ row_profit_percentage new = row_profit_percentage old
  /\ row_total_stake new = row_total_stake old
  /\ row_bookmaker_stakes new = row_bookmaker_stakes old
  /\ row_bookmaker_odds new = row_bookmaker_odds old
  /\ row_expected_profit new = row_expected_profit old
  /\ row_risk_score new = row_risk_score old
  /\ row_ai_score new = row_ai_score old
  /\ row_ai_analysis new = row_ai_analysis old
  /\ row_detected_at new = row_detected_at old
  /\ row_expires_at new = row_expires_at old
  /\ row_executed_at new = row_executed_at old.

(** The (event, market) pair of a candidate. *)
Definition opp_key (opp : opportunity) : string * string :=
  (event_id opp, market_type opp).

(** ** Sample inputs *)

Definition sample_event : Event :=
  mk_Event "e1" "soccer" (mk_datetime (hours 30) false) "upcoming".

(** Scenario A: two bookmakers quote both outcomes of a market at 2.10. *)
Definition scenario_a_market : Dict.t bookmaker_data :=
  [("bet365", mk_bookmaker_data [("home", 21 # 10); ("away", 2)] (mk_datetime 0 false));
   ("pinnacle", mk_bookmaker_data [("home", 2); ("away", 21 # 10)] (mk_datetime 0 false))]%string.

(** The opportunity computed for Scenario A at instant 0. *)
Definition scenario_a_opportunity : opportunity :=
  {|
    event_id := "e1";
    market_type := "h2h";
    profit_percentage := 500 # 100;
    total_stake := 1000;
    expected_profit := 5000 # 100;
    bookmaker_stakes :=
      [("bet365", [("home", 50000 # 100)]); ("pinnacle", [("away", 50000 # 100)])]%string;
    bookmaker_odds :=
      [("bet365", [("home", 21 # 10)]); ("pinnacle", [("away", 21 # 10)])]%string;
    risk_score := 6;
    expires_at := mk_datetime 900000000 false
  |}.

Definition lone_outcome_market : Dict.t bookmaker_data :=
  [("bet365", mk_bookmaker_data [("home", 3)] (mk_datetime 0 false));
   ("pinnacle", mk_bookmaker_data [("home", 31 # 10)] (mk_datetime 0 false))]%string.

(** An outright market of six runners, each best priced at 7.0. *)
Definition six_runner_market : Dict.t bookmaker_data :=
  [("bet365",
    mk_bookmaker_data
      [("r1", 7); ("r2", 7); ("r3", 7); ("r4", 7); ("r5", 7); ("r6", 7)]
      (mk_datetime 0 false));
   ("pinnacle",
    mk_bookmaker_data
      [("r1", 65 # 10); ("r2", 65 # 10); ("r3", 65 # 10); ("r4", 65 # 10);
       ("r5", 65 # 10); ("r6", 65 # 10)]
      (mk_datetime 0 false))]%string.

(** Best prices 2.1 and 2.2. *)
Definition uneven_market : Dict.t bookmaker_data :=
  [("bet365", mk_bookmaker_data [("home", 21 # 10); ("away", 2)] (mk_datetime 0 false));
   ("pinnacle", mk_bookmaker_data [("home", 2); ("away", 22 # 10)] (mk_datetime 0 false))]%string.

(** Two bookmakers tie at 2.10 on "home"; "zeta" comes first in the mapping. *)
Definition tied_market : Dict.t bookmaker_data :=
  [("zeta", mk_bookmaker_data [("home", 21 # 10); ("away", 2)] (mk_datetime 0 false));
   ("alpha", mk_bookmaker_data [("home", 21 # 10); ("away", 21 # 10)] (mk_datetime 0 false))]%string.

(** The opportunity computed for the tied market at instant 0. *)
Definition tied_opportunity : opportunity :=
  {|
    event_id := "e1";
    market_type := "h2h";
    profit_percentage := 500 # 100;
    total_stake := 1000;
    expected_profit := 5000 # 100;
    bookmaker_stakes :=
      [("zeta", [("home", 50000 # 100)]); ("alpha", [("away", 50000 # 100)])]%string;
    bookmaker_odds :=
      [("zeta", [("home", 21 # 10)]); ("alpha", [("away", 21 # 10)])]%string;
    risk_score := 6;
    expires_at := mk_datetime 900000000 false
  |}.

(** An event whose start time carries a time zone, already started, with no
    bookmaker at all. *)
Definition aware_event : Event :=
  mk_Event "e2" "tennis" (mk_datetime (- hours 5) true) "upcoming".

Definition sample_row (s : string) (expires : Z) : ArbitrageOpportunity :=
  {|
    row_event_id := "e1"; row_market_type := "h2h";
    row_profit_percentage := 5; row_total_stake := 1000;
    row_bookmaker_stakes := []; row_bookmaker_odds := [];
    row_expected_profit := 50; row_risk_score := 6;
    row_ai_score := None; row_ai_analysis := None;
    row_status := s; row_detected_at := 0;
    row_expires_at := Some expires; row_executed_at := None
  |}.

(** Two fresh snapshots: both bookmakers quote "h2h", only one quotes
    "totals" (at prices that would otherwise be an arbitrage). *)
Definition sample_snapshots : list OddsSnapshot :=
  [mk_OddsSnapshot "e1" "bet365"
     [("h2h", [("home", 21 # 10); ("away", 2)]);
      ("totals", [("over", 3); ("under", 3)])]
     (mk_datetime 0 false) true;
   mk_OddsSnapshot "e1" "pinnacle"
     [("h2h", [("home", 2); ("away", 21 # 10)])]
     (mk_datetime 0 false) true]%string.

(** Two snapshots of "bet365" (captured at minutes 4 and 1) and one of
    "pinnacle" (minute 3), all fresh at minute 5. *)
Definition repeated_snapshots : list OddsSnapshot :=
  [mk_OddsSnapshot "e1" "bet365" [("h2h", [("home", 21 # 10); ("away", 2)])]
     (mk_datetime (minutes 4) false) true;
   mk_OddsSnapshot "e1" "pinnacle" [("h2h", [("home", 2); ("away", 21 # 10)])]
     (mk_datetime (minutes 3) false) true;
   mk_OddsSnapshot "e1" "bet365" [("h2h", [("home", 25 # 10); ("away", 18 # 10)])]
     (mk_datetime (minutes 1) false) true]%string.

(** A candidate for another market of the same event. *)
Definition totals_opportunity : opportunity :=
  {|
    event_id := "e1"; market_type := "totals"; profit_percentage := 3;
    total_stake := 1000; expected_profit := 30; bookmaker_stakes := [];
    bookmaker_odds := []; risk_score := 5;
    expires_at := mk_datetime (minutes 25) false
  |}.

(** An opportunity with one leg priced at 1.08 and one at exactly 1. *)
Definition even_money_opportunity : opportunity :=
  {|
    event_id := "e1"; market_type := "h2h"; profit_percentage := 5;
    total_stake := 1000; expected_profit := 50; bookmaker_stakes := [];
    bookmaker_odds :=
      [("bet365", [("home", 108 # 100)]); ("pinnacle", [("away", 1)])]%string;
    risk_score := 5; expires_at := mk_datetime 0 false
  |}.

(** An opportunity with legs priced at 2.1 and 1.08. *)
Definition short_priced_opportunity : opportunity :=
  {|
    event_id := "e1"; market_type := "h2h"; profit_percentage := 5;
    total_stake := 1000; expected_profit := 50; bookmaker_stakes := [];
    bookmaker_odds :=
      [("bet365", [("home", 21 # 10)]); ("pinnacle", [("away", 108 # 100)])]%string;
    risk_score := 5; expires_at := mk_datetime 0 false
  |}.

(** *** Sample inputs in double precision *)

(** A decimal price is the double nearest to it: the quotient of two
    integers that are doubles themselves. *)
Definition default_settings : Run.ArbitrageDetector float :=
  Run.mk_ArbitrageDetector (N := float) 2%float 10%float (25 / 100)%float.

(** [MIN_ARBITRAGE_PERCENTAGE] set to 0. *)
Definition no_minimum : Run.ArbitrageDetector float :=
  Run.mk_ArbitrageDetector (N := float) 0%float 10%float (25 / 100)%float.

Definition runners (price : float) : Dict.t float :=
  [("r1", price); ("r2", price); ("r3", price); ("r4", price); ("r5", price);
   ("r6", price)]%string.

(** An outright market of six runners, each best priced at 6.0: the implied
    probabilities sum to exactly 1. *)
Definition fair_book : Dict.t (Run.market_entry float) :=
  [("bet365", Run.mk_market_entry (N := float) (runners 6%float) (mk_datetime 0 false));
   ("pinnacle",
    Run.mk_market_entry (N := float) (runners (55 / 10)%float) (mk_datetime 0 false))
  ]%string.

(** Scenario A in double precision: best prices 2.1 and 2.1. *)
Definition scenario_a_book : Dict.t (Run.market_entry float) :=
  [("bet365",
    Run.mk_market_entry (N := float)
      [("home", (21 / 10)%float); ("away", 2%float)]%string (mk_datetime 0 false));
   ("pinnacle",
    Run.mk_market_entry (N := float)
      [("home", 2%float); ("away", (21 / 10)%float)]%string (mk_datetime 0 false))
  ]%string.

(** Scenario B in double precision: best prices 2.5, 3.2 and 3.25. *)
Definition overround_book : Dict.t (Run.market_entry float) :=
  [("bet365",
    Run.mk_market_entry (N := float)
      [("home", (25 / 10)%float); ("draw", 3%float); ("away", 3%float)]%string
      (mk_datetime 0 false));
   ("pinnacle",
    Run.mk_market_entry (N := float)
      [("home", (24 / 10)%float); ("draw", (32 / 10)%float);
       ("away", (31 / 10)%float)]%string
      (mk_datetime 0 false));
   ("betfair",
    Run.mk_market_entry (N := float)
      [("home", (24 / 10)%float); ("draw", 3%float); ("away", (325 / 100)%float)]%string
      (mk_datetime 0 false))
  ]%string.

(** Best prices 1.53 and 3.06. *)
Definition threshold_book : Dict.t (Run.market_entry float) :=
  [("bet365",
    Run.mk_market_entry (N := float)
      [("home", (153 / 100)%float); ("away", 3%float)]%string (mk_datetime 0 false));
   ("pinnacle",
    Run.mk_market_entry (N := float)
      [("home", (15 / 10)%float); ("away", (306 / 100)%float)]%string
      (mk_datetime 0 false))
  ]%string.

(** The opportunity computed in double precision for Scenario A at instant 0. *)
Definition scenario_a_computed : Run.opportunity float :=
  Run.mk_opportunity (N := float)
    "e1" "h2h" 5%float 1000%float 50%float
    [("bet365", [("home", 500%float)]); ("pinnacle", [("away", 500%float)])]%string
    [("bet365", [("home", (21 / 10)%float)]);
     ("pinnacle", [("away", (21 / 10)%float)])]%string
    6 (mk_datetime 900000000 false).

(** * Properties *)

(** ** Basic facts on numbers, dictionaries and sets *)

Lemma Qltb_lt (x y : Q) : Qltb x y = true <-> x < y.
Proof.
  unfold Qltb. rewrite Qlt_alt.
  destruct (x ?= y); split; intro H; congruence.
Qed.

Lemma Qltb_ge (x y : Q) : Qltb x y = false <-> y <= x.
Proof.
  split; intro H.
  - apply Qnot_lt_le. intro L. apply Qltb_lt in L. congruence.
  - destruct (Qltb x y) eqn:E; [|reflexivity].
    apply Qltb_lt in E. exfalso. apply (Qlt_not_le _ _ E H).
Qed.

Lemma py_div_some (x y q : Q) : py_div x y = Some q -> ~ y == 0 /\ q = x / y.
Proof.
  unfold py_div. destruct (Qeq_bool y 0) eqn:E; [discriminate|].
  intro H. injection H as <-. split; [|reflexivity].
  intro A. apply Qeq_bool_iff in A. congruence.
Qed.

Lemma py_div_nonzero (x y : Q) : ~ y == 0 -> py_div x y = Some (x / y).
Proof.
  intro H. unfold py_div. destruct (Qeq_bool y 0) eqn:E; [|reflexivity].
  apply Qeq_bool_iff in E. contradiction.
Qed.

Lemma bind_some {A B : Type} (m : option A) (k : A -> option B) (b : B) :
  bind m k = Some b -> exists a, m = Some a /\ k a = Some b.
Proof. destruct m as [a|]; simpl; [eauto | discriminate]. Qed.

(** Inversion of a chain of binds found in a hypothesis. *)
Ltac bind_inv H :=
  let a := fresh "v" in
  let E := fresh "E" in
  apply bind_some in H; destruct H as (a & E & H).

Module DictFacts.

Lemma get_none_not_in {V : Type} (d : Dict.t V) (k : string) :
  Dict.get d k = None <-> ~ In k (Dict.keys d).
Proof.
  induction d as [|[k' v] r IH]; simpl.
  - tauto.
  - destruct (String.eqb k' k) eqn:E.
    + apply String.eqb_eq in E. subst. split; [discriminate | tauto].
    + apply String.eqb_neq in E. rewrite IH. tauto.
Qed.

Lemma get_some_in {V : Type} (d : Dict.t V) (k : string) (v : V) :
  Dict.get d k = Some v -> In (k, v) d.
Proof.
  induction d as [|[k' v'] r IH]; simpl; [discriminate|].
  destruct (String.eqb k' k) eqn:E.
  - apply String.eqb_eq in E. subst. intro H. injection H as ->. now left.
  - intro H. right. now apply IH.
Qed.

Lemma set_fresh {V : Type} (d : Dict.t V) (k : string) (v : V) :
  ~ In k (Dict.keys d) -> Dict.set d k v = d ++ [(k, v)].
Proof.
  induction d as [|[k' v'] r IH]; simpl; intro H; [reflexivity|].
  destruct (String.eqb k' k) eqn:E.
  - apply String.eqb_eq in E. tauto.
  - f_equal. apply IH. tauto.
Qed.

Lemma keys_set {V : Type} (d : Dict.t V) (k : string) (v : V) :
  Dict.keys (Dict.set d k v) =
  if Dict.mem d k then Dict.keys d else Dict.keys d ++ [k].
Proof.
  unfold Dict.mem.
  induction d as [|[k' v'] r IH]; simpl; [reflexivity|].
  destruct (String.eqb k' k) eqn:E; simpl; [reflexivity|].
  rewrite IH. now destruct (Dict.get r k).
Qed.

Lemma get_set_same {V : Type} (d : Dict.t V) (k : string) (v : V) :
  Dict.get (Dict.set d k v) k = Some v.
Proof.
  induction d as [|[k' v'] r IH]; simpl.
  - now rewrite String.eqb_refl.
  - destruct (String.eqb k' k) eqn:E; simpl; rewrite E; auto.
Qed.

Lemma get_set_other {V : Type} (d : Dict.t V) (k k0 : string) (v : V) :
  k <> k0 -> Dict.get (Dict.set d k v) k0 = Dict.get d k0.
Proof.
  intro N. induction d as [|[k' v'] r IH]; simpl.
  - apply String.eqb_neq in N. now rewrite N.
  - destruct (String.eqb k' k) eqn:E; simpl.
    + apply String.eqb_eq in E. subst k'.
      apply String.eqb_neq in N. now rewrite N.
    + now rewrite IH.
Qed.

Lemma mem_true_in {V : Type} (d : Dict.t V) (k : string) :
  Dict.mem d k = true <-> In k (Dict.keys d).
Proof.
  unfold Dict.mem. destruct (Dict.get d k) eqn:E.
  - split; [|reflexivity]. intros _.
    apply get_some_in in E. change k with (fst (k, v)). now apply in_map.
  - apply get_none_not_in in E. split; [discriminate | tauto].
Qed.

Lemma mem_false_not_in {V : Type} (d : Dict.t V) (k : string) :
  Dict.mem d k = false <-> ~ In k (Dict.keys d).
Proof.
  rewrite <- mem_true_in. destruct (Dict.mem d k); split; congruence.
Qed.

End DictFacts.

Module StrSetFacts.

Lemma mem_in (s : StrSet.t) (k : string) : StrSet.mem s k = true <-> In k s.
Proof.
  unfold StrSet.mem. rewrite existsb_exists. split.
  - intros (x & I & E). apply String.eqb_eq in E. now subst.
  - intro I. exists k. split; [assumption | apply String.eqb_refl].
Qed.

Lemma add_nodup (s : StrSet.t) (k : string) : NoDup s -> NoDup (StrSet.add s k).
Proof.
  intro N. unfold StrSet.add. destruct (StrSet.mem s k) eqn:E; [assumption|].
  apply NoDup_app; [assumption | repeat constructor; simpl; tauto |].
  intros x I [<-|[]]. apply mem_in in I. congruence.
Qed.

Lemma update_nodup (ks : list string) (s : StrSet.t) :
  NoDup s -> NoDup (StrSet.update s ks).
Proof.
  unfold StrSet.update. revert s.
  induction ks as [|k r IH]; simpl; intros s N; [assumption|].
  apply IH. now apply add_nodup.
Qed.

End StrSetFacts.

Lemma all_outcomes_nodup (market_data : Dict.t bookmaker_data) :
  NoDup (all_outcomes_of market_data).
Proof.
  unfold all_outcomes_of.
  assert (G : forall l s, NoDup s ->
            NoDup (fold_left
                     (fun s bd => StrSet.update s (Dict.keys (bd_odds bd))) l s)).
  { induction l as [|bd r IH]; simpl; intros s N; [assumption|].
    apply IH. now apply StrSetFacts.update_nodup. }
  apply G. constructor.
Qed.

(** ** The best price of an outcome *)

Lemma best_for_outcome_fold (market_data : Dict.t bookmaker_data) (outcome : string) :
  best_for_outcome market_data outcome =
  fold_left (best_step outcome) market_data (0, None).
Proof. reflexivity. Qed.

(** The inner loop from any starting state: either nothing beat the starting
    price, or the result is the earliest entry of the strictly greatest
    price. *)
Lemma best_fold_spec (outcome : string) (l : Dict.t bookmaker_data) :
  forall (a : Q) (ob : option string),
    (fold_left (best_step outcome) l (a, ob) = (a, ob)
     /\ Forall (fun item => price_of (snd item) outcome <= a) l)
    \/ (exists pre b bd post,
          l = pre ++ (b, bd) :: post
          /\ fold_left (best_step outcome) l (a, ob) = (price_of bd outcome, Some b)
          /\ a < price_of bd outcome
          /\ Forall (fun item => price_of (snd item) outcome < price_of bd outcome) pre
          /\ Forall (fun item => price_of (snd item) outcome <= price_of bd outcome) post).
Proof.
  induction l as [|[b0 bd0] l IH]; intros a ob.
  - left. split; [reflexivity | constructor].
  - change (fold_left (best_step outcome) ((b0, bd0) :: l) (a, ob))
      with (fold_left (best_step outcome) l
              (if Qltb a (price_of bd0 outcome)
               then (price_of bd0 outcome, Some b0) else (a, ob))).
    destruct (Qltb a (price_of bd0 outcome)) eqn:E.
    + apply Qltb_lt in E. right.
      destruct (IH (price_of bd0 outcome) (Some b0))
        as [[R F] | (pre & b & bd & post & L & R & A & Fp & Fq)].
      * exists [], b0, bd0, l. simpl.
        split; [reflexivity|]. split; [exact R|]. split; [exact E|].
        split; [constructor | exact F].
      * exists ((b0, bd0) :: pre), b, bd, post. subst l. simpl.
        split; [reflexivity|]. split; [exact R|].
        split; [eapply Qlt_trans; eassumption|].
        split; [constructor; assumption | exact Fq].
    + apply Qltb_ge in E.
      destruct (IH a ob) as [[R F] | (pre & b & bd & post & L & R & A & Fp & Fq)].
      * left. split; [exact R | constructor; assumption].
      * right. exists ((b0, bd0) :: pre), b, bd, post. subst l. simpl.
        split; [reflexivity|]. split; [exact R|]. split; [exact A|].
        split; [|exact Fq].
        constructor; [|assumption]. simpl.
        eapply Qle_lt_trans; eassumption.
Qed.

(** A positive best price comes with its bookmaker. *)
Lemma best_for_outcome_assigned (market_data : Dict.t bookmaker_data)
    (outcome : string) :
  0 < best_price market_data outcome ->
  exists b, snd (best_for_outcome market_data outcome) = Some b.
Proof.
  unfold best_price. rewrite best_for_outcome_fold. intro P.
  destruct (best_fold_spec outcome market_data 0 None)
    as [[R _] | (pre & b & bd & post & _ & R & _)]; simpl in R; rewrite R in *.
  - simpl in P. exfalso. apply (Qlt_irrefl _ P).
  - exists b. reflexivity.
Qed.

Lemma find_best_odds_fold (market_data : Dict.t bookmaker_data) (os : StrSet.t) :
  find_best_odds market_data os = fold_left (find_step market_data) os ([], []).
Proof. reflexivity. Qed.

Lemma find_fold_best_odds (market_data : Dict.t bookmaker_data) (os : list string) :
  forall acc,
    NoDup os ->
    (forall o, In o os -> ~ In o (Dict.keys (fst acc))) ->
    fst (fold_left (find_step market_data) os acc) =
    fst acc ++ map (fun o => (o, best_price market_data o))
                 (filter (positive_best market_data) os).
Proof.
  induction os as [|o r IH]; intros acc N F; simpl.
  - now rewrite app_nil_r.
  - inversion N as [|? ? No Nr]; subst.
    assert (Fo : ~ In o (Dict.keys (fst acc))) by (apply F; now left).
    unfold find_step at 2, positive_best. fold (best_price market_data o).
    destruct (Qltb 0 (best_price market_data o)) eqn:E.
    + destruct (best_for_outcome_assigned market_data o) as [b B];
        [now apply Qltb_lt|].
      rewrite B. rewrite IH; [| assumption |]; simpl.
      * rewrite DictFacts.set_fresh by assumption.
        now rewrite <- app_assoc.
      * intros o' I. rewrite DictFacts.set_fresh by assumption.
        unfold Dict.keys. rewrite map_app, in_app_iff. simpl.
        intros [A | [A | []]].
        -- apply (F o'); [now right | assumption].
        -- subst o'. contradiction.
    + apply IH; auto. intros o' I. apply F. now right.
Qed.

Lemma find_fold_best_bookmakers (market_data : Dict.t bookmaker_data)
    (os : list string) :
  forall acc o b,
    Dict.get (snd (fold_left (find_step market_data) os acc)) o = Some b ->
    Dict.get (snd acc) o = Some b
    \/ snd (best_for_outcome market_data o) = Some b.
Proof.
  induction os as [|o1 r IH]; intros acc o b; simpl; [tauto|].
  intro G. apply IH in G. destruct G as [G | G]; [|now right].
  unfold find_step in G.
  destruct (Qltb 0 (fst (best_for_outcome market_data o1))); [|now left].
  destruct (snd (best_for_outcome market_data o1)) as [b1|] eqn:B; [|now left].
  simpl in G. destruct (string_dec o1 o) as [->|Ne].
  - rewrite DictFacts.get_set_same in G. right. congruence.
  - rewrite DictFacts.get_set_other in G by assumption. now left.
Qed.

Lemma filter_length_all {A : Type} (f : A -> bool) (l : list A) :
  List.length (filter f l) = List.length l -> filter f l = l.
Proof.
  induction l as [|x r IH]; simpl; [reflexivity|].
  destruct (f x) eqn:E; simpl; intro H.
  - f_equal. apply IH. lia.
  - pose proof (filter_length_le f r). lia.
Qed.

Lemma filter_all_forall {A : Type} (f : A -> bool) (l : list A) :
  filter f l = l -> forall x, In x l -> f x = true.
Proof.
  intros H x I. rewrite <- H in I. now apply filter_In in I.
Qed.

(** ** Sums and rounding *)

Lemma fold_plus_acc (l : list Q) (a : Q) :
  fold_left Qplus l a == a + py_sum l.
Proof.
  unfold py_sum. revert a.
  induction l as [|x r IH]; intro a; simpl.
  - ring.
  - rewrite IH. rewrite (IH (0 + x)). ring.
Qed.

Lemma py_sum_cons (x : Q) (l : list Q) : py_sum (x :: l) == x + py_sum l.
Proof.
  unfold py_sum at 1. simpl. rewrite fold_plus_acc. ring.
Qed.

Lemma py_sum_app (l1 l2 : list Q) : py_sum (l1 ++ l2) == py_sum l1 + py_sum l2.
Proof.
  induction l1 as [|x r IH]; simpl.
  - unfold py_sum at 2. simpl. ring.
  - rewrite !py_sum_cons, IH. ring.
Qed.

Lemma py_sum_perm (l1 l2 : list Q) :
  Permutation l1 l2 -> py_sum l1 == py_sum l2.
Proof.
  induction 1 as [| x l l' _ IH | x y l | l l' l'' _ IH1 _ IH2].
  - reflexivity.
  - rewrite !py_sum_cons, IH. reflexivity.
  - rewrite !py_sum_cons. ring.
  - now rewrite IH1.
Qed.

Lemma py_sum_scale {A : Type} (f : A -> Q) (t c : Q) (l : list A) :
  py_sum (map (fun x => f x / t * c) l) == py_sum (map f l) / t * c.
Proof.
  induction l as [|x r IH]; simpl.
  - unfold py_sum. simpl. unfold Qdiv. ring.
  - rewrite !py_sum_cons, IH. unfold Qdiv. ring.
Qed.

Lemma py_sum_pos (l : list Q) :
  l <> [] -> Forall (fun x => 0 < x) l -> 0 < py_sum l.
Proof.
  intros N F. destruct l as [|x r]; [congruence|].
  clear N. revert x F.
  induction r as [|y r IH]; intros x F.
  - inversion F; subst. rewrite py_sum_cons. unfold py_sum. simpl. lra.
  - inversion F as [|? ? Px Fr]; subst.
    rewrite py_sum_cons. specialize (IH y Fr). lra.
Qed.

Lemma round_half_even_comp (q q' : Q) :
  q == q' -> round_half_even q = round_half_even q'.
Proof.
  intro E. unfold round_half_even.
  rewrite (Qfloor_comp _ _ E).
  assert (C : (q - inject_Z (Qfloor q') ?= 1 # 2) = (q' - inject_Z (Qfloor q') ?= 1 # 2)).
  { apply Qcompare_comp; [rewrite E|]; reflexivity. }
  now rewrite C.
Qed.

Lemma py_round2_comp (x y : Q) : x == y -> py_round2 x = py_round2 y.
Proof.
  intro E. unfold py_round2. f_equal.
  apply round_half_even_comp. now rewrite E.
Qed.

Lemma round_half_even_near (q : Q) :
  Qabs (inject_Z (round_half_even q) - q) <= 1 # 2.
Proof.
  unfold round_half_even.
  pose proof (Qfloor_le q) as Lo. pose proof (Qlt_floor q) as Hi.
  rewrite inject_Z_plus in Hi. change (inject_Z 1) with 1 in Hi.
  destruct (q - inject_Z (Qfloor q) ?= 1 # 2) eqn:C.
  - apply Qeq_alt in C.
    destruct (Z.even (Qfloor q)); apply Qabs_Qle_condition;
      try (rewrite inject_Z_plus; change (inject_Z 1) with 1); split; lra.
  - apply Qlt_alt in C. apply Qabs_Qle_condition. split; lra.
  - apply Qgt_alt in C. apply Qabs_Qle_condition.
    rewrite inject_Z_plus. change (inject_Z 1) with 1. split; lra.
Qed.

Lemma py_round2_as_div (x : Q) :
  py_round2 x == inject_Z (round_half_even (x * 100)) / 100.
Proof.
  unfold py_round2. rewrite (Qmake_Qdiv _ 100). reflexivity.
Qed.

(** [round(x, 2)] moves a value by at most half a cent. *)
Lemma py_round2_near (x : Q) : Qabs (py_round2 x - x) <= 5 # 1000.
Proof.
  rewrite py_round2_as_div.
  pose proof (round_half_even_near (x * 100)) as H.
  apply Qabs_Qle_condition in H. destruct H as [H1 H2].
  set (z := inject_Z (round_half_even (x * 100))) in *.
  unfold Qdiv. change (/ 100) with (1 # 100).
  apply Qabs_Qle_condition. split; lra.
Qed.

(** ** Loops that fill a dictionary *)

(** A loop that stores one value per item under fresh, distinct keys builds
    the dictionary of those values in the order of the items. *)
Lemma for_each_set_map {A V : Type} (key : A -> string) (h : A -> V)
    (body : Dict.t V -> A -> option (Dict.t V)) :
  (forall acc x acc', body acc x = Some acc' -> acc' = Dict.set acc (key x) (h x)) ->
  forall (items : list A) (acc r : Dict.t V),
    NoDup (map key items) ->
    (forall x, In x items -> ~ In (key x) (Dict.keys acc)) ->
    for_each body items acc = Some r ->
    r = acc ++ map (fun x => (key x, h x)) items.
Proof.
  intros Hb. induction items as [|x xs IH]; intros acc r N F R; simpl in *.
  - injection R as <-. now rewrite app_nil_r.
  - bind_inv R. apply Hb in E. subst v.
    inversion N as [|? ? Nx Nxs]; subst.
    assert (Fx : ~ In (key x) (Dict.keys acc)) by (apply F; now left).
    rewrite DictFacts.set_fresh in R by assumption.
    apply IH in R; [| assumption |].
    + subst r. now rewrite <- app_assoc.
    + intros y I. unfold Dict.keys. rewrite map_app, in_app_iff. simpl.
      intros [A0 | [A0 | []]].
      * apply (F y); [now right | assumption].
      * apply Nx. rewrite A0. now apply in_map.
Qed.

Lemma implied_of_spec (best_odds implied : Dict.t Q) :
  NoDup (Dict.keys best_odds) ->
  implied_of best_odds = Some implied ->
  implied = map (fun item => (fst item, 1 / snd item)) best_odds.
Proof.
  intros N H. unfold implied_of, Dict.items in H.
  apply (for_each_set_map fst (fun item => 1 / snd item)) in H; auto.
  intros acc x acc' B. bind_inv B. injection B as <-.
  apply py_div_some in E. destruct E as [_ ->]. reflexivity.
Qed.

Lemma stakes_of_spec (implied stakes : Dict.t Q) (total total_stake : Q) :
  NoDup (Dict.keys implied) ->
  stakes_of implied total total_stake = Some stakes ->
  stakes =
  map (fun item => (fst item, py_round2 (snd item / total * total_stake))) implied.
Proof.
  intros N H. unfold stakes_of, Dict.items in H.
  apply (for_each_set_map fst
           (fun item => py_round2 (snd item / total * total_stake))) in H; auto.
  intros acc x acc' B. bind_inv B. injection B as <-.
  apply py_div_some in E. destruct E as [_ ->]. reflexivity.
Qed.

(** ** The two-level dictionaries of an opportunity *)

Lemma organize_step_puts (best_bookmakers : Dict.t string) (stakes best_odds : Dict.t Q)
    (acc acc' : Dict.t (Dict.t Q) * Dict.t (Dict.t Q)) (outcome : string) :
  organize_step best_bookmakers stakes best_odds acc outcome = Some acc' ->
  exists bookmaker stake odds,
    Dict.get best_bookmakers outcome = Some bookmaker
    /\ Dict.get stakes outcome = Some stake
    /\ Dict.get best_odds outcome = Some odds
    /\ nested_put (fst acc) (negb (Dict.mem (fst acc) bookmaker)) bookmaker outcome stake
       = Some (fst acc')
    /\ nested_put (snd acc) (negb (Dict.mem (fst acc) bookmaker)) bookmaker outcome odds
       = Some (snd acc').
Proof.
  unfold organize_step. intro H.
  bind_inv H. rename v into bookmaker.
  bind_inv H. rename v into stake.
  bind_inv H. rename v into inner_stakes.
  bind_inv H. rename v into odds.
  bind_inv H. rename v into inner_odds.
  injection H as <-.
  exists bookmaker, stake, odds. unfold nested_put.
  destruct (negb (Dict.mem (fst acc) bookmaker)); simpl in *;
    rewrite E1, E3; simpl; auto.
Qed.

Lemma legs_set_existing (d : Dict.t (Dict.t Q)) (b : string)
    (inner : Dict.t Q) (x : string * Q) :
  Dict.get d b = Some inner ->
  Permutation (legs (Dict.set d b (inner ++ [x]))) (x :: legs d).
Proof.
  unfold legs, Dict.values.
  induction d as [|[b' i'] r IH]; simpl; [discriminate|].
  destruct (String.eqb b' b) eqn:E; simpl.
  - intro H. injection H as ->. rewrite <- app_assoc. simpl.
    apply Permutation_sym, Permutation_middle.
  - intro H. specialize (IH H).
    apply Permutation_trans with (i' ++ x :: List.concat (map snd r)).
    + now apply Permutation_app_head.
    + apply Permutation_sym, Permutation_middle.
Qed.

Lemma legs_set_empty (d : Dict.t (Dict.t Q)) (b : string) :
  Dict.mem d b = false -> legs (Dict.set d b []) = legs d.
Proof.
  intro M. apply DictFacts.mem_false_not_in in M.
  rewrite DictFacts.set_fresh by assumption.
  unfold legs, Dict.values. rewrite map_app, concat_app. simpl.
  now rewrite app_nil_r.
Qed.

Lemma in_set_cases {V : Type} (d : Dict.t V) (k k' : string) (v v' : V) :
  In (k', v') (Dict.set d k v) -> (k' = k /\ v' = v) \/ In (k', v') d.
Proof.
  induction d as [|[k0 v0] r IH]; simpl.
  - intros [H | []]. left. now injection H as <- <-.
  - destruct (String.eqb k0 k) eqn:E; simpl.
    + apply String.eqb_eq in E. subst k0.
      intros [H | H]; [left; now injection H as <- <- | right; now right].
    + intros [H | H]; [right; now left|].
      apply IH in H. tauto.
Qed.

(** What one [nested_put] of a fresh outcome does. *)
Lemma nested_put_spec (d d' : Dict.t (Dict.t Q)) (b o : string) (v : Q) :
  ~ In o (map fst (legs d)) ->
  nested_put d (negb (Dict.mem d b)) b o v = Some d' ->
  Permutation (legs d') ((o, v) :: legs d)
  /\ (forall b' inner', In (b', inner') d' ->
        forall o', In o' (Dict.keys inner') ->
          (b' = b /\ o' = o) \/ exists inner, In (b', inner) d /\ In o' (Dict.keys inner)).
Proof.
  intros F H. unfold nested_put in H.
  set (d1 := if negb (Dict.mem d b) then Dict.set d b [] else d) in *.
  assert (L1 : legs d1 = legs d).
  { subst d1. destruct (Dict.mem d b) eqn:M; simpl; [reflexivity|].
    now apply legs_set_empty. }
  assert (I1 : forall b' inner', In (b', inner') d1 ->
                 inner' = [] \/ In (b', inner') d).
  { subst d1. destruct (Dict.mem d b); simpl; [tauto|].
    intros b' inner' I. apply in_set_cases in I. tauto. }
  bind_inv H. rename v0 into inner. injection H as <-.
  assert (Fi : ~ In o (Dict.keys inner)).
  { intro A. apply F. rewrite <- L1.
    apply DictFacts.get_some_in in E.
    unfold legs, Dict.values. rewrite concat_map, map_map.
    apply in_concat. exists (map fst inner). split; [|exact A].
    apply in_map_iff. exists (b, inner). split; [reflexivity | exact E]. }
  rewrite (DictFacts.set_fresh inner) by assumption.
  split.
  - rewrite <- L1. now apply legs_set_existing.
  - intros b' inner' I o' Io.
    apply in_set_cases in I. destruct I as [[-> ->] | I].
    + unfold Dict.keys in Io. rewrite map_app, in_app_iff in Io. simpl in Io.
      destruct Io as [Io | [<- | []]]; [|now left].
      right. apply DictFacts.get_some_in in E.
      destruct (I1 _ _ E) as [-> | I]; [destruct Io|].
      exists inner. split; assumption.
    + right. destruct (I1 _ _ I) as [-> | I']; [destruct Io|].
      exists inner'. split; assumption.
Qed.

Lemma nested_put_keys (d d' : Dict.t (Dict.t Q)) (fresh : bool) (b o : string) (v : Q) :
  nested_put d fresh b o v = Some d' ->
  Dict.keys d' = Dict.keys (if fresh then Dict.set d b [] else d).
Proof.
  unfold nested_put. intro H. bind_inv H. injection H as <-.
  rewrite DictFacts.keys_set.
  unfold Dict.mem. now rewrite E.
Qed.

Lemma mem_keys_eq {V W : Type} (d : Dict.t V) (d' : Dict.t W) (k : string) :
  Dict.keys d = Dict.keys d' -> Dict.mem d k = Dict.mem d' k.
Proof.
  intro K. destruct (Dict.mem d k) eqn:M; symmetry.
  - apply DictFacts.mem_true_in. rewrite <- K. now apply DictFacts.mem_true_in.
  - apply DictFacts.mem_false_not_in. rewrite <- K.
    now apply DictFacts.mem_false_not_in.
Qed.

Lemma nested_put_same_keys (d e d' e' : Dict.t (Dict.t Q)) (fresh : bool)
    (b o : string) (v w : Q) :
  Dict.keys d = Dict.keys e ->
  nested_put d fresh b o v = Some d' ->
  nested_put e fresh b o w = Some e' ->
  Dict.keys d' = Dict.keys e'.
Proof.
  intros K Hd He.
  apply nested_put_keys in Hd. apply nested_put_keys in He.
  rewrite Hd, He. destruct fresh; [|assumption].
  rewrite !DictFacts.keys_set, (mem_keys_eq d e b K), K. reflexivity.
Qed.

(** Lines 182-189: the loop lists every outcome once, under the bookmaker
    recorded for it, with its stake and with its price. *)
Lemma organize_loop_spec (best_bookmakers : Dict.t string)
    (stakes best_odds : Dict.t Q) (os : list string) :
  forall acc acc',
    for_each (organize_step best_bookmakers stakes best_odds) os acc = Some acc' ->
    Dict.keys (fst acc) = Dict.keys (snd acc) ->
    NoDup os ->
    (forall o, In o os ->
       ~ In o (map fst (legs (fst acc))) /\ ~ In o (map fst (legs (snd acc)))) ->
    Permutation (legs (fst acc'))
      (map (fun o => (o, Dict.get_default stakes o 0)) os ++ legs (fst acc))
    /\ Permutation (legs (snd acc'))
         (map (fun o => (o, Dict.get_default best_odds o 0)) os ++ legs (snd acc))
    /\ (forall b inner, In (b, inner) (snd acc') ->
          forall o, In o (Dict.keys inner) ->
            Dict.get best_bookmakers o = Some b
            \/ exists inner0, In (b, inner0) (snd acc) /\ In o (Dict.keys inner0)).
Proof.
  induction os as [|o os IH]; intros acc acc' H K N F; simpl in H.
  - injection H as <-. simpl. repeat split; try reflexivity.
    intros b inner I o Io. right. exists inner. tauto.
  - bind_inv H. rename v into acc1.
    apply organize_step_puts in E.
    destruct E as (b & stake & odds & Gb & Gs & Go & Ps & Po).
    inversion N as [|? ? No Nos]; subst.
    destruct (F o (or_introl eq_refl)) as [Fs Fo].
    pose proof (nested_put_same_keys _ _ _ _ _ _ _ _ _ K Ps Po) as K1.
    apply nested_put_spec in Ps; [|assumption].
    rewrite (mem_keys_eq (fst acc) (snd acc) b K) in Po.
    apply nested_put_spec in Po; [|assumption].
    destruct Ps as [Ps _]. destruct Po as [Po Lo].
    assert (F1 : forall o', In o' os ->
              ~ In o' (map fst (legs (fst acc1)))
              /\ ~ In o' (map fst (legs (snd acc1)))).
    { intros o' I. destruct (F o' (or_intror I)) as [A B].
      assert (Ne : o <> o') by (intro; subst; contradiction).
      split; intro X.
      - apply (Permutation_in _ (Permutation_map fst Ps)) in X.
        simpl in X. tauto.
      - apply (Permutation_in _ (Permutation_map fst Po)) in X.
        simpl in X. tauto. }
    destruct (IH acc1 acc' H K1 Nos F1) as (Qs & Qo & Lb).
    assert (Ds : Dict.get_default stakes o 0 = stake)
      by (unfold Dict.get_default; now rewrite Gs).
    assert (Do : Dict.get_default best_odds o 0 = odds)
      by (unfold Dict.get_default; now rewrite Go).
    simpl map. rewrite Ds, Do. simpl app.
    split; [|split].
    + eapply Permutation_trans; [exact Qs|].
      apply Permutation_trans
        with (map (fun o0 => (o0, Dict.get_default stakes o0 0)) os
                ++ (o, stake) :: legs (fst acc)).
      * now apply Permutation_app_head.
      * apply Permutation_sym, Permutation_middle.
    + eapply Permutation_trans; [exact Qo|].
      apply Permutation_trans
        with (map (fun o0 => (o0, Dict.get_default best_odds o0 0)) os
                ++ (o, odds) :: legs (snd acc)).
      * now apply Permutation_app_head.
      * apply Permutation_sym, Permutation_middle.
    + intros b' inner I o' Io.
      destruct (Lb b' inner I o' Io) as [G | (inner0 & I0 & Io0)]; [now left|].
      destruct (Lo b' inner0 I0 o' Io0) as [[-> ->] | X]; [now left | now right].
Qed.

(** ** What an accepted opportunity contains *)

Lemma get_map_key {V : Type} (f : string -> V) (l : list string) (o : string) :
  In o l -> Dict.get (map (fun o => (o, f o)) l) o = Some (f o).
Proof.
  induction l as [|x r IH]; simpl; [tauto|].
  destruct (String.eqb x o) eqn:E.
  - apply String.eqb_eq in E. now subst.
  - intros [A | A]; [|now apply IH].
    apply String.eqb_neq in E. congruence.
Qed.

Lemma get_default_map_key {V : Type} (f : string -> V) (l : list string) (v : V) :
  map (fun o => (o, Dict.get_default (map (fun o => (o, f o)) l) o v)) l =
  map (fun o => (o, f o)) l.
Proof.
  apply map_ext_in. intros o I. unfold Dict.get_default.
  now rewrite get_map_key.
Qed.

Lemma best_odds_complete (market_data : Dict.t bookmaker_data) (os : list string) :
  NoDup os ->
  Dict.len (fst (find_best_odds market_data os)) = List.length os ->
  fst (find_best_odds market_data os) = map (fun o => (o, best_price market_data o)) os
  /\ forall o, In o os -> 0 < best_price market_data o.
Proof.
  intros N L. rewrite find_best_odds_fold in *.
  rewrite find_fold_best_odds in *; auto. simpl in *.
  unfold Dict.len in L. rewrite length_map in L.
  apply filter_length_all in L. rewrite L. split; [reflexivity|].
  intros o I. apply Qltb_lt. apply (filter_all_forall _ _ L o I).
Qed.

Lemma calculate_arbitrage_inv (self : ArbitrageDetector) (event : Event)
    (mt : string) (market_data : Dict.t bookmaker_data) (now : Z)
    (opp : opportunity) :
  _calculate_arbitrage self event mt market_data now = Some opp ->
  let outs := all_outcomes_of market_data in
  let t := implied_total market_data in
  (2 <= List.length outs)%nat
  /\ (forall o, In o outs -> 0 < best_price market_data o)
  /\ t < 1 /\ ~ t == 0
  /\ min_profit_percentage self <= (1 - t) / t * 100
  /\ opp = {|
       event_id := event_id_of event;
       market_type := mt;
       profit_percentage := py_round2 ((1 - t) / t * 100);
       total_stake := 1000;
       expected_profit := py_round2 (1000 * ((1 - t) / t * 100 / 100));
       bookmaker_stakes := bookmaker_stakes opp;
       bookmaker_odds := bookmaker_odds opp;
       risk_score := _calculate_risk_score event market_data now;
       expires_at := dt_add (utcnow now) (minutes 15)
     |}
  /\ Permutation (legs (bookmaker_stakes opp))
       (map (fun o => (o, py_round2 (1 / best_price market_data o / t * 1000))) outs)
  /\ Permutation (legs (bookmaker_odds opp))
       (map (fun o => (o, best_price market_data o)) outs)
  /\ (forall b inner, In (b, inner) (bookmaker_odds opp) ->
        forall o, In o (Dict.keys inner) ->
          snd (best_for_outcome market_data o) = Some b).
Proof.
  intros H outs t. unfold _calculate_arbitrage in H. fold outs in H.
  pose proof (all_outcomes_nodup market_data) as N. fold outs in N.
  destruct (List.length outs <? 2)%nat eqn:L2; [discriminate|].
  apply Nat.ltb_ge in L2.
  destruct (Dict.len (fst (find_best_odds market_data outs)) =? List.length outs)%nat
    eqn:Len; simpl in H; [|discriminate].
  apply Nat.eqb_eq in Len.
  destruct (best_odds_complete market_data outs N Len) as [Bo Pos].
  set (best_bookmakers := snd (find_best_odds market_data outs)) in *.
  rewrite Bo in H.
  bind_inv H. rename v into implied.
  apply implied_of_spec in E;
    [| unfold Dict.keys; rewrite map_map; simpl; now rewrite map_id].
  rewrite map_map in E. simpl in E.
  assert (V : Dict.values implied = map (fun o => 1 / best_price market_data o) outs).
  { subst implied. unfold Dict.values. now rewrite map_map. }
  rewrite V in H.
  change (py_sum (map (fun o => 1 / best_price market_data o) outs)) with t in H.
  destruct (Qle_bool 1 t) eqn:T1; [discriminate|].
  assert (Tlt : t < 1).
  { apply Qnot_le_lt. intro A. apply Qle_bool_iff in A. congruence. }
  bind_inv H. rename v into q.
  apply py_div_some in E0. destruct E0 as [Tnz ->].
  destruct (Qltb ((1 - t) / t * 100) (min_profit_percentage self)) eqn:MP;
    [discriminate|].
  apply Qltb_ge in MP.
  bind_inv H. rename v into stakes.
  apply stakes_of_spec in E0;
    [| subst implied; unfold Dict.keys; rewrite map_map; simpl; now rewrite map_id].
  subst implied. rewrite map_map in E0. simpl in E0.
  bind_inv H. rename v into organized. injection H as <-. simpl.
  apply organize_loop_spec in E; [| reflexivity | assumption | simpl; tauto].
  destruct E as (Ps & Po & Lb). simpl in Ps, Po. rewrite app_nil_r in Ps, Po.
  rewrite E0, get_default_map_key in Ps. rewrite get_default_map_key in Po.
  repeat (split; [first [assumption | reflexivity]|]).
  intros b inner I o Io.
  destruct (Lb b inner I o Io) as [G | (inner0 & [] & _)].
  subst best_bookmakers. rewrite find_best_odds_fold in G.
  apply find_fold_best_bookmakers in G. simpl in G.
  destruct G as [G | G]; [discriminate | assumption].
Qed.

(** ** The outcome union, as the specification words it *)

Lemma update_in (ks : list string) (s : StrSet.t) (o : string) :
  In o (StrSet.update s ks) <-> In o s \/ In o ks.
Proof.
  unfold StrSet.update. revert s.
  induction ks as [|k r IH]; intro s; simpl; [tauto|].
  rewrite IH. unfold StrSet.add.
  destruct (StrSet.mem s k) eqn:M.
  - apply StrSetFacts.mem_in in M. split; [tauto|].
    intros [A | [<- | A]]; tauto.
  - rewrite in_app_iff. simpl. tauto.
Qed.

Lemma all_outcomes_in (market_data : Dict.t bookmaker_data) (o : string) :
  In o (all_outcomes_of market_data) <->
  In o (flat_map (fun item => Dict.keys (bd_odds (snd item))) market_data).
Proof.
  unfold all_outcomes_of, Dict.values.
  assert (G : forall (l : Dict.t bookmaker_data) s,
            In o (fold_left (fun s bd => StrSet.update s (Dict.keys (bd_odds bd)))
                    (map snd l) s)
            <-> In o s \/ In o (flat_map (fun item => Dict.keys (bd_odds (snd item))) l)).
  { induction l as [|x r IH]; intro s; simpl; [tauto|].
    rewrite IH, update_in, in_app_iff. tauto. }
  rewrite G. simpl. tauto.
Qed.

Lemma all_outcomes_union (market_data : Dict.t bookmaker_data) :
  Permutation (all_outcomes_of market_data) (outcome_union market_data).
Proof.
  apply NoDup_Permutation.
  - apply all_outcomes_nodup.
  - apply NoDup_nodup.
  - intro o. unfold outcome_union. rewrite nodup_In. apply all_outcomes_in.
Qed.

Lemma implied_total_union (market_data : Dict.t bookmaker_data) :
  implied_total market_data == best_price_implied_sum market_data.
Proof.
  apply py_sum_perm, Permutation_map, all_outcomes_union.
Qed.

(** The best price bounds every quoted price of the outcome. *)
Lemma best_price_upper (market_data : Dict.t bookmaker_data) (o b : string)
    (bd : bookmaker_data) :
  In (b, bd) market_data -> price_of bd o <= best_price market_data o.
Proof.
  intro I. unfold best_price. rewrite best_for_outcome_fold.
  destruct (best_fold_spec o market_data 0 None)
    as [[R F] | (pre & b1 & bd1 & post & L & R & A & Fp & Fq)]; rewrite R; simpl.
  - rewrite Forall_forall in F. apply (F (b, bd) I).
  - rewrite L in I. apply in_app_or in I. destruct I as [I | [I | I]].
    + rewrite Forall_forall in Fp. apply Qlt_le_weak, (Fp (b, bd) I).
    + injection I as <- <-. apply Qle_refl.
    + rewrite Forall_forall in Fq. apply (Fq (b, bd) I).
Qed.

(** ** C10: markets with fewer than two outcomes *)

(** C10: a market whose union of outcome names has fewer than two elements
    always yields "no opportunity", whatever its prices. *)
Theorem single_outcome_market_rejected (self : ArbitrageDetector) (event : Event)
    (mt : string) (market_data : Dict.t bookmaker_data) (now : Z) :
  (List.length (outcome_union market_data) < 2)%nat ->
  _calculate_arbitrage self event mt market_data now = None.
Proof.
  intro L.
  rewrite <- (Permutation_length (all_outcomes_union market_data)) in L.
  unfold _calculate_arbitrage.
  apply Nat.ltb_lt in L. now rewrite L.
Qed.

Lemma single_outcome_market_rejected_witness :
  best_price_implied_sum lone_outcome_market < 1
  /\ _calculate_arbitrage default_detector sample_event "h2h" lone_outcome_market 0
     = None.
Proof.
  split.
  - reflexivity.
  - apply single_outcome_market_rejected. vm_compute. lia.
Defined.

(** ** C2: the stake split *)

Lemma sum_round2_near {A : Type} (f : A -> Q) (l : list A) :
  Qabs (py_sum (map (fun x => py_round2 (f x)) l) - py_sum (map f l))
  <= (5 # 1000) * count_Q (List.length l).
Proof.
  induction l as [|x r IH].
  - vm_compute. discriminate.
  - simpl map. rewrite !py_sum_cons.
    unfold count_Q in *. simpl List.length. rewrite Nat2Z.inj_succ.
    unfold Z.succ. rewrite inject_Z_plus. change (inject_Z 1) with 1.
    pose proof (py_round2_near (f x)) as Hx.
    apply Qabs_Qle_condition in Hx. apply Qabs_Qle_condition in IH.
    apply Qabs_Qle_condition. split; lra.
Qed.

Lemma sum_round2_cents {A : Type} (f : A -> Q) (l : list A) :
  exists k : Z, py_sum (map (fun x => py_round2 (f x)) l) == inject_Z k / 100.
Proof.
  induction l as [|x r [k IH]].
  - exists 0%Z. reflexivity.
  - exists (round_half_even (f x * 100) + k)%Z.
    simpl map. rewrite py_sum_cons, IH, py_round2_as_div, inject_Z_plus.
    unfold Qdiv. ring.
Qed.

(** The exact stakes add up to the notional stake. *)
Lemma exact_stakes_sum {A : Type} (f : A -> Q) (c : Q) (l : list A) :
  ~ py_sum (map f l) == 0 ->
  py_sum (map (fun x => f x / py_sum (map f l) * c) l) == c.
Proof.
  intro N. rewrite py_sum_scale. field. exact N.
Qed.

Lemma cents_within_one (k : Z) (c : Q) :
  Qabs (inject_Z k / 100 - 1000) <= c -> c < 2 # 100 ->
  Qabs (inject_Z k / 100 - 1000) <= 1 # 100.
Proof.
  intros H C. apply Qabs_Qle_condition in H. destruct H as [H1 H2].
  unfold Qdiv in *. change (/ 100) with (1 # 100) in *.
  assert (U : (k < 100002)%Z).
  { rewrite Zlt_Qlt. change (inject_Z 100002) with 100002. lra. }
  assert (L : (99998 < k)%Z).
  { rewrite Zlt_Qlt. change (inject_Z 99998) with 99998. lra. }
  assert (U' : inject_Z k <= inject_Z 100001) by (rewrite <- Zle_Qle; lia).
  assert (L' : inject_Z 99999 <= inject_Z k) by (rewrite <- Zle_Qle; lia).
  change (inject_Z 100001) with 100001 in U'.
  change (inject_Z 99999) with 99999 in L'.
  apply Qabs_Qle_condition. split; lra.
Qed.

(** C2 (as amended): for an accepted opportunity the rounded per-outcome
    stakes add up to the notional stake up to half a cent per outcome, hence
    up to one cent when the market has at most three outcomes. *)
Theorem stakes_sum_within_rounding (self : ArbitrageDetector) (event : Event)
    (mt : string) (market_data : Dict.t bookmaker_data) (now : Z)
    (opp : opportunity) :
  _calculate_arbitrage self event mt market_data now = Some opp ->
  total_stake opp = 1000
  /\ Qabs (py_sum (all_stakes opp) - total_stake opp)
     <= (5 # 1000) * count_Q (List.length (outcome_union market_data))
  /\ ((List.length (outcome_union market_data) <= 3)%nat ->
      Qabs (py_sum (all_stakes opp) - total_stake opp) <= 1 # 100).
Proof.
  intro H. apply calculate_arbitrage_inv in H.
  destruct H as (_ & _ & _ & Tnz & _ & Eo & Ps & _).
  rewrite <- (Permutation_length (all_outcomes_union market_data)).
  set (outs := all_outcomes_of market_data) in *.
  set (t := implied_total market_data) in *.
  assert (Ts : total_stake opp = 1000) by (rewrite Eo; reflexivity).
  rewrite Ts. split; [reflexivity|].
  set (f := fun o : string => 1 / best_price market_data o / t * 1000).
  assert (S1 : py_sum (all_stakes opp) == py_sum (map (fun o => py_round2 (f o)) outs)).
  { unfold all_stakes. apply py_sum_perm.
    apply (Permutation_map snd) in Ps. rewrite map_map in Ps. exact Ps. }
  assert (S2 : py_sum (map f outs) == 1000).
  { unfold f, t, implied_total. fold outs. apply exact_stakes_sum. exact Tnz. }
  assert (B : Qabs (py_sum (all_stakes opp) - 1000)
              <= (5 # 1000) * count_Q (List.length outs)).
  { rewrite S1, <- S2. apply sum_round2_near. }
  split; [exact B|].
  intro L3.
  destruct (sum_round2_cents f outs) as [k Hk].
  rewrite S1, Hk in *.
  apply (cents_within_one k _ B).
  assert (C : count_Q (List.length outs) <= 3).
  { unfold count_Q. change 3 with (inject_Z 3). rewrite <- Zle_Qle. lia. }
  lra.
Qed.

Lemma scenario_a_accepted :
  _calculate_arbitrage default_detector sample_event "h2h" scenario_a_market 0
  = Some scenario_a_opportunity.
Proof. vm_compute. reflexivity. Qed.

Lemma stakes_sum_within_rounding_witness :
  Qabs (py_sum (all_stakes scenario_a_opportunity) - 1000) <= 1 # 100.
Proof.
  apply (stakes_sum_within_rounding default_detector sample_event "h2h"
           scenario_a_market 0 scenario_a_opportunity).
  - vm_compute. reflexivity.
  - vm_compute. lia.
Defined.

(** C2 as stated fails: six stakes of 166.67 add up to 1000.02. *)
Lemma stakes_sum_off_by_two_cents :
  exists opp,
    _calculate_arbitrage default_detector sample_event "outrights"
      six_runner_market 0 = Some opp
    /\ py_sum (all_stakes opp) == 100002 # 100
    /\ ~ Qabs (py_sum (all_stakes opp) - total_stake opp) <= 1 # 100.
Proof.
  eexists. split; [vm_compute; reflexivity|].
  split; [reflexivity|].
  vm_compute. intro H. apply H. reflexivity.
Qed.

(** ** C6: the reported profit percentage *)

Lemma recomputed_total_is_total (self : ArbitrageDetector) (event : Event)
    (mt : string) (market_data : Dict.t bookmaker_data) (now : Z)
    (opp : opportunity) :
  _calculate_arbitrage self event mt market_data now = Some opp ->
  recomputed_total_implied opp == implied_total market_data
  /\ ~ implied_total market_data == 0.
Proof.
  intro H. apply calculate_arbitrage_inv in H.
  destruct H as (_ & _ & _ & Tnz & _ & _ & _ & Po & _).
  split; [|exact Tnz].
  unfold recomputed_total_implied, implied_total. apply py_sum_perm.
  apply (Permutation_map (fun leg : string * Q => 1 / snd leg)) in Po.
  rewrite map_map in Po. exact Po.
Qed.

(** C6 (as amended): the reported profit percentage is within 0.005 of
    [(1/total_implied - 1) * 100], with [total_implied] recomputed from the
    returned odds: the field is the profit percentage rounded to two
    decimals. *)
Theorem profit_percentage_rounded (self : ArbitrageDetector) (event : Event)
    (mt : string) (market_data : Dict.t bookmaker_data) (now : Z)
    (opp : opportunity) :
  _calculate_arbitrage self event mt market_data now = Some opp ->
  Qabs (profit_percentage opp - (1 / recomputed_total_implied opp - 1) * 100)
  <= 5 # 1000.
Proof.
  intro H.
  destruct (recomputed_total_is_total _ _ _ _ _ _ H) as [R Tnz].
  apply calculate_arbitrage_inv in H.
  destruct H as (_ & _ & _ & _ & _ & Eo & _).
  assert (P : profit_percentage opp
              = py_round2 ((1 / recomputed_total_implied opp - 1) * 100)).
  { rewrite Eo. simpl. apply py_round2_comp. rewrite R. field. exact Tnz. }
  rewrite P. apply py_round2_near.
Qed.

Lemma profit_percentage_rounded_witness :
  Qabs (profit_percentage scenario_a_opportunity
        - (1 / recomputed_total_implied scenario_a_opportunity - 1) * 100)
  <= 5 # 1000.
Proof.
  apply (profit_percentage_rounded default_detector sample_event "h2h"
           scenario_a_market 0 scenario_a_opportunity).
  vm_compute. reflexivity.
Defined.

(** C6 as stated fails: the field is 7.44 while the recomputed value is
    7.4418... (exactly 320/43). *)
Lemma profit_percentage_not_exact :
  exists opp,
    _calculate_arbitrage default_detector sample_event "h2h" uneven_market 0
    = Some opp
    /\ profit_percentage opp == 744 # 100
    /\ (1 / recomputed_total_implied opp - 1) * 100 == 320 # 43
    /\ ~ profit_percentage opp == (1 / recomputed_total_implied opp - 1) * 100.
Proof.
  eexists. split; [vm_compute; reflexivity|].
  split; [reflexivity|]. split; [reflexivity|].
  vm_compute. discriminate.
Qed.

(** ** C3: which bookmaker is selected for an outcome *)

Lemma best_bookmaker_first_at_max (market_data : Dict.t bookmaker_data)
    (o b : string) :
  snd (best_for_outcome market_data o) = Some b -> first_at_max market_data o b.
Proof.
  rewrite best_for_outcome_fold. intro H.
  destruct (best_fold_spec o market_data 0 None)
    as [[R _] | (pre & b1 & bd1 & post & L & R & _ & Fp & Fq)];
    rewrite R in H; simpl in H; [discriminate|].
  injection H as ->. exists pre, bd1, post. auto.
Qed.

(** C3 (as amended): in an accepted opportunity every outcome of the market
    is listed under a bookmaker, and a bookmaker listed for an outcome is the
    first one, in the iteration order of the market mapping, among those
    quoting the maximum price for it. *)
Theorem best_bookmaker_first_in_order (self : ArbitrageDetector) (event : Event)
    (mt : string) (market_data : Dict.t bookmaker_data) (now : Z)
    (opp : opportunity) :
  _calculate_arbitrage self event mt market_data now = Some opp ->
  (forall o, In o (outcome_union market_data) -> exists b, selected_for opp o b)
  /\ (forall o b, selected_for opp o b -> first_at_max market_data o b).
Proof.
  intro H. apply calculate_arbitrage_inv in H.
  destruct H as (_ & _ & _ & _ & _ & _ & _ & Po & Lb).
  split.
  - intros o I.
    apply (Permutation_in _ (Permutation_sym (all_outcomes_union market_data))) in I.
    assert (J : In o (map fst (legs (bookmaker_odds opp)))).
    { apply (Permutation_in _ (Permutation_sym (Permutation_map fst Po))).
      rewrite map_map. simpl. now rewrite map_id. }
    unfold legs, Dict.values in J. rewrite concat_map, map_map in J.
    apply in_concat in J. destruct J as (ks & Ik & Io).
    apply in_map_iff in Ik. destruct Ik as ([b inner] & <- & Ib).
    exists b, inner. split; assumption.
  - intros o b (inner & Ib & Io).
    apply best_bookmaker_first_at_max. exact (Lb b inner Ib o Io).
Qed.

Lemma best_bookmaker_first_in_order_witness :
  first_at_max tied_market "home" "zeta".
Proof.
  apply (best_bookmaker_first_in_order default_detector sample_event "h2h"
           tied_market 0 tied_opportunity).
  - vm_compute. reflexivity.
  - exists [("home", 21 # 10)]%string. split; simpl; auto.
Defined.

(** C3 as stated fails: "home" is listed under "zeta" although "alpha"
    quotes the same maximum price and is lexicographically smaller. *)
Lemma tie_not_broken_lexicographically :
  _calculate_arbitrage default_detector sample_event "h2h" tied_market 0
  = Some tied_opportunity
  /\ selected_for tied_opportunity "home" "zeta"
  /\ ~ lexicographically_smallest_at_max tied_market "home" "zeta".
Proof.
  split; [vm_compute; reflexivity|].
  split.
  - exists [("home", 21 # 10)]%string. split; simpl; auto.
  - intro L.
    specialize (L "alpha"%string
                  (mk_bookmaker_data [("home", 21 # 10); ("away", 21 # 10)]%string
                     (mk_datetime 0 false))).
    assert (X : String.leb "zeta" "alpha" = true).
    { apply L; [simpl; auto | reflexivity]. }
    vm_compute in X. discriminate.
Qed.

(** ** C5: the risk score *)

Lemma clamp_range (x : Q) : 1 <= py_min (py_max x 1) 10 <= 10.
Proof.
  unfold py_min, py_max.
  destruct (Qltb x 1) eqn:A.
  - change (Qltb 10 1) with false. simpl. split; [apply Qle_refl | discriminate].
  - apply Qltb_ge in A.
    destruct (Qltb 10 x) eqn:B.
    + split; [discriminate | apply Qle_refl].
    + apply Qltb_ge in B. split; assumption.
Qed.

Lemma risk_signals_range (event : Event) (market_data : Dict.t bookmaker_data)
    (now : Z) (r : Q) :
  risk_signals event market_data now = Some r -> 1 <= r <= 10.
Proof.
  unfold risk_signals. intro H.
  bind_inv H. bind_inv H. injection H as <-. apply clamp_range.
Qed.

(** The scorer raises exactly when the event's start time or a snapshot
    timestamp carries a time zone, which cannot be subtracted from the naive
    [utcnow()]. *)
Lemma risk_signals_raises (event : Event) (market_data : Dict.t bookmaker_data)
    (now : Z) :
  risk_signals event market_data now = None <->
  tzaware (commence_time event) = true
  \/ Exists (fun bd => tzaware (bd_timestamp bd) = true) (Dict.values market_data).
Proof.
  unfold risk_signals.
  assert (G : forall l a,
            for_each
              (fun oldest bd =>
                 age <- dt_sub (utcnow now) (bd_timestamp bd) ;;
                 Some (py_max oldest (total_seconds age / 60))) l a = None
            <-> Exists (fun bd => tzaware (bd_timestamp bd) = true) l).
  { induction l as [|bd r IH]; intro a; simpl.
    - split; [discriminate | intro E; inversion E].
    - unfold dt_sub at 1. simpl.
      destruct (tzaware (bd_timestamp bd)) eqn:T; simpl.
      + split; [intros _; now left | reflexivity].
      + rewrite IH. split; [now right|].
        intro E. inversion E; subst; [congruence | assumption]. }
  unfold dt_sub at 1. simpl.
  destruct (tzaware (commence_time event)) eqn:T; simpl.
  - split; [now left | reflexivity].
  - match goal with
    | |- context [for_each ?f ?l ?a] =>
        specialize (G l a); destruct (for_each f l a) eqn:F
    end; simpl.
    + split; [discriminate|]. intros [A | A]; [discriminate|].
      apply G in A. discriminate.
    + split; [|reflexivity]. intros _. right. now apply G.
Qed.

(** C5: the risk score lies in [1, 10] for every input, and it is exactly
    the base score 5.0 whenever computing a sub-signal raises. *)
Theorem risk_score_bounded (event : Event) (market_data : Dict.t bookmaker_data)
    (now : Z) :
  1 <= _calculate_risk_score event market_data now <= 10
  /\ (risk_signals event market_data now = None ->
      _calculate_risk_score event market_data now = 5).
Proof.
  unfold _calculate_risk_score.
  destruct (risk_signals event market_data now) as [r|] eqn:R.
  - split; [now apply (risk_signals_range event market_data now) | discriminate].
  - split; [split; discriminate | reflexivity].
Qed.

Lemma risk_score_bounded_witness :
  risk_signals aware_event [] 0 = None
  /\ _calculate_risk_score aware_event [] 0 = 5.
Proof.
  assert (H : risk_signals aware_event [] 0 = None) by reflexivity.
  split; [exact H|].
  apply (risk_score_bounded aware_event [] 0). exact H.
Defined.

(** Extreme inputs: a started event, no bookmaker, a volatile sport. *)
Example risk_score_started_event :
  _calculate_risk_score
    (mk_Event "e3" "tennis" (mk_datetime (- hours 5) false) "upcoming") [] 0
  == 75 # 10.
Proof. reflexivity. Qed.

(** The raw score 11.5 is clamped to 10. *)
Example risk_score_clamped :
  _calculate_risk_score
    (mk_Event "e4" "tennis" (mk_datetime 0 false) "upcoming")
    [("a", mk_bookmaker_data [] (mk_datetime (- minutes 45) false));
     ("b", mk_bookmaker_data [] (mk_datetime 0 false))]%string 0
  == 10.
Proof. reflexivity. Qed.

(** ** C4: the probability assumed by the Kelly allocator *)

(** C4 (as amended): for every leg with non-zero odds the assumed true
    probability is [(1/odds) * 1.05] when that product is at most 1, and 0.95
    when it exceeds 1; it is therefore at most 1. *)
Theorem kelly_true_prob_capped (odds : Q) :
  ~ odds == 0 ->
  exists p,
    kelly_true_prob odds = Some p
    /\ p <= 1
    /\ (1 / odds * (105 # 100) <= 1 -> p = 1 / odds * (105 # 100))
    /\ (1 < 1 / odds * (105 # 100) -> p = 95 # 100).
Proof.
  intro N. unfold kelly_true_prob. rewrite (py_div_nonzero 1 odds N). simpl.
  eexists. split; [reflexivity|].
  destruct (Qltb 1 (1 / odds * (105 # 100))) eqn:E.
  - apply Qltb_lt in E. split; [discriminate|]. split; [|reflexivity].
    intro A. exfalso. apply (Qlt_not_le _ _ E A).
  - apply Qltb_ge in E. split; [exact E|]. split; [reflexivity|].
    intro A. exfalso. apply (Qlt_not_le _ _ A E).
Qed.

Lemma kelly_true_prob_capped_witness :
  exists p, kelly_true_prob 2 = Some p /\ p <= 1.
Proof.
  destruct (kelly_true_prob_capped 2) as (p & H & L & _).
  - discriminate.
  - exists p. split; assumption.
Defined.

(** C4 as stated fails: at odds 1.08 the assumed probability is
    1.05/1.08 = 0.9722..., above 0.95, and at odds 1.05 it is 1. *)
Lemma kelly_true_prob_above_095 :
  (exists p, kelly_true_prob (108 # 100) = Some p /\ p == 35 # 36 /\ ~ p <= 95 # 100)
  /\ (exists p, kelly_true_prob (105 # 100) = Some p /\ p == 1).
Proof.
  split; eexists; (split; [vm_compute; reflexivity|]).
  - split; [reflexivity|]. vm_compute. intro H. apply H. reflexivity.
  - reflexivity.
Qed.

(** The leg of the counterexample is really processed with that probability:
    with the default settings and a bankroll of 10000 it is staked. *)
Example kelly_leg_at_108 :
  exists stake,
    Dict.get
      (kelly_stakes
         (calculate_kelly_stakes default_detector
            {| event_id := "e1"; market_type := "h2h"; profit_percentage := 5;
               total_stake := 1000; expected_profit := 50;
               bookmaker_stakes := [];
               bookmaker_odds := [("bet365", [("home", 108 # 100)])]%string;
               risk_score := 5; expires_at := mk_datetime 0 false |}
            10000))
      "bet365_home" = Some stake
    /\ stake == 15625 # 100.
Proof. eexists. split; [vm_compute; reflexivity | reflexivity]. Qed.

(** ** C9: the cleanup sweep *)

Lemma status_in_live (s : string) :
  status_in live_statuses s = true <->
  s = "detected"%string \/ s = "analyzed"%string.
Proof.
  unfold status_in, live_statuses. simpl.
  rewrite !orb_true_iff, !String.eqb_eq. intuition discriminate.
Qed.

Lemma is_expired_due (now : Z) (row : ArbitrageOpportunity) :
  is_expired now row = true <-> due now row.
Proof.
  unfold is_expired, due. destruct (row_expires_at row) as [e|].
  - rewrite andb_true_iff, Z.leb_le, status_in_live. split.
    + intros [A B]. split; [exists e; auto | assumption].
    + intros [(e' & E & A) B]. injection E as <-. auto.
  - split; [discriminate|]. intros [(e & E & _) _]. discriminate.
Qed.

(** C9: when the database does not fail, the sweep changes nothing but the
    status of the rows; the status becomes "expired" exactly for the rows that
    are due, and every other row, "executed" ones included, is left as it
    was. *)
Theorem cleanup_expires_exactly_due (db : Session)
    (table : list ArbitrageOpportunity) (now : Z) :
  db_raises db = false ->
  Forall2
    (fun old new =>
       same_but_status old new
       /\ (due now old -> row_status new = "expired"%string)
       /\ (~ due now old -> new = old)
       /\ (row_status old = "executed"%string -> new = old))
    table (_cleanup_expired_opportunities db table now).
Proof.
  intro Ok. unfold _cleanup_expired_opportunities. rewrite Ok.
  unfold update_expired.
  induction table as [|row rest IH]; simpl; constructor; [|exact IH].
  destruct (is_expired now row) eqn:E.
  - apply is_expired_due in E.
    split; [unfold same_but_status; simpl; tauto|].
    split; [reflexivity|].
    split; [tauto|].
    intro X. destruct E as [_ [S | S]]; rewrite S in X; discriminate.
  - assert (N : ~ due now row).
    { intro D. apply is_expired_due in D. congruence. }
    split; [unfold same_but_status; tauto|].
    split; [tauto|]. auto.
Qed.

(** Scenario D: a "detected" row past its expiry next to an "executed" one. *)
Lemma cleanup_expires_exactly_due_witness :
  _cleanup_expired_opportunities (mk_Session true false)
    [sample_row "detected" 10; sample_row "executed" 10] 20
  = [sample_row "expired" 10; sample_row "executed" 10]
  /\ Forall2
       (fun old new =>
          same_but_status old new
          /\ (due 20 old -> row_status new = "expired"%string)
          /\ (~ due 20 old -> new = old)
          /\ (row_status old = "executed"%string -> new = old))
       [sample_row "detected" 10; sample_row "executed" 10]
       (_cleanup_expired_opportunities (mk_Session true false)
          [sample_row "detected" 10; sample_row "executed" 10] 20).
Proof.
  split; [reflexivity|].
  apply cleanup_expires_exactly_due. reflexivity.
Defined.

(** ** C7: suppression of duplicates *)

Lemma similar_exists_key (now : Z) (o1 o2 : opportunity) (row : ArbitrageOpportunity) :
  event_id o1 = event_id o2 -> market_type o1 = market_type o2 ->
  similar_exists now o1 row = similar_exists now o2 row.
Proof.
  intros E M. unfold similar_exists. now rewrite E, M.
Qed.

Lemma filter_nil_not_in {A : Type} (f : A -> bool) (l : list A) (x : A) :
  filter f l = [] -> In x l -> f x = false.
Proof.
  intros H I. destruct (f x) eqn:E; [|reflexivity].
  assert (J : In x (filter f l)) by (apply filter_In; auto).
  rewrite H in J. destruct J.
Qed.

(** The loop only ever adds rows of candidates without a similar live row in
    the table. *)
Lemma store_loop_spec (db : Session) (table : list ArbitrageOpportunity) (now : Z)
    (opportunities : list opportunity) :
  forall pending pending',
    for_each (store_step db table now) opportunities pending = Some pending' ->
    exists added,
      pending' = pending ++ added
      /\ Forall
           (fun r => exists opp,
                In opp opportunities /\ r = new_row now opp
                /\ filter (similar_exists now opp) table = [])
           added.
Proof.
  induction opportunities as [|opp rest IH]; intros pending pending' H; simpl in H.
  - injection H as <-. exists []. split; [now rewrite app_nil_r | constructor].
  - bind_inv H. rename v into pending1.
    unfold store_step in E. bind_inv E. rename v into existing.
    apply IH in H. destruct H as (added & -> & F).
    assert (F' : Forall
                   (fun r => exists opp0,
                        In opp0 (opp :: rest) /\ r = new_row now opp0
                        /\ filter (similar_exists now opp0) table = [])
                   added).
    { eapply Forall_impl; [|exact F].
      intros r (opp0 & I & R & N). exists opp0. simpl. auto. }
    destruct existing as [row|].
    + injection E as <-. exists added. auto.
    + injection E as <-.
      exists (new_row now opp :: added). split; [now rewrite <- app_assoc|].
      constructor; [|exact F'].
      exists opp. split; [now left|]. split; [reflexivity|].
      unfold scalar_one_or_none in E0.
      destruct (autoflush db).
      * rewrite filter_app in E0.
        destruct (filter (similar_exists now opp) table) as [|r0 l0];
          [reflexivity|].
        simpl in E0. destruct (l0 ++ filter (similar_exists now opp) pending);
          discriminate.
      * destruct (filter (similar_exists now opp) table) as [|r0 [|r1 l0]];
          [reflexivity | discriminate | discriminate].
Qed.

(** With a session that autoflushes, the rows added by one call are for
    pairwise distinct (event, market) pairs. *)
Lemma store_loop_distinct (db : Session) (table : list ArbitrageOpportunity)
    (now : Z) (opportunities : list opportunity) :
  autoflush db = true ->
  forall pending pending',
    Forall (fun r => exists opp, r = new_row now opp) pending ->
    NoDup (map row_key pending) ->
    for_each (store_step db table now) opportunities pending = Some pending' ->
    NoDup (map row_key pending').
Proof.
  intro A.
  induction opportunities as [|opp rest IH]; intros pending pending' F N H;
    simpl in H.
  - now injection H as <-.
  - bind_inv H. rename v into pending1.
    unfold store_step in E. rewrite A in E. bind_inv E. rename v into existing.
    destruct existing as [row|]; injection E as <-; [now apply (IH pending)|].
    apply (IH (pending ++ [new_row now opp])); [| |exact H].
    + apply Forall_app. split; [exact F|]. constructor; [|constructor]. now exists opp.
    + assert (Z0 : filter (similar_exists now opp) (table ++ pending) = []).
      { destruct (filter (similar_exists now opp) (table ++ pending)) as [|r0 [|r1 l]];
          [reflexivity | discriminate | discriminate]. }
      rewrite map_app. apply NoDup_app; [exact N | repeat constructor; simpl; tauto |].
      intros k Ik [<- | []].
      apply in_map_iff in Ik. destruct Ik as (r & K & Ir).
      rewrite Forall_forall in F. destruct (F r Ir) as (opp' & ->).
      assert (S : similar_exists now opp (new_row now opp') = false).
      { apply (filter_nil_not_in _ _ _ Z0). apply in_or_app. now right. }
      unfold row_key in K. simpl in K. injection K as Ke Km.
      unfold similar_exists in S. simpl in S.
      rewrite Ke, Km, !String.eqb_refl in S. simpl in S.
      apply Z.ltb_ge in S. unfold hours in S. lia.
Qed.

(** C7: the call leaves every existing row as it was; each row it inserts
    comes from a candidate of the batch; a candidate for which the table
    already holds a "detected" or "analyzed" row of the same event and market
    detected within the last hour is never inserted; and, with a session that
    autoflushes, no two inserted rows are for the same event and market. *)
Theorem duplicates_never_inserted (db : Session)
    (table : list ArbitrageOpportunity) (now : Z)
    (opportunities : list opportunity) :
  exists added,
    table_after (_store_opportunities db table now opportunities) = table ++ added
    /\ (forall r, In r added ->
          exists opp, In opp opportunities /\ r = new_row now opp)
    /\ (forall opp row,
          In row table -> similar_exists now opp row = true ->
          ~ In (new_row now opp) added)
    /\ (autoflush db = true -> NoDup (map row_key added)).
Proof.
  unfold _store_opportunities.
  destruct (if db_raises db then None
            else for_each (store_step db table now) opportunities [])
    as [pending|] eqn:R; simpl.
  - destruct (db_raises db); [discriminate|].
    pose proof R as R'.
    apply store_loop_spec in R. destruct R as (added & -> & F).
    simpl in *. exists added. split; [reflexivity|].
    rewrite Forall_forall in F. split; [|split].
    + intros r I. destruct (F r I) as (opp & Io & E & _). eauto.
    + intros opp row Ir S I.
      destruct (F _ I) as (opp' & _ & E & N).
      assert (K : similar_exists now opp row = similar_exists now opp' row).
      { apply similar_exists_key.
        - change (row_event_id (new_row now opp) = row_event_id (new_row now opp')).
          now rewrite E.
        - change (row_market_type (new_row now opp)
                  = row_market_type (new_row now opp')).
          now rewrite E. }
      rewrite (filter_nil_not_in _ _ row N Ir) in K. congruence.
    + intro A.
      apply (store_loop_distinct db table now opportunities A [] added);
        [constructor | constructor | exact R'].
  - exists []. split; [now rewrite app_nil_r|].
    split; [|split]; intros; simpl in *; try tauto. constructor.
Qed.

Lemma duplicates_never_inserted_witness :
  exists added,
    table_after
      (_store_opportunities (mk_Session true false)
         [new_row 0 scenario_a_opportunity] (minutes 10) [tied_opportunity])
    = [new_row 0 scenario_a_opportunity] ++ added
    /\ ~ In (new_row (minutes 10) tied_opportunity) added.
Proof.
  destruct (duplicates_never_inserted (mk_Session true false)
              [new_row 0 scenario_a_opportunity] (minutes 10) [tied_opportunity])
    as (added & E & _ & D & _).
  exists added. split; [exact E|].
  apply (D tied_opportunity (new_row 0 scenario_a_opportunity)).
  - simpl. auto.
  - reflexivity.
Defined.

(** A second detection of the same market 10 minutes after the first is
    discarded, while a candidate for another market is inserted. *)
Example second_detection_discarded :
  _store_opportunities (mk_Session true false)
    [new_row 0 scenario_a_opportunity] (minutes 10)
    [tied_opportunity;
     {| event_id := "e1"; market_type := "totals"; profit_percentage := 3;
        total_stake := 1000; expected_profit := 30; bookmaker_stakes := [];
        bookmaker_odds := []; risk_score := 5;
        expires_at := mk_datetime (minutes 25) false |}]
  = mk_store_outcome
      [new_row 0 scenario_a_opportunity;
       new_row (minutes 10)
         {| event_id := "e1"; market_type := "totals"; profit_percentage := 3;
            total_stake := 1000; expected_profit := 30; bookmaker_stakes := [];
            bookmaker_odds := []; risk_score := 5;
            expires_at := mk_datetime (minutes 25) false |}]
      false.
Proof. reflexivity. Qed.

(** ** C8: markets with fewer than two bookmakers *)

Lemma nodup_keys_set {V : Type} (d : Dict.t V) (k : string) (v : V) :
  NoDup (Dict.keys d) -> NoDup (Dict.keys (Dict.set d k v)).
Proof.
  intro N. rewrite DictFacts.keys_set.
  destruct (Dict.mem d k) eqn:M; [assumption|].
  apply DictFacts.mem_false_not_in in M.
  apply NoDup_app; [assumption | repeat constructor; simpl; tauto |].
  intros x I [<- | []]. contradiction.
Qed.

Lemma in_keys_set {V : Type} (d : Dict.t V) (k k' : string) (v : V) :
  In k' (Dict.keys (Dict.set d k v)) -> k' = k \/ In k' (Dict.keys d).
Proof.
  rewrite DictFacts.keys_set. destruct (Dict.mem d k); [tauto|].
  rewrite in_app_iff. simpl. intuition.
Qed.

Lemma grouped_from_mono (known known' : list OddsSnapshot)
    (odds_by_market : Dict.t (Dict.t bookmaker_data)) :
  incl known known' -> grouped_from known odds_by_market ->
  grouped_from known' odds_by_market.
Proof.
  intros I G mt md H. destruct (G mt md H) as [N B]. split; [assumption|].
  intros b Ib. destruct (B b Ib) as (s & Is & E & M).
  exists s. split; [now apply I | auto].
Qed.

Lemma group_item_grouped (known : list OddsSnapshot) (snapshot : OddsSnapshot)
    (odds_by_market : Dict.t (Dict.t bookmaker_data)) (item : string * Dict.t Q) :
  In snapshot known -> In item (odds_data snapshot) ->
  grouped_from known odds_by_market ->
  grouped_from known (group_item snapshot odds_by_market item).
Proof.
  intros Ks Ii G. unfold group_item.
  set (obm1 := if negb (Dict.mem odds_by_market (fst item))
               then Dict.set odds_by_market (fst item) [] else odds_by_market).
  assert (G1 : grouped_from known obm1).
  { subst obm1. destruct (negb (Dict.mem odds_by_market (fst item))); [|assumption].
    intros mt md H. apply in_set_cases in H. destruct H as [[_ ->] | H].
    - split; [constructor | intros b []].
    - now apply G. }
  assert (Gi : NoDup (Dict.keys (Dict.get_default obm1 (fst item) []))
               /\ forall b, In b (Dict.keys (Dict.get_default obm1 (fst item) [])) ->
                    exists s, In s known /\ snap_bookmaker s = b
                              /\ Dict.mem (odds_data s) (fst item) = true).
  { unfold Dict.get_default. destruct (Dict.get obm1 (fst item)) as [inner|] eqn:E.
    - apply DictFacts.get_some_in in E. now apply G1.
    - split; [constructor | intros b []]. }
  destruct Gi as [Ni Bi].
  intros mt md H. apply in_set_cases in H. destruct H as [[-> ->] | H].
  - split; [now apply nodup_keys_set|].
    intros b Ib. apply in_keys_set in Ib. destruct Ib as [-> | Ib]; [|now apply Bi].
    exists snapshot. split; [assumption|]. split; [reflexivity|].
    apply DictFacts.mem_true_in. unfold Dict.keys. now apply in_map.
  - now apply G1.
Qed.

Lemma group_by_market_grouped (odds_snapshots : list OddsSnapshot) :
  grouped_from odds_snapshots (group_by_market odds_snapshots).
Proof.
  unfold group_by_market.
  assert (G : forall (l known : list OddsSnapshot) obm,
            incl l known -> grouped_from known obm ->
            grouped_from known (fold_left group_snapshot l obm)).
  { induction l as [|s r IH]; intros known obm I G; simpl; [assumption|].
    apply IH; [intros x Ix; apply I; now right|].
    assert (Ks : In s known) by (apply I; now left).
    assert (H : forall items obm0,
              incl items (odds_data s) -> grouped_from known obm0 ->
              grouped_from known (fold_left (group_item s) items obm0)).
    { induction items as [|it its IHi]; intros obm0 Ii G0; simpl; [assumption|].
      apply IHi; [intros x Ix; apply Ii; now right|].
      apply group_item_grouped; auto. apply Ii. now left. }
    unfold group_snapshot. apply H; [apply incl_refl | assumption]. }
  apply G; [apply incl_refl|]. intros mt md [].
Qed.

Lemma analyze_loop_in (self : ArbitrageDetector) (event : Event) (now : Z)
    (items : list (string * Dict.t bookmaker_data)) :
  forall acc opp,
    In opp (fold_left (analyze_market self event now) items acc) ->
    In opp acc
    \/ exists item,
         In item items /\ (2 <= Dict.len (snd item))%nat
         /\ _calculate_arbitrage self event (fst item) (snd item) now = Some opp.
Proof.
  induction items as [|it its IH]; intros acc opp H; cbn [fold_left] in H;
    [now left|].
  apply IH in H. destruct H as [H | (item & I & L & C)].
  - unfold analyze_market in H.
    destruct (2 <=? Dict.len (snd it))%nat eqn:L; [|now left].
    destruct (_calculate_arbitrage self event (fst it) (snd it) now) as [a|] eqn:C;
      [|now left].
    apply in_app_or in H. destruct H as [H | [<- | []]]; [now left|].
    right. exists it. split; [now left|]. split; [now apply Nat.leb_le | assumption].
  - right. exists item. split; [now right | auto].
Qed.

(** C8: a market with fewer than two distinct contributing bookmakers among
    the event's fresh snapshots yields no opportunity; the analysis skips it
    and returns normally. *)
Theorem lone_bookmaker_market_skipped (self : ArbitrageDetector)
    (table : list OddsSnapshot) (event : Event) (now : Z) (mt : string) :
  (List.length
     (contributing_bookmakers (select_odds_snapshots table event now) mt) < 2)%nat ->
  Forall (fun opp => market_type opp <> mt)
    (_analyze_event_for_arbitrage self table event now).
Proof.
  intro L. apply Forall_forall. intros opp I M.
  unfold _analyze_event_for_arbitrage in I.
  set (snaps := select_odds_snapshots table event now) in *.
  destruct (List.length snaps <? 2)%nat; [destruct I|].
  apply analyze_loop_in in I. destruct I as [[] | ([mt' md] & Ii & L2 & C)].
  simpl in *.
  apply calculate_arbitrage_inv in C.
  destruct C as (_ & _ & _ & _ & _ & Eo & _).
  assert (Mt : market_type opp = mt') by (rewrite Eo; reflexivity).
  rewrite M in Mt. subst mt'.
  destruct (group_by_market_grouped snaps mt md Ii) as [N B].
  assert (Inc : incl (Dict.keys md) (contributing_bookmakers snaps mt)).
  { intros b Ib. destruct (B b Ib) as (s & Is & E & Ms).
    unfold contributing_bookmakers. apply nodup_In.
    rewrite <- E. apply in_map. apply filter_In. auto. }
  pose proof (NoDup_incl_length N Inc) as Le.
  unfold Dict.len in L2. unfold Dict.keys in Le. rewrite length_map in Le. lia.
Qed.

Lemma lone_bookmaker_market_skipped_witness :
  List.length (_analyze_event_for_arbitrage default_detector sample_snapshots
                 sample_event (minutes 5)) = 1%nat
  /\ Forall (fun opp => market_type opp <> "totals"%string)
       (_analyze_event_for_arbitrage default_detector sample_snapshots
          sample_event (minutes 5)).
Proof.
  split; [vm_compute; reflexivity|].
  apply lone_bookmaker_market_skipped. vm_compute. lia.
Defined.

(** * Further properties of the detector *)

(** ** The inner loop: the best price is the maximum quote *)

(** The inner loop of lines 128-135 returns the greatest price quoted for
    the outcome (or 0 when no quote is positive); a positive best price is the
    quote of the bookmaker returned with it. *)
Theorem best_price_is_maximum (market_data : Dict.t bookmaker_data) (o : string) :
  0 <= best_price market_data o
  /\ (forall b bd, In (b, bd) market_data -> price_of bd o <= best_price market_data o)
  /\ (0 < best_price market_data o ->
      exists b bd,
        In (b, bd) market_data
        /\ best_for_outcome market_data o = (price_of bd o, Some b)).
Proof.
  split; [|split].
  - unfold best_price. rewrite best_for_outcome_fold.
    destruct (best_fold_spec o market_data 0 None)
      as [[R _] | (pre & b & bd & post & _ & R & A & _)]; rewrite R; simpl.
    + apply Qle_refl.
    + now apply Qlt_le_weak.
  - intros b bd. apply best_price_upper.
  - unfold best_price. rewrite best_for_outcome_fold. intro P.
    destruct (best_fold_spec o market_data 0 None)
      as [[R _] | (pre & b & bd & post & L & R & _)]; rewrite R in *; simpl in P.
    + exfalso. apply (Qlt_irrefl _ P).
    + exists b, bd. split; [|reflexivity].
      rewrite L. apply in_or_app. right. now left.
Qed.

(** ** The payout of each leg *)

Lemma in_keyed_map {V : Type} (f : string -> V) (l : list string) (o : string) (v : V) :
  In (o, v) (map (fun o => (o, f o)) l) -> In o l /\ v = f o.
Proof.
  intro I. apply in_map_iff in I. destruct I as (o' & E & Io).
  injection E as -> <-. auto.
Qed.

(** Whatever the outcome, the stake placed on it times the price taken for
    it pays back the notional stake divided by the total implied probability,
    up to half a cent times the price (the rounding of the stake). *)
Theorem every_leg_pays_the_same (self : ArbitrageDetector) (event : Event)
    (mt : string) (market_data : Dict.t bookmaker_data) (now : Z)
    (opp : opportunity) :
  _calculate_arbitrage self event mt market_data now = Some opp ->
  forall o stake price,
    In (o, stake) (legs (bookmaker_stakes opp)) ->
    In (o, price) (legs (bookmaker_odds opp)) ->
    0 < price
    /\ Qabs (stake * price - total_stake opp / recomputed_total_implied opp)
       <= (5 # 1000) * price.
Proof.
  intros H o stake price Is Ip.
  destruct (recomputed_total_is_total _ _ _ _ _ _ H) as [R _].
  apply calculate_arbitrage_inv in H.
  destruct H as (_ & Pos & _ & Tnz & _ & Eo & Ps & Po & _).
  apply (Permutation_in _ Ps) in Is. apply (Permutation_in _ Po) in Ip.
  apply in_keyed_map in Is. apply in_keyed_map in Ip.
  destruct Is as [Io ->]. destruct Ip as [_ ->].
  specialize (Pos o Io).
  split; [exact Pos|].
  assert (Ts : total_stake opp = 1000) by (rewrite Eo; reflexivity).
  rewrite Ts, R.
  set (t := implied_total market_data) in *.
  set (p := best_price market_data o) in *.
  pose proof (py_round2_near (1 / p / t * 1000)) as N.
  apply Qabs_Qle_condition in N. destruct N as [N1 N2].
  assert (E : 1 / p / t * 1000 * p == 1000 / t).
  { field. split; [exact Tnz | lra]. }
  apply Qabs_Qle_condition. rewrite <- E. split.
  - apply Qle_minus_iff.
    setoid_replace (py_round2 (1 / p / t * 1000) * p - 1 / p / t * 1000 * p
                    + - - ((5 # 1000) * p))
      with ((py_round2 (1 / p / t * 1000) - 1 / p / t * 1000 + (5 # 1000)) * p)
      by ring.
    apply Qmult_le_0_compat; lra.
  - apply Qle_minus_iff.
    setoid_replace ((5 # 1000) * p
                    + - (py_round2 (1 / p / t * 1000) * p - 1 / p / t * 1000 * p))
      with (((5 # 1000) - (py_round2 (1 / p / t * 1000) - 1 / p / t * 1000)) * p)
      by ring.
    apply Qmult_le_0_compat; lra.
Qed.

Lemma every_leg_pays_the_same_witness :
  0 < 21 # 10
  /\ Qabs ((50000 # 100) * (21 # 10)
           - total_stake scenario_a_opportunity
             / recomputed_total_implied scenario_a_opportunity)
     <= (5 # 1000) * (21 # 10).
Proof.
  apply (every_leg_pays_the_same default_detector sample_event "h2h"
           scenario_a_market 0 scenario_a_opportunity
           scenario_a_accepted "home"%string (50000 # 100) (21 # 10)).
  - simpl. auto.
  - simpl. auto.
Defined.

(** ** More on loops and dictionaries *)

Lemma filter_all_true {A : Type} (f : A -> bool) (l : list A) :
  (forall x, In x l -> f x = true) -> filter f l = l.
Proof.
  induction l as [|x r IH]; simpl; intro H; [reflexivity|].
  rewrite (H x (or_introl eq_refl)). f_equal. apply IH. intros y I. apply H. now right.
Qed.

(** A loop that stores one value per item under fresh, distinct keys and
    whose body does not raise on these items runs to its end. *)
Lemma for_each_set_map_some {A V : Type} (key : A -> string) (h : A -> V)
    (body : Dict.t V -> A -> option (Dict.t V)) :
  forall (items : list A) (acc : Dict.t V),
    (forall acc x, In x items -> body acc x = Some (Dict.set acc (key x) (h x))) ->
    NoDup (map key items) ->
    (forall x, In x items -> ~ In (key x) (Dict.keys acc)) ->
    for_each body items acc = Some (acc ++ map (fun x => (key x, h x)) items).
Proof.
  induction items as [|x xs IH]; intros acc Hb N F; simpl.
  - now rewrite app_nil_r.
  - rewrite (Hb acc x (or_introl eq_refl)). simpl.
    inversion N as [|? ? Nx Nxs]; subst.
    assert (Fx : ~ In (key x) (Dict.keys acc)) by (apply F; now left).
    rewrite DictFacts.set_fresh by assumption.
    rewrite IH; [now rewrite <- app_assoc | | assumption |].
    + intros acc0 y I. apply Hb. now right.
    + intros y I. unfold Dict.keys. rewrite map_app, in_app_iff. simpl.
      intros [A0 | [A0 | []]].
      * apply (F y); [now right | assumption].
      * apply Nx. rewrite A0. now apply in_map.
Qed.

Lemma keyed_map_keys {V : Type} (f : string -> V) (l : list string) :
  map fst (map (fun o => (o, f o)) l) = l.
Proof. rewrite map_map. simpl. apply map_id. Qed.

Lemma mem_get_some {V : Type} (d : Dict.t V) (k : string) :
  Dict.mem d k = true -> exists v, Dict.get d k = Some v.
Proof.
  unfold Dict.mem. destruct (Dict.get d k) as [v|]; [eauto | discriminate].
Qed.

Lemma keyed_map_mem {V : Type} (f : string -> V) (l : list string) (o : string) :
  In o l -> Dict.mem (map (fun o => (o, f o)) l) o = true.
Proof.
  intro I. unfold Dict.mem. now rewrite get_map_key.
Qed.

(** ** The layout of an accepted opportunity *)

Lemma shape_keys (d : Dict.t (Dict.t Q)) : map fst (shape d) = Dict.keys d.
Proof. unfold shape. rewrite map_map. reflexivity. Qed.

Lemma shape_set (d e : Dict.t (Dict.t Q)) (b : string) (x y : Dict.t Q) :
  shape d = shape e -> Dict.keys x = Dict.keys y ->
  shape (Dict.set d b x) = shape (Dict.set e b y).
Proof.
  revert e. induction d as [|[k v] r IH]; intros [|[k' v'] r'] S K; simpl in *;
    try discriminate.
  - now rewrite K.
  - injection S as -> Kv Sr.
    destruct (String.eqb k' b); simpl.
    + now rewrite K, Sr.
    + now rewrite Kv, (IH r' Sr K).
Qed.

Lemma shape_get (d e : Dict.t (Dict.t Q)) (b : string) (x y : Dict.t Q) :
  shape d = shape e -> Dict.get d b = Some x -> Dict.get e b = Some y ->
  Dict.keys x = Dict.keys y.
Proof.
  revert e. induction d as [|[k v] r IH]; intros [|[k' v'] r'] S Gx Gy; simpl in *;
    try discriminate.
  injection S as -> Kv Sr.
  destruct (String.eqb k' b).
  - injection Gx as <-. injection Gy as <-. exact Kv.
  - exact (IH r' Sr Gx Gy).
Qed.

Lemma keys_set_eq {V W : Type} (x : Dict.t V) (y : Dict.t W) (o : string)
    (v : V) (w : W) :
  Dict.keys x = Dict.keys y ->
  Dict.keys (Dict.set x o v) = Dict.keys (Dict.set y o w).
Proof.
  intro K. rewrite !DictFacts.keys_set, (mem_keys_eq x y o K), K. reflexivity.
Qed.

Lemma nested_put_shape (d e d' e' : Dict.t (Dict.t Q)) (fresh : bool)
    (b o : string) (v w : Q) :
  shape d = shape e ->
  nested_put d fresh b o v = Some d' ->
  nested_put e fresh b o w = Some e' ->
  shape d' = shape e'.
Proof.
  intros S Hd He. unfold nested_put in *.
  assert (S1 : shape (if fresh then Dict.set d b [] else d)
               = shape (if fresh then Dict.set e b [] else e)).
  { destruct fresh; [now apply shape_set | assumption]. }
  bind_inv Hd. bind_inv He. injection Hd as <-. injection He as <-.
  apply shape_set; [exact S1|].
  apply keys_set_eq. exact (shape_get _ _ _ _ _ S1 E E0).
Qed.

Lemma organize_loop_shape (best_bookmakers : Dict.t string)
    (stakes best_odds : Dict.t Q) (os : list string) :
  forall acc acc',
    for_each (organize_step best_bookmakers stakes best_odds) os acc = Some acc' ->
    shape (fst acc) = shape (snd acc) ->
    NoDup (Dict.keys (snd acc)) ->
    shape (fst acc') = shape (snd acc') /\ NoDup (Dict.keys (snd acc')).
Proof.
  induction os as [|o r IH]; intros acc acc' H S N; simpl in H.
  - injection H as <-. auto.
  - bind_inv H. rename v into acc1.
    apply organize_step_puts in E.
    destruct E as (b & s & p & _ & _ & _ & Ps & Po).
    apply (IH acc1 acc' H).
    + exact (nested_put_shape _ _ _ _ _ _ _ _ _ S Ps Po).
    + apply nested_put_keys in Po. rewrite Po.
      destruct (negb (Dict.mem (fst acc) b)); [now apply nodup_keys_set | assumption].
Qed.

(** In an accepted opportunity each bookmaker has one entry, the stakes and
    the odds are laid out alike (same bookmakers, same outcomes under each),
    every outcome of the market is listed exactly once, and the price listed
    for an outcome is its best price. *)
Theorem accepted_opportunity_layout (self : ArbitrageDetector) (event : Event)
    (mt : string) (market_data : Dict.t bookmaker_data) (now : Z)
    (opp : opportunity) :
  _calculate_arbitrage self event mt market_data now = Some opp ->
  NoDup (Dict.keys (bookmaker_odds opp))
  /\ shape (bookmaker_stakes opp) = shape (bookmaker_odds opp)
  /\ Permutation (map fst (legs (bookmaker_odds opp))) (outcome_union market_data)
  /\ (forall o price, In (o, price) (legs (bookmaker_odds opp)) ->
        price = best_price market_data o).
Proof.
  intro H. pose proof H as H0. apply calculate_arbitrage_inv in H0.
  destruct H0 as (_ & _ & _ & _ & _ & _ & _ & Po & _).
  assert (L : NoDup (Dict.keys (bookmaker_odds opp))
              /\ shape (bookmaker_stakes opp) = shape (bookmaker_odds opp)).
  { unfold _calculate_arbitrage in H.
    destruct (List.length (all_outcomes_of market_data) <? 2)%nat; [discriminate|].
    destruct (negb _); [discriminate|].
    bind_inv H. destruct (Qle_bool 1 _); [discriminate|].
    bind_inv H. destruct (Qltb _ _); [discriminate|].
    bind_inv H. bind_inv H. injection H as <-. simpl.
    apply organize_loop_shape in E2; [tauto | reflexivity | constructor]. }
  destruct L as [N S]. repeat split; try assumption.
  - apply (Permutation_map fst) in Po. rewrite keyed_map_keys in Po.
    exact (Permutation_trans Po (all_outcomes_union market_data)).
  - intros o price I. apply (Permutation_in _ Po) in I.
    now apply in_keyed_map in I.
Qed.

Lemma accepted_opportunity_layout_witness :
  shape (bookmaker_stakes scenario_a_opportunity)
  = shape (bookmaker_odds scenario_a_opportunity).
Proof.
  apply (accepted_opportunity_layout default_detector sample_event "h2h"
           scenario_a_market 0 scenario_a_opportunity scenario_a_accepted).
Defined.

(** ** The risk score is never below 4 *)

(** The only deduction of the scorer is 1 (four bookmakers or more), so the
    score is at least 4 for every input: the lower clamp at 1 is never the
    value returned. *)
Theorem risk_score_at_least_4 (event : Event) (market_data : Dict.t bookmaker_data)
    (now : Z) :
  4 <= _calculate_risk_score event market_data now.
Proof.
  unfold _calculate_risk_score.
  destruct (risk_signals event market_data now) as [r|] eqn:R; [|discriminate].
  unfold risk_signals in R. bind_inv R. bind_inv R. injection R as <-.
  repeat match goal with
         | |- context [if ?c then _ else _] => destruct c
         end;
    vm_compute; discriminate.
Qed.

(** ** The opportunities of one event *)

Lemma group_item_keys_nodup (snapshot : OddsSnapshot)
    (odds_by_market : Dict.t (Dict.t bookmaker_data)) (item : string * Dict.t Q) :
  NoDup (Dict.keys odds_by_market) ->
  NoDup (Dict.keys (group_item snapshot odds_by_market item)).
Proof.
  intro N. unfold group_item. apply nodup_keys_set.
  destruct (negb (Dict.mem odds_by_market (fst item)));
    [now apply nodup_keys_set | assumption].
Qed.

Lemma group_by_market_keys_nodup (odds_snapshots : list OddsSnapshot) :
  NoDup (Dict.keys (group_by_market odds_snapshots)).
Proof.
  unfold group_by_market.
  assert (G : forall l obm, NoDup (Dict.keys obm) ->
            NoDup (Dict.keys (fold_left group_snapshot l obm))).
  { induction l as [|s r IH]; intros obm N; simpl; [assumption|].
    apply IH. unfold group_snapshot.
    generalize (Dict.items (odds_data s)). intro items. revert obm N.
    induction items as [|it its IHi]; intros obm N; simpl; [assumption|].
    apply IHi. now apply group_item_keys_nodup. }
  apply G. constructor.
Qed.

Lemma analyze_loop_nodup (self : ArbitrageDetector) (event : Event) (now : Z)
    (items : list (string * Dict.t bookmaker_data)) :
  forall acc,
    NoDup (map market_type acc ++ map fst items) ->
    NoDup (map market_type (fold_left (analyze_market self event now) items acc)).
Proof.
  induction items as [|it its IH]; intros acc N; simpl in *.
  - now rewrite app_nil_r in N.
  - apply IH. unfold analyze_market.
    assert (N' : NoDup (map market_type acc ++ map fst its)).
    { apply NoDup_remove_1 in N. exact N. }
    destruct (2 <=? Dict.len (snd it))%nat; [|exact N'].
    destruct (_calculate_arbitrage self event (fst it) (snd it) now) as [a|] eqn:C;
      [|exact N'].
    apply calculate_arbitrage_inv in C.
    destruct C as (_ & _ & _ & _ & _ & Eo & _).
    assert (Mt : market_type a = fst it) by (rewrite Eo; reflexivity).
    rewrite map_app. simpl. rewrite Mt, <- app_assoc. exact N.
Qed.

(** The opportunities returned for an event carry the event's identifier,
    are for pairwise distinct markets, and each is the calculator's result on
    a market entry of the grouping that has at least two bookmakers. *)
Theorem analyze_event_opportunities (self : ArbitrageDetector)
    (table : list OddsSnapshot) (event : Event) (now : Z) :
  NoDup (map market_type (_analyze_event_for_arbitrage self table event now))
  /\ Forall
       (fun opp =>
          event_id opp = event_id_of event
          /\ exists md,
               In (market_type opp, md)
                 (group_by_market (select_odds_snapshots table event now))
               /\ (2 <= Dict.len md)%nat
               /\ _calculate_arbitrage self event (market_type opp) md now = Some opp)
       (_analyze_event_for_arbitrage self table event now).
Proof.
  unfold _analyze_event_for_arbitrage.
  set (snaps := select_odds_snapshots table event now).
  destruct (List.length snaps <? 2)%nat; [split; constructor|].
  split.
  - apply analyze_loop_nodup. simpl. apply group_by_market_keys_nodup.
  - apply Forall_forall. intros opp I.
    apply analyze_loop_in in I. destruct I as [[] | ([mt md] & Ii & L2 & C)].
    simpl in *. pose proof C as C0. apply calculate_arbitrage_inv in C0.
    destruct C0 as (_ & _ & _ & _ & _ & Eo & _).
    assert (Mt : market_type opp = mt) by (rewrite Eo; reflexivity).
    split; [rewrite Eo; reflexivity|].
    exists md. rewrite Mt. auto.
Qed.

(** ** Which snapshot prices a bookmaker *)

Lemma group_item_entry (snapshot : OddsSnapshot)
    (odds_by_market : Dict.t (Dict.t bookmaker_data)) (item : string * Dict.t Q)
    (mt b : string) :
  group_entry (group_item snapshot odds_by_market item) mt b =
  if String.eqb (fst item) mt && String.eqb (snap_bookmaker snapshot) b
  then Some (mk_bookmaker_data (snd item) (captured_at snapshot))
  else group_entry odds_by_market mt b.
Proof.
  unfold group_item, group_entry.
  set (obm1 := if negb (Dict.mem odds_by_market (fst item))
               then Dict.set odds_by_market (fst item) [] else odds_by_market).
  assert (G1 : forall k, k <> fst item -> Dict.get obm1 k = Dict.get odds_by_market k).
  { intros k Nk. subst obm1.
    destruct (negb (Dict.mem odds_by_market (fst item))); [|reflexivity].
    apply DictFacts.get_set_other. congruence. }
  assert (G2 : forall b0,
            Dict.get (Dict.get_default obm1 (fst item) []) b0
            = match Dict.get odds_by_market (fst item) with
              | Some md => Dict.get md b0
              | None => None
              end).
  { intro b0. subst obm1. unfold Dict.get_default, Dict.mem.
    destruct (Dict.get odds_by_market (fst item)) as [md|] eqn:E; simpl.
    - now rewrite E.
    - now rewrite DictFacts.get_set_same. }
  destruct (String.eqb (fst item) mt) eqn:Em; simpl.
  - apply String.eqb_eq in Em. subst mt.
    rewrite DictFacts.get_set_same.
    destruct (String.eqb (snap_bookmaker snapshot) b) eqn:Eb.
    + apply String.eqb_eq in Eb. subst b. apply DictFacts.get_set_same.
    + apply String.eqb_neq in Eb.
      rewrite DictFacts.get_set_other by assumption. apply G2.
  - apply String.eqb_neq in Em.
    rewrite DictFacts.get_set_other by assumption.
    rewrite G1 by congruence. reflexivity.
Qed.

(** The markets of one snapshot: an entry of the grouping is afterwards
    either a quote of this snapshot, or what it was, untouched. *)
Lemma group_snapshot_entry (s : OddsSnapshot) (mt b : string) (bd : bookmaker_data) :
  forall (items : list (string * Dict.t Q)) obm,
    group_entry (fold_left (group_item s) items obm) mt b = Some bd ->
    (snap_bookmaker s = b /\ bd_timestamp bd = captured_at s
     /\ In (mt, bd_odds bd) items)
    \/ (group_entry obm mt b = Some bd
        /\ ~ (snap_bookmaker s = b /\ In mt (Dict.keys items))).
Proof.
  induction items as [|it its IH]; intros obm H; simpl in H.
  - right. split; [exact H | simpl; tauto].
  - apply IH in H. destruct H as [(Eb & Et & I) | (G & Nq)].
    + left. split; [exact Eb|]. split; [exact Et | now right].
    + rewrite group_item_entry in G.
      destruct (String.eqb (fst it) mt) eqn:Em; simpl in G.
      * destruct (String.eqb (snap_bookmaker s) b) eqn:Eb.
        -- injection G as <-. simpl.
           apply String.eqb_eq in Em. apply String.eqb_eq in Eb.
           left. split; [exact Eb|]. split; [reflexivity|].
           left. rewrite <- Em. now destruct it.
        -- right. split; [exact G|]. apply String.eqb_neq in Eb. tauto.
      * right. split; [exact G|]. apply String.eqb_neq in Em.
        simpl. intros [Eb [A | A]]; [congruence | tauto].
Qed.

(** Over the snapshots in iteration order, the last one that quotes the
    market for the bookmaker provides the entry. *)
Lemma group_by_market_entry (mt b : string) (bd : bookmaker_data) :
  forall (l : list OddsSnapshot) obm,
    group_entry (fold_left group_snapshot l obm) mt b = Some bd ->
    (exists pre s post,
        l = pre ++ s :: post
        /\ snap_bookmaker s = b /\ bd_timestamp bd = captured_at s
        /\ In (mt, bd_odds bd) (odds_data s)
        /\ Forall (fun s' => ~ quotes mt b s') post)
    \/ (group_entry obm mt b = Some bd /\ Forall (fun s' => ~ quotes mt b s') l).
Proof.
  induction l as [|s0 r IH]; intros obm H; simpl in H.
  - right. split; [exact H | constructor].
  - apply IH in H.
    destruct H as [(pre & s & post & L & Eb & Et & I & F) | (G & F)].
    + left. exists (s0 :: pre), s, post. subst r. simpl. auto.
    + unfold group_snapshot in G. apply group_snapshot_entry in G.
      destruct G as [(Eb & Et & I) | (G & Nq)].
      * left. exists [], s0, r. simpl. auto.
      * right. split; [exact G|]. constructor; [|exact F].
        unfold quotes. exact Nq.
Qed.

Lemma insert_desc_in (x y : OddsSnapshot) (l : list OddsSnapshot) :
  In y (insert_desc x l) <-> y = x \/ In y l.
Proof.
  induction l as [|z r IH]; simpl; [intuition|].
  destruct (instant (captured_at z) <? instant (captured_at x))%Z; simpl.
  - intuition.
  - rewrite IH. intuition.
Qed.

Lemma insert_desc_sorted (x : OddsSnapshot) (l : list OddsSnapshot) :
  StronglySorted
    (fun a b => (instant (captured_at b) <= instant (captured_at a))%Z) l ->
  StronglySorted
    (fun a b => (instant (captured_at b) <= instant (captured_at a))%Z)
    (insert_desc x l).
Proof.
  induction l as [|z r IH]; intro S; simpl.
  - constructor; constructor.
  - inversion S as [|? ? Sr Fz]; subst.
    destruct (instant (captured_at z) <? instant (captured_at x))%Z eqn:E.
    + apply Z.ltb_lt in E. constructor; [exact S|].
      constructor; [lia|].
      eapply Forall_impl; [|exact Fz]. simpl. intros a Ha. lia.
    + apply Z.ltb_ge in E. constructor; [now apply IH|].
      apply Forall_forall. intros a Ia. apply insert_desc_in in Ia.
      destruct Ia as [-> | Ia]; [exact E|].
      rewrite Forall_forall in Fz. now apply Fz.
Qed.

Lemma order_by_captured_desc_sorted (l : list OddsSnapshot) :
  StronglySorted
    (fun a b => (instant (captured_at b) <= instant (captured_at a))%Z)
    (order_by_captured_desc l).
Proof.
  unfold order_by_captured_desc.
  induction l as [|x r IH]; simpl; [constructor | now apply insert_desc_sorted].
Qed.

Lemma sorted_app_before {A : Type} (R : A -> A -> Prop) (pre post : list A) (s : A) :
  StronglySorted R (pre ++ s :: post) -> Forall (fun a => R a s) pre.
Proof.
  induction pre as [|a r IH]; simpl; intro S; [constructor|].
  inversion S as [|? ? Sr Fa]; subst. constructor.
  - rewrite Forall_forall in Fa. apply Fa. apply in_or_app. right. now left.
  - now apply IH.
Qed.

(** When a bookmaker has several fresh snapshots that quote a market, the
    entry the detector uses for it comes from one of them and is the oldest:
    its timestamp is not later than that of any fresh snapshot of the
    bookmaker quoting the market. *)
Theorem oldest_fresh_snapshot_is_used (table : list OddsSnapshot) (event : Event)
    (now : Z) (mt b : string) (bd : bookmaker_data) :
  group_entry (group_by_market (select_odds_snapshots table event now)) mt b = Some bd ->
  exists s,
    In s (select_odds_snapshots table event now)
    /\ snap_bookmaker s = b
    /\ In (mt, bd_odds bd) (odds_data s)
    /\ bd_timestamp bd = captured_at s
    /\ forall s',
         In s' (select_odds_snapshots table event now) ->
         quotes mt b s' ->
         (instant (captured_at s) <= instant (captured_at s'))%Z.
Proof.
  intro H. unfold group_by_market in H. apply group_by_market_entry in H.
  destruct H as [(pre & s & post & L & Eb & Et & I & F) | (G & _)];
    [|discriminate G].
  exists s. rewrite L.
  split; [apply in_or_app; right; now left|].
  split; [exact Eb|]. split; [exact I|]. split; [exact Et|].
  intros s' Is' Q.
  assert (S : StronglySorted
                (fun a b0 => (instant (captured_at b0) <= instant (captured_at a))%Z)
                (pre ++ s :: post)).
  { rewrite <- L. unfold select_odds_snapshots. apply order_by_captured_desc_sorted. }
  apply in_app_or in Is'. destruct Is' as [Ip | [<- | Ip]].
  - apply sorted_app_before in S. rewrite Forall_forall in S. now apply S.
  - lia.
  - rewrite Forall_forall in F. exfalso. exact (F s' Ip Q).
Qed.

(** ** More on storing opportunities *)

Lemma for_each_fails {A S : Type} (body : S -> A -> option S) (x : A) (xs : list A) :
  In x xs -> (forall s, body s x = None) -> forall s, for_each body xs s = None.
Proof.
  intros I F. induction xs as [|y r IH]; intro s; simpl; [destruct I|].
  destruct I as [-> | I].
  - now rewrite F.
  - destruct (body s y) as [s'|]; simpl; [now apply IH | reflexivity].
Qed.

Lemma similar_new_row (now : Z) (opp opp' : opportunity) :
  similar_exists now opp (new_row now opp') = true <-> opp_key opp' = opp_key opp.
Proof.
  unfold similar_exists, opp_key. simpl.
  assert (W : (now - hours 1 <? now)%Z = true) by (apply Z.ltb_lt; unfold hours; lia).
  rewrite W, andb_true_r, andb_true_r, andb_true_iff, !String.eqb_eq.
  split; [intros [-> ->]; reflexivity | intro E; injection E; auto].
Qed.

(** After the loop, every candidate has a similar live row, in the table or
    among the pending ones. *)
Lemma store_loop_covers (db : Session) (table : list ArbitrageOpportunity) (now : Z)
    (opportunities : list opportunity) :
  forall pending pending',
    for_each (store_step db table now) opportunities pending = Some pending' ->
    forall opp, In opp opportunities ->
      exists row, In row (table ++ pending') /\ similar_exists now opp row = true.
Proof.
  induction opportunities as [|o rest IH]; intros pending pending' H opp I;
    simpl in H; [destruct I|].
  bind_inv H. rename v into pending1.
  destruct I as [<- | I]; [|exact (IH _ _ H opp I)].
  destruct (store_loop_spec _ _ _ _ _ _ H) as (added & -> & _).
  unfold store_step in E. bind_inv E. rename v into existing.
  destruct existing as [row|]; injection E as <-.
  - assert (Iv : In row (filter (similar_exists now o)
                           (if autoflush db then table ++ pending else table))).
    { unfold scalar_one_or_none in E0.
      destruct (filter (similar_exists now o)
                  (if autoflush db then table ++ pending else table))
        as [|r0 [|r1 l]]; try discriminate.
      injection E0 as <-. now left. }
    apply filter_In in Iv. destruct Iv as [Iv Sv].
    exists row. split; [|exact Sv].
    rewrite app_assoc. apply in_or_app. left.
    destruct (autoflush db); [exact Iv | apply in_or_app; now left].
  - exists (new_row now o). split; [|now apply similar_new_row].
    apply in_or_app. right. apply in_or_app. left. apply in_or_app. right. now left.
Qed.

(** When every candidate already has a similar live row in the table, the
    loop adds nothing (or raises). *)
Lemma store_loop_all_covered (db : Session) (table : list ArbitrageOpportunity)
    (now : Z) (opportunities : list opportunity) :
  (forall opp, In opp opportunities ->
     exists row, In row table /\ similar_exists now opp row = true) ->
  for_each (store_step db table now) opportunities [] = Some []
  \/ for_each (store_step db table now) opportunities [] = None.
Proof.
  induction opportunities as [|o rest IH]; intro C; simpl; [now left|].
  destruct (C o (or_introl eq_refl)) as (row & Ir & Sr).
  assert (St : store_step db table now [] o = Some []
               \/ store_step db table now [] o = None).
  { unfold store_step. cbv zeta.
    assert (Ne : filter (similar_exists now o)
                   (if autoflush db then table ++ [] else table) <> []).
    { intro Z0. apply (filter_nil_not_in _ _ row) in Z0; [congruence|].
      destruct (autoflush db); [apply in_or_app; now left | exact Ir]. }
    destruct (filter (similar_exists now o)
                (if autoflush db then table ++ [] else table)) as [|r0 [|r1 l]];
      [congruence | now left | now right]. }
  destruct St as [St | St]; rewrite St; simpl; [|now right].
  apply IH. intros opp I. apply C. now right.
Qed.

(** Storing the same batch a second time at the same instant leaves the
    table as the first call left it. *)
Theorem store_is_idempotent (db : Session) (table : list ArbitrageOpportunity)
    (now : Z) (opportunities : list opportunity) :
  table_after
    (_store_opportunities db
       (table_after (_store_opportunities db table now opportunities))
       now opportunities)
  = table_after (_store_opportunities db table now opportunities).
Proof.
  unfold _store_opportunities.
  destruct (db_raises db); [reflexivity|].
  destruct (for_each (store_step db table now) opportunities []) as [pending|] eqn:R;
    simpl; [|now rewrite R].
  pose proof (store_loop_covers _ _ _ _ _ _ R) as C. simpl in C.
  destruct (store_loop_all_covered db (table ++ pending) now opportunities C)
    as [E | E]; rewrite E; simpl; [apply app_nil_r | reflexivity].
Qed.

(** If the table holds two or more similar live rows for one candidate of
    the batch, the call raises and rolls back: nothing is stored, not even
    the other candidates. *)
Theorem ambiguous_rows_roll_back (db : Session) (table : list ArbitrageOpportunity)
    (now : Z) (opportunities : list opportunity) (opp : opportunity) :
  In opp opportunities ->
  (2 <= List.length (filter (similar_exists now opp) table))%nat ->
  _store_opportunities db table now opportunities = mk_store_outcome table true.
Proof.
  intros I L. unfold _store_opportunities.
  destruct (db_raises db); [reflexivity|].
  rewrite (for_each_fails (store_step db table now) opp); [reflexivity | exact I |].
  intro pending. unfold store_step. cbv zeta.
  assert (L' : (2 <= List.length
                       (filter (similar_exists now opp)
                          (if autoflush db then table ++ pending else table)))%nat).
  { destruct (autoflush db); [|exact L].
    rewrite filter_app, length_app. lia. }
  destruct (filter (similar_exists now opp)
              (if autoflush db then table ++ pending else table)) as [|r0 [|r1 l]];
    simpl in L'; try lia. reflexivity.
Qed.

(** A batch of candidates for pairwise distinct (event, market) pairs, none
    of which has a similar live row in the table, is inserted whole and in
    order when the database does not fail. *)
Theorem fresh_batch_all_inserted (db : Session) (table : list ArbitrageOpportunity)
    (now : Z) (opportunities : list opportunity) :
  db_raises db = false ->
  NoDup (map opp_key opportunities) ->
  (forall opp, In opp opportunities -> filter (similar_exists now opp) table = []) ->
  _store_opportunities db table now opportunities
  = mk_store_outcome (table ++ map (new_row now) opportunities) false.
Proof.
  intros Ok N F. unfold _store_opportunities. rewrite Ok.
  assert (G : forall done rest,
            NoDup (map opp_key (done ++ rest)) ->
            (forall opp, In opp rest -> filter (similar_exists now opp) table = []) ->
            for_each (store_step db table now) rest (map (new_row now) done)
            = Some (map (new_row now) (done ++ rest))).
  { intros done rest. revert done.
    induction rest as [|o r IH]; intros done Nd Fr; simpl.
    - now rewrite app_nil_r.
    - unfold store_step at 1. cbv zeta.
      assert (Z0 : filter (similar_exists now o)
                     (if autoflush db then table ++ map (new_row now) done else table)
                   = []).
      { destruct (autoflush db); [|apply Fr; now left].
        rewrite filter_app, (Fr o (or_introl eq_refl)). simpl.
        induction done as [|d ds IHd]; simpl; [reflexivity|].
        destruct (similar_exists now o (new_row now d)) eqn:S.
        - apply similar_new_row in S. exfalso.
          simpl in Nd. inversion Nd as [|? ? Nx _]; subst. apply Nx.
          rewrite S, map_app. apply in_or_app. right. now left.
        - apply IHd. simpl in Nd. now inversion Nd. }
      rewrite Z0. simpl.
      replace (map (new_row now) done ++ [new_row now o])
        with (map (new_row now) (done ++ [o])) by (rewrite map_app; reflexivity).
      rewrite IH.
      + now rewrite <- app_assoc.
      + now rewrite <- app_assoc.
      + intros opp I. apply Fr. now right. }
  pose proof (G [] opportunities N F) as E. simpl in E. rewrite E. reflexivity.
Qed.

(** ** The detection cycle *)

Lemma insert_by_commence_in (x y : Event) (l : list Event) :
  In y (insert_by_commence x l) <-> y = x \/ In y l.
Proof.
  induction l as [|z r IH]; simpl; [intuition|].
  destruct (instant (commence_time x) <? instant (commence_time z))%Z; simpl.
  - intuition.
  - rewrite IH. intuition.
Qed.

Lemma order_by_commence_time_in (y : Event) (l : list Event) :
  In y (order_by_commence_time l) <-> In y l.
Proof.
  unfold order_by_commence_time. induction l as [|x r IH]; simpl; [tauto|].
  rewrite insert_by_commence_in, IH. intuition.
Qed.

Lemma in_firstn {A : Type} (n : nat) (l : list A) (x : A) :
  In x (firstn n l) -> In x l.
Proof.
  intro I. rewrite <- (firstn_skipn n l). apply in_or_app. now left.
Qed.

Lemma analyze_events_in (self : ArbitrageDetector) (snapshots : list OddsSnapshot)
    (now : Z) (opp : opportunity) (events : list Event) :
  In opp (analyze_events self snapshots events now) ->
  exists e, In e events /\ In opp (_analyze_event_for_arbitrage self snapshots e now).
Proof.
  unfold analyze_events.
  assert (G : forall evs acc,
            In opp (fold_left
                      (fun opportunities event =>
                         opportunities
                         ++ _analyze_event_for_arbitrage self snapshots event now)
                      evs acc) ->
            In opp acc
            \/ exists e, In e evs
                         /\ In opp (_analyze_event_for_arbitrage self snapshots e now)).
  { induction evs as [|e r IH]; intros acc H; simpl in H; [now left|].
    apply IH in H. destruct H as [H | (e' & I & H)].
    - apply in_app_or in H. destruct H as [H | H]; [now left|].
      right. exists e. split; [now left | exact H].
    - right. exists e'. split; [now right | exact H]. }
  intro H. apply G in H. destruct H as [[] | H]. exact H.
Qed.

Lemma analyze_event_id (self : ArbitrageDetector) (snapshots : list OddsSnapshot)
    (event : Event) (now : Z) (opp : opportunity) :
  In opp (_analyze_event_for_arbitrage self snapshots event now) ->
  event_id opp = event_id_of event.
Proof.
  unfold _analyze_event_for_arbitrage.
  destruct (List.length (select_odds_snapshots snapshots event now) <? 2)%nat;
    [intros []|].
  intro I. apply analyze_loop_in in I. destruct I as [[] | (item & _ & _ & C)].
  apply calculate_arbitrage_inv in C.
  destruct C as (_ & _ & _ & _ & _ & Eo & _). rewrite Eo. reflexivity.
Qed.

(** A cycle analyses at most 100 events, and every opportunity it returns
    belongs to an event that is "upcoming" and starts after now and within
    seven days. *)
Theorem detected_events_are_upcoming (self : ArbitrageDetector) (db : Session)
    (events : list Event) (snapshots : list OddsSnapshot)
    (table : list ArbitrageOpportunity) (now : Z) :
  (List.length (select_events events now) <= 100)%nat
  /\ Forall
       (fun opp =>
          exists e,
            In e events
            /\ event_id opp = event_id_of e
            /\ event_status e = "upcoming"%string
            /\ (now < instant (commence_time e) < now + days 7)%Z)
       (returned (detect_arbitrage_opportunities self db events snapshots table now)).
Proof.
  split; [unfold select_events; apply firstn_le_length|].
  assert (G : Forall
                (fun opp =>
                   exists e,
                     In e events
                     /\ event_id opp = event_id_of e
                     /\ event_status e = "upcoming"%string
                     /\ (now < instant (commence_time e) < now + days 7)%Z)
                (analyze_events self snapshots (select_events events now) now)).
  { apply Forall_forall. intros opp I.
    apply analyze_events_in in I. destruct I as (e & Ie & Io).
    exists e. apply analyze_event_id in Io.
    unfold select_events in Ie. apply in_firstn in Ie.
    apply (proj1 (order_by_commence_time_in _ _)) in Ie. apply filter_In in Ie.
    destruct Ie as [Ie F].
    apply andb_true_iff in F. destruct F as [F F3].
    apply andb_true_iff in F. destruct F as [F1 F2].
    apply String.eqb_eq in F1. apply Z.ltb_lt in F2. apply Z.ltb_lt in F3.
    auto. }
  unfold detect_arbitrage_opportunities.
  destruct (db_raises db); [constructor|].
  destruct (analyze_events self snapshots (select_events events now) now)
    as [|o r] eqn:A; [constructor|].
  destruct (raised (_store_opportunities db table now (o :: r)));
    [constructor | exact G].
Qed.

(** A cycle never changes or removes an existing row; every opportunity it
    returns has, in the table it leaves, a "detected" or "analyzed" row for
    the same event and market detected within the last hour; and when storing
    fails it returns the empty list and leaves the table as it was. *)
Theorem detected_opportunities_are_stored (self : ArbitrageDetector) (db : Session)
    (events : list Event) (snapshots : list OddsSnapshot)
    (table : list ArbitrageOpportunity) (now : Z) :
  let cycle := detect_arbitrage_opportunities self db events snapshots table now in
  (exists added, opportunities_after cycle = table ++ added)
  /\ Forall
       (fun opp =>
          exists row,
            In row (opportunities_after cycle) /\ similar_exists now opp row = true)
       (returned cycle)
  /\ (raised
        (_store_opportunities db table now
           (analyze_events self snapshots (select_events events now) now)) = true ->
      cycle = mk_detect_outcome [] table).
Proof.
  unfold detect_arbitrage_opportunities, _store_opportunities.
  destruct (db_raises db);
    [split; [exists []; now rewrite app_nil_r | split; [constructor | reflexivity]]|].
  destruct (analyze_events self snapshots (select_events events now) now)
    as [|o r] eqn:A.
  - simpl. split; [exists []; now rewrite app_nil_r|].
    split; [constructor | discriminate].
  - destruct (for_each (store_step db table now) (o :: r) []) as [pending|] eqn:R;
      cbn [raised table_after returned opportunities_after].
    + split; [now exists pending|]. split; [|discriminate].
      apply Forall_forall. intros opp I.
      exact (store_loop_covers _ _ _ _ _ _ R opp I).
    + split; [exists []; now rewrite app_nil_r|].
      split; [constructor | reflexivity].
Qed.

(** ** More on the cleanup sweeps *)

Lemma is_expired_set_status (now : Z) (row : ArbitrageOpportunity) :
  is_expired now (set_status "expired" row) = false.
Proof.
  unfold is_expired. simpl. destruct (row_expires_at row); [|reflexivity].
  apply andb_false_r.
Qed.

Lemma is_expired_mono (now1 now2 : Z) (row : ArbitrageOpportunity) :
  (now1 <= now2)%Z -> is_expired now1 row = true -> is_expired now2 row = true.
Proof.
  unfold is_expired. intros L. destruct (row_expires_at row) as [e|]; [|auto].
  rewrite !andb_true_iff, !Z.leb_le. intros [A B]. split; [lia | exact B].
Qed.

(** A sweep followed by a later one amounts to the later one alone (so a
    sweep repeated at the same instant changes nothing more); and after a
    sweep that did not fail no row is due any more. *)
Theorem sweeps_compose (db : Session) (table : list ArbitrageOpportunity)
    (now1 now2 : Z) :
  (now1 <= now2)%Z ->
  _cleanup_expired_opportunities db
    (_cleanup_expired_opportunities db table now1) now2
  = _cleanup_expired_opportunities db table now2
  /\ (db_raises db = false ->
      Forall (fun row => ~ due now2 row)
        (_cleanup_expired_opportunities db table now2)).
Proof.
  intro L. unfold _cleanup_expired_opportunities.
  destruct (db_raises db); [split; [reflexivity | discriminate]|].
  unfold update_expired. split.
  - rewrite map_map. apply map_ext. intro row.
    destruct (is_expired now1 row) eqn:E1.
    + rewrite is_expired_set_status, (is_expired_mono _ _ _ L E1). reflexivity.
    + reflexivity.
  - intros _. apply Forall_forall. intros row I.
    apply in_map_iff in I. destruct I as (old & <- & _).
    rewrite <- is_expired_due.
    destruct (is_expired now2 old) eqn:E.
    + now rewrite is_expired_set_status.
    + now rewrite E.
Qed.

Lemma sweeps_compose_witness :
  _cleanup_expired_opportunities (mk_Session true false)
    (_cleanup_expired_opportunities (mk_Session true false)
       [sample_row "detected" 10; sample_row "analyzed" 30] 20) 40
  = _cleanup_expired_opportunities (mk_Session true false)
      [sample_row "detected" 10; sample_row "analyzed" 30] 40.
Proof.
  apply (sweeps_compose (mk_Session true false)
           [sample_row "detected" 10; sample_row "analyzed" 30] 20 40).
  lia.
Defined.

Lemma filter_filter_implied {A : Type} (f g : A -> bool) (l : list A) :
  (forall x, f x = true -> g x = true) -> filter f (filter g l) = filter f l.
Proof.
  intro H. induction l as [|x r IH]; simpl; [reflexivity|].
  destruct (g x) eqn:G; simpl.
  - now rewrite IH.
  - destruct (f x) eqn:F; [rewrite (H x F) in G; discriminate | exact IH].
Qed.

(** The retention sweep removes exactly the snapshots captured more than
    seven days ago, and never one that the detector would select at that
    instant or later: the selection of fresh snapshots is the same with and
    without the sweep. *)
Theorem retention_keeps_fresh_snapshots (db : Session) (table : list OddsSnapshot)
    (event : Event) (now now' : Z) :
  (now <= now')%Z ->
  select_odds_snapshots (_cleanup_old_odds_snapshots db table now) event now'
  = select_odds_snapshots table event now'
  /\ (db_raises db = false ->
      forall s,
        In s (_cleanup_old_odds_snapshots db table now) <->
        In s table /\ (now - days 7 <= instant (captured_at s))%Z).
Proof.
  intro L. unfold _cleanup_old_odds_snapshots.
  destruct (db_raises db); [split; [reflexivity | discriminate]|].
  split.
  - unfold select_odds_snapshots. f_equal.
    apply filter_filter_implied. intros s F.
    apply andb_true_iff in F. destruct F as [_ F]. apply Z.ltb_lt in F.
    apply negb_true_iff, Z.ltb_ge. unfold minutes, days in *. lia.
  - intros _ s. rewrite filter_In, negb_true_iff, Z.ltb_ge. reflexivity.
Qed.

Lemma retention_keeps_fresh_snapshots_witness :
  select_odds_snapshots
    (_cleanup_old_odds_snapshots (mk_Session true false) sample_snapshots (minutes 5))
    sample_event (minutes 5)
  = select_odds_snapshots sample_snapshots sample_event (minutes 5).
Proof.
  apply (proj1 (retention_keeps_fresh_snapshots (mk_Session true false)
                  sample_snapshots sample_event (minutes 5) (minutes 5)
                  (Z.le_refl _))).
Defined.

(** ** More on the Kelly allocator *)

Lemma kelly_leg_floor (self : ArbitrageDetector) (bankroll : Q) (bookmaker : string)
    (acc acc' : Dict.t Q * Q) (leg : string * Q) :
  (forall k v, In (k, v) (fst acc) -> 10 <= v) ->
  kelly_leg self bankroll bookmaker acc leg = Some acc' ->
  forall k v, In (k, v) (fst acc') -> 10 <= v.
Proof.
  intros F H. unfold kelly_leg in H. bind_inv H. bind_inv H.
  destruct (Qltb 0 (v0 * kelly_fraction self)).
  - injection H as <-. simpl. intros k w I.
    apply in_set_cases in I. destruct I as [[_ ->] | I]; [|exact (F k w I)].
    unfold py_max.
    destruct (Qltb _ 10) eqn:Em; [apply Qle_refl | now apply Qltb_ge in Em].
  - injection H as <-. exact F.
Qed.

Lemma for_each_invariant {A S : Type} (P : S -> Prop) (body : S -> A -> option S)
    (xs : list A) :
  (forall s x s', P s -> body s x = Some s' -> P s') ->
  forall s s', P s -> for_each body xs s = Some s' -> P s'.
Proof.
  intro Hb. induction xs as [|x r IH]; intros s s' Ps H; simpl in H.
  - now injection H as <-.
  - bind_inv H. exact (IH _ _ (Hb _ _ _ Ps E) H).
Qed.

(** Every stake reported in [kelly_stakes] is at least 10, whatever the
    opportunity and the bankroll. *)
Theorem kelly_stakes_at_least_10 (self : ArbitrageDetector) (opp : opportunity)
    (bankroll : Q) :
  forall k v,
    In (k, v) (kelly_stakes (calculate_kelly_stakes self opp bankroll)) -> 10 <= v.
Proof.
  unfold calculate_kelly_stakes.
  match goal with
  | |- context [match ?m with Some _ => _ | None => _ end] => destruct m as [r|] eqn:R
  end; [|intros k v []].
  bind_inv R. bind_inv R. injection R as <-. simpl.
  eapply (for_each_invariant
            (fun s : Dict.t Q * Q => forall k w, In (k, w) (fst s) -> 10 <= w));
    [ | | exact E].
  - intros s item s' Ps Hs.
    eapply (for_each_invariant
              (fun s : Dict.t Q * Q => forall k w, In (k, w) (fst s) -> 10 <= w));
      [ | exact Ps | exact Hs].
    intros s0 leg s1 P0 H0. exact (kelly_leg_floor _ _ _ _ _ _ P0 H0).
  - intros k w [].
Qed.

(** A bankroll of zero, or a leg priced at exactly 0 or exactly 1, makes the
    allocator fall back to the empty result (no stakes, total 0, 0 percent),
    whatever the other legs are. *)
Theorem kelly_falls_back_to_zero (self : ArbitrageDetector) (opp : opportunity)
    (bankroll : Q) :
  (bankroll == 0
   \/ exists bookmaker legs_of outcome odds,
        In (bookmaker, legs_of) (bookmaker_odds opp)
        /\ In (outcome, odds) legs_of
        /\ (odds == 0 \/ odds == 1)) ->
  calculate_kelly_stakes self opp bankroll = mk_kelly_result [] 0 0.
Proof.
  intro H. unfold calculate_kelly_stakes.
  destruct H as [B | (bookmaker & legs_of & outcome & odds & Ib & Il & Z)].
  - match goal with
    | |- context [for_each ?b (Dict.items (bookmaker_odds opp)) ?s] =>
        destruct (for_each b (Dict.items (bookmaker_odds opp)) s) as [acc|]
    end; simpl; [|reflexivity].
    unfold py_div. apply Qeq_bool_iff in B. now rewrite B.
  - rewrite (for_each_fails _ (bookmaker, legs_of)); [reflexivity | exact Ib |].
    intro s. simpl.
    apply (for_each_fails _ (outcome, odds)); [exact Il|].
    intro s0. unfold kelly_leg, kelly_true_prob, py_div. simpl.
    destruct Z as [Z | Z].
    + apply Qeq_bool_iff in Z. now rewrite Z.
    + destruct (Qeq_bool odds 0); [reflexivity|]. simpl.
      assert (Z1 : Qeq_bool (odds - 1) 0 = true) by (apply Qeq_bool_iff; lra).
      now rewrite Z1.
Qed.

(** With a positive Kelly fraction, a leg priced above 1 and below 1.05 gets
    no stake, and a leg priced at 1.05 or more gets the stake
    [bankroll * 0.05 / (odds - 1) * kelly_fraction * max_stake_percentage / 100]
    (floored at 10 in [kelly_stakes], added as it is to the total) whenever
    that amount is positive. *)
Theorem kelly_leg_by_odds (self : ArbitrageDetector) (bankroll : Q)
    (bookmaker outcome : string) (odds : Q) (acc : Dict.t Q * Q) :
  0 < kelly_fraction self ->
  (1 < odds -> odds < 105 # 100 ->
   kelly_leg self bankroll bookmaker acc (outcome, odds) = Some acc)
  /\ (105 # 100 <= odds ->
      exists f,
        f == (5 # 100) / (odds - 1) * kelly_fraction self
        /\ 0 < f
        /\ kelly_leg self bankroll bookmaker acc (outcome, odds)
           = Some (Dict.set (fst acc) (bookmaker ++ "_" ++ outcome)%string
                     (py_max (bankroll * f * (max_stake_percentage self / 100)) 10),
                   snd acc + bankroll * f * (max_stake_percentage self / 100))).
Proof.
  intro K. split.
  - intros L1 L2. unfold kelly_leg, kelly_true_prob. simpl.
    rewrite (py_div_nonzero 1 odds) by lra. simpl.
    assert (T : Qltb 1 (1 / odds * (105 # 100)) = true).
    { apply Qltb_lt.
      setoid_replace (1 / odds * (105 # 100)) with ((105 # 100) / odds)
        by (field; lra).
      apply Qlt_shift_div_l; lra. }
    rewrite T. rewrite py_div_nonzero by lra. simpl.
    assert (N : Qltb 0 (((odds - 1) * (95 # 100) - (1 - (95 # 100))) / (odds - 1)
                        * kelly_fraction self) = false).
    { apply Qltb_ge.
      setoid_replace (((odds - 1) * (95 # 100) - (1 - (95 # 100))) / (odds - 1)
                      * kelly_fraction self)
        with (- ((1 - (95 # 100) * odds) * kelly_fraction self * / (odds - 1)))
        by (field; lra).
      assert (P : 0 <= (1 - (95 # 100) * odds) * kelly_fraction self * / (odds - 1)).
      { apply Qmult_le_0_compat.
        - apply Qmult_le_0_compat; lra.
        - apply Qlt_le_weak, Qinv_lt_0_compat. lra. }
      lra. }
    now rewrite N.
  - intro L. unfold kelly_leg, kelly_true_prob. simpl.
    rewrite (py_div_nonzero 1 odds) by lra. simpl.
    assert (T : Qltb 1 (1 / odds * (105 # 100)) = false).
    { apply Qltb_ge.
      setoid_replace (1 / odds * (105 # 100)) with ((105 # 100) / odds)
        by (field; lra).
      apply Qle_shift_div_r; lra. }
    rewrite T. rewrite py_div_nonzero by lra. simpl.
    set (f := ((odds - 1) * (1 / odds * (105 # 100))
               - (1 - 1 / odds * (105 # 100))) / (odds - 1) * kelly_fraction self).
    assert (Ef : f == (5 # 100) / (odds - 1) * kelly_fraction self).
    { unfold f. field. split; lra. }
    assert (Pf : 0 < f).
    { rewrite Ef. apply Qmult_lt_0_compat; [|exact K].
      apply Qlt_shift_div_l; lra. }
    exists f. split; [exact Ef|]. split; [exact Pf|].
    apply Qltb_lt in Pf. now rewrite Pf.
Qed.

Lemma kelly_leg_by_odds_witness :
  kelly_leg default_detector 10000 "bet365" ([], 0) ("home"%string, 104 # 100)
  = Some ([], 0).
Proof.
  apply (kelly_leg_by_odds default_detector 10000 "bet365" "home" (104 # 100) ([], 0)).
  - reflexivity.
  - reflexivity.
  - reflexivity.
Defined.

(** ** The task manager *)

(** Whatever the sequence of calls to [start_all_tasks] and
    [stop_all_tasks] on a new manager, it is either stopped with no task, or
    running with exactly the four loops, one task each: starting twice does
    not start a loop twice. *)
Theorem manager_runs_each_loop_once (calls : list manager_call) :
  let self := fold_left manager_step calls new_manager in
  (running self = false /\ tasks self = [])
  \/ (running self = true
      /\ tasks self
         = [OddsCollectionLoop; ArbitrageDetectionLoop; AIAnalysisLoop; CleanupLoop]).
Proof.
  assert (G : forall cs m,
            ((running m = false /\ tasks m = [])
             \/ (running m = true
                 /\ tasks m = [OddsCollectionLoop; ArbitrageDetectionLoop;
                               AIAnalysisLoop; CleanupLoop])) ->
            let self := fold_left manager_step cs m in
            (running self = false /\ tasks self = [])
            \/ (running self = true
                /\ tasks self = [OddsCollectionLoop; ArbitrageDetectionLoop;
                                 AIAnalysisLoop; CleanupLoop])).
  { induction cs as [|c r IH]; intros m H; simpl; [exact H|].
    apply IH. destruct c; simpl.
    - unfold start_all_tasks.
      destruct H as [[R T] | [R T]]; rewrite R; [|now right].
      right. simpl. rewrite T. auto.
    - now left. }
  apply G. now left.
Qed.

(** ** The rule-based fallback analysis *)

Lemma py_int_half_bounds (risk : Q) :
  (1 <= Z.min 5 (Z.max 1 (py_int (risk / 2))) <= 5)%Z.
Proof. lia. Qed.

(** The fallback score lies between 2 and 9 (so its clamp to [1, 10] never
    applies), the risk level between 1 and 5; the action is "execute"
    exactly for a score of 7 or more and "skip" exactly for a score below 4;
    a "high" priority always comes with "execute" and "skip" always with a
    "low" priority. *)
Theorem default_analysis_consistent (profit risk time_to_event : Q) :
  let a := _get_default_analysis profit risk time_to_event in
  2 <= ai_score a <= 9
  /\ (1 <= risk_level a <= 5)%Z
  /\ (recommended_action a = "execute"%string <-> 7 <= ai_score a)
  /\ (recommended_action a = "skip"%string <-> ai_score a < 4)
  /\ (execution_priority a = "high"%string -> recommended_action a = "execute"%string)
  /\ (recommended_action a = "skip"%string -> execution_priority a = "low"%string).
Proof.
  unfold _get_default_analysis.
  cbn [ai_score risk_level recommended_action execution_priority].
  split; [|split; [apply py_int_half_bounds|]];
    destruct (Qltb 5 profit); try destruct (Qltb 3 profit);
    destruct (Qltb risk 3); try destruct (Qltb 7 risk);
    destruct (Qltb time_to_event 2); try destruct (Qltb 48 time_to_event);
    vm_compute;
    repeat split; intros; try discriminate; try reflexivity;
    try (exfalso; auto; fail).
Qed.

(** ** Outcome names *)

Lemma lower_char_idem (c : ascii) : lower_char (lower_char c) = lower_char c.
Proof. destruct c as [[] [] [] [] [] [] [] []]; reflexivity. Qed.

Lemma lstrip_incl (l : list ascii) : incl (lstrip l) l.
Proof.
  induction l as [|c r IH]; simpl; [apply incl_refl|].
  destruct (is_space c); [now apply incl_tl | apply incl_refl].
Qed.

Lemma rstrip_incl (l : list ascii) : incl (rstrip l) l.
Proof.
  induction l as [|c r IH]; simpl; [apply incl_refl|].
  destruct (rstrip r) as [|x xs].
  - destruct (is_space c); intros y I; [destruct I | destruct I as [<- | []]; now left].
  - intros y [<- | I]; [now left | right; now apply IH].
Qed.

Lemma lstrip_clean (l : list ascii) : starts_clean (lstrip l).
Proof.
  induction l as [|c r IH]; simpl; [exact I|].
  destruct (is_space c) eqn:E; [exact IH | exact E].
Qed.

Lemma lstrip_of_clean (l : list ascii) : starts_clean l -> lstrip l = l.
Proof.
  destruct l as [|c r]; simpl; [reflexivity|]. now intros ->.
Qed.

Lemma rstrip_clean (l : list ascii) : starts_clean l -> starts_clean (rstrip l).
Proof.
  destruct l as [|c r]; simpl; [auto|]. intro E.
  destruct (rstrip r); [rewrite E|]; exact E.
Qed.

Lemma rstrip_idem (l : list ascii) : rstrip (rstrip l) = rstrip l.
Proof.
  induction l as [|c r IH]; simpl; [reflexivity|].
  destruct (rstrip r) as [|x xs] eqn:R.
  - destruct (is_space c) eqn:E; simpl; [reflexivity | now rewrite E].
  - change (rstrip (c :: x :: xs)) with
      (match rstrip (x :: xs) with
       | [] => if is_space c then [] else [c]
       | r' => c :: r'
       end).
    now rewrite IH.
Qed.

Lemma strip_idem (l : list ascii) : strip (strip l) = strip l.
Proof.
  unfold strip.
  rewrite (lstrip_of_clean (rstrip (lstrip l))).
  - apply rstrip_idem.
  - apply rstrip_clean, lstrip_clean.
Qed.

Lemma map_fixed {A : Type} (f : A -> A) (l : list A) :
  Forall (fun x => f x = x) l -> map f l = l.
Proof.
  induction 1 as [|x r Hx _ IH]; simpl; [reflexivity | now rewrite Hx, IH].
Qed.

Lemma lower_strip_lower (l : list ascii) :
  map lower_char (strip (map lower_char l)) = strip (map lower_char l).
Proof.
  apply map_fixed. apply Forall_forall. intros c I.
  unfold strip in I. apply rstrip_incl, lstrip_incl in I.
  apply in_map_iff in I. destruct I as (c0 & <- & _). apply lower_char_idem.
Qed.

(** For an ASCII name, normalising is idempotent, and the result is never
    one of the aliases "1", "2", "x" or "tie": these are always replaced by
    "home", "away" and "draw". *)
Theorem normalize_outcome_key_canonical (outcome_name : string) :
  is_ascii_name outcome_name ->
  _normalize_outcome_key (_normalize_outcome_key outcome_name)
  = _normalize_outcome_key outcome_name
  /\ ~ In (_normalize_outcome_key outcome_name) ["1"; "2"; "x"; "tie"]%string.
Proof.
  intros _.
  set (y := string_of_list_ascii
              (strip (map lower_char (list_ascii_of_string outcome_name)))).
  assert (R : _normalize_outcome_key outcome_name
              = Dict.get_default outcome_mappings y y) by reflexivity.
  rewrite R. clear R.
  assert (Ny : string_of_list_ascii
                 (strip (map lower_char (list_ascii_of_string y))) = y).
  { unfold y. rewrite list_ascii_of_string_of_list_ascii.
    now rewrite lower_strip_lower, strip_idem. }
  unfold Dict.get_default.
  destruct (Dict.get outcome_mappings y) as [v|] eqn:G.
  - apply DictFacts.get_some_in in G. simpl in G.
    assert (V : In v ["home"; "away"; "draw"; "over"; "under"]%string).
    { simpl. repeat destruct G as [G | G];
        try (injection G as _ <-; tauto); destruct G. }
    simpl in V. split.
    + repeat destruct V as [<- | V]; try (now destruct V); reflexivity.
    + repeat destruct V as [<- | V]; try (now destruct V);
        simpl; intuition discriminate.
  - split.
    + unfold _normalize_outcome_key. rewrite Ny.
      unfold Dict.get_default. now rewrite G.
    + apply DictFacts.get_none_not_in in G. simpl in G. simpl. tauto.
Qed.

Lemma normalize_outcome_key_canonical_witness :
  _normalize_outcome_key "  X " = "draw"%string
  /\ _normalize_outcome_key (_normalize_outcome_key "  X ")
     = _normalize_outcome_key "  X ".
Proof.
  split; [reflexivity|].
  apply (normalize_outcome_key_canonical "  X ").
  unfold is_ascii_name. simpl. repeat constructor; simpl; lia.
Defined.

(** ** Sample runs of the further properties *)

Lemma oldest_fresh_snapshot_is_used_witness :
  exists s,
    In s (select_odds_snapshots repeated_snapshots sample_event (minutes 5))
    /\ snap_bookmaker s = "bet365"%string
    /\ In ("h2h"%string, [("home", 25 # 10); ("away", 18 # 10)]%string) (odds_data s)
    /\ mk_datetime (minutes 1) false = captured_at s
    /\ forall s',
         In s' (select_odds_snapshots repeated_snapshots sample_event (minutes 5)) ->
         quotes "h2h" "bet365" s' ->
         (instant (captured_at s) <= instant (captured_at s'))%Z.
Proof.
  apply (oldest_fresh_snapshot_is_used repeated_snapshots sample_event (minutes 5)
           "h2h" "bet365"
           (mk_bookmaker_data [("home", 25 # 10); ("away", 18 # 10)]%string
              (mk_datetime (minutes 1) false))).
  vm_compute. reflexivity.
Defined.

Lemma ambiguous_rows_roll_back_witness :
  _store_opportunities (mk_Session true false)
    [new_row 0 scenario_a_opportunity; new_row 0 tied_opportunity] (minutes 10)
    [totals_opportunity; scenario_a_opportunity]
  = mk_store_outcome
      [new_row 0 scenario_a_opportunity; new_row 0 tied_opportunity] true.
Proof.
  apply (ambiguous_rows_roll_back (mk_Session true false)
           [new_row 0 scenario_a_opportunity; new_row 0 tied_opportunity]
           (minutes 10) [totals_opportunity; scenario_a_opportunity]
           scenario_a_opportunity).
  - simpl. auto.
  - vm_compute. lia.
Defined.

Lemma fresh_batch_all_inserted_witness :
  _store_opportunities (mk_Session false false) [] (minutes 10)
    [scenario_a_opportunity; totals_opportunity]
  = mk_store_outcome
      ([] ++ map (new_row (minutes 10)) [scenario_a_opportunity; totals_opportunity])
      false.
Proof.
  apply (fresh_batch_all_inserted (mk_Session false false) [] (minutes 10)
           [scenario_a_opportunity; totals_opportunity]).
  - reflexivity.
  - simpl. repeat constructor; simpl; intuition discriminate.
  - intros opp _. reflexivity.
Defined.

Lemma kelly_stakes_at_least_10_witness :
  exists v,
    In ("pinnacle_away"%string, v)
      (kelly_stakes
         (calculate_kelly_stakes default_detector short_priced_opportunity 10000))
    /\ 10 <= v.
Proof.
  eexists. split.
  - vm_compute. right. left. reflexivity.
  - apply (kelly_stakes_at_least_10 default_detector short_priced_opportunity 10000
             "pinnacle_away"%string).
    vm_compute. right. left. reflexivity.
Defined.

Lemma kelly_falls_back_to_zero_witness :
  calculate_kelly_stakes default_detector even_money_opportunity 10000
  = mk_kelly_result [] 0 0.
Proof.
  apply kelly_falls_back_to_zero. right.
  exists "pinnacle"%string, [("away"%string, 1)], "away"%string, 1.
  split; [simpl; auto|]. split; [simpl; auto|]. right. reflexivity.
Defined.

(** * The calculator over computed numbers *)

(** ** The two runtimes *)

Lemma exact_runtime_lawful : Run.lawful exact_runtime.
Proof.
  constructor; simpl.
  - reflexivity.
  - intros x P. apply Qltb_lt in P.
    destruct (Qeq_bool x 0) eqn:E; [|reflexivity].
    apply Qeq_bool_iff in E. rewrite E in P. exfalso. apply (Qlt_irrefl _ P).
  - reflexivity.
  - intro s. apply Permutation_refl.
Qed.

Lemma binary64_lawful : Run.lawful binary64.
Proof.
  constructor; simpl.
  - reflexivity.
  - intros x. rewrite ltb_spec, eqb_spec.
    change (Prim2SF 0%float) with (S754_zero false).
    unfold SFltb, SFeqb.
    destruct (Prim2SF x) as [s | s | | s m e]; simpl;
      try destruct s; simpl; congruence.
  - reflexivity.
  - intro s. apply Permutation_refl.
Qed.

(** ** The loops of the calculator *)

Lemma run_all_outcomes_nodup (R : Run.Runtime)
    (market_data : Dict.t (Run.market_entry (Run.num R))) :
  NoDup (Run.all_outcomes_of R market_data).
Proof.
  unfold Run.all_outcomes_of.
  assert (G : forall l s, NoDup s ->
            NoDup (fold_left
                     (fun s (entry : Run.market_entry (Run.num R)) =>
                        StrSet.update s (Dict.keys (Run.odds entry))) l s)).
  { induction l as [|entry r IH]; simpl; intros s N; [assumption|].
    apply IH. now apply StrSetFacts.update_nodup. }
  apply G. constructor.
Qed.

Lemma run_order_nodup (R : Run.Runtime) (L : Run.lawful R)
    (market_data : Dict.t (Run.market_entry (Run.num R))) :
  NoDup (Run.set_iter R (Run.all_outcomes_of R market_data)).
Proof.
  apply (Permutation_NoDup (Permutation_sym (Run.set_iter_perm R L _))).
  apply run_all_outcomes_nodup.
Qed.

(** A best price above 0 comes with its bookmaker. *)
Lemma run_best_assigned (R : Run.Runtime) (L : Run.lawful R)
    (market_data : Dict.t (Run.market_entry (Run.num R))) (outcome : string) :
  Run.ltb R (Run.zero R) (Run.best_price R market_data outcome) = true ->
  exists b, snd (Run.best_for_outcome R market_data outcome) = Some b.
Proof.
  unfold Run.best_price, Run.best_for_outcome, Dict.items.
  assert (G : forall l acc,
            (fst acc = Run.zero R \/ exists b, snd acc = Some b) ->
            fst (fold_left (Run.best_step R outcome) l acc) = Run.zero R
            \/ exists b, snd (fold_left (Run.best_step R outcome) l acc) = Some b).
  { induction l as [|item l IH]; intros acc P; simpl; [exact P|].
    apply IH. unfold Run.best_step.
    destruct (Run.ltb R (fst acc) (Run.price_of R (snd item) outcome)); [|exact P].
    right. simpl. eauto. }
  intro P. destruct (G market_data (Run.zero R, None)) as [Z | A].
  - now left.
  - rewrite Z in P. rewrite (Run.zero_not_positive R L) in P. discriminate.
  - exact A.
Qed.

Lemma run_find_fold_best_odds (R : Run.Runtime) (L : Run.lawful R)
    (market_data : Dict.t (Run.market_entry (Run.num R))) (os : list string) :
  forall acc,
    NoDup os ->
    (forall o, In o os -> ~ In o (Dict.keys (fst acc))) ->
    fst (fold_left (Run.find_step R market_data) os acc) =
    fst acc ++ map (fun o => (o, Run.best_price R market_data o))
                 (filter
                    (fun o => Run.ltb R (Run.zero R) (Run.best_price R market_data o))
                    os).
Proof.
  induction os as [|o r IH]; intros acc N F; simpl.
  - now rewrite app_nil_r.
  - inversion N as [|? ? No Nr]; subst.
    assert (Fo : ~ In o (Dict.keys (fst acc))) by (apply F; now left).
    unfold Run.find_step at 2. fold (Run.best_price R market_data o).
    destruct (Run.ltb R (Run.zero R) (Run.best_price R market_data o)) eqn:E.
    + destruct (run_best_assigned R L market_data o E) as [b B].
      rewrite B. rewrite IH; [| assumption |]; simpl.
      * rewrite DictFacts.set_fresh by assumption.
        now rewrite <- app_assoc.
      * intros o' I. rewrite DictFacts.set_fresh by assumption.
        unfold Dict.keys. rewrite map_app, in_app_iff. simpl.
        intros [A | [A | []]].
        -- apply (F o'); [now right | assumption].
        -- subst o'. contradiction.
    + apply IH; auto. intros o' I. apply F. now right.
Qed.

(** When every outcome has been given a best price, that price is above 0
    and the prices are listed in the order of iteration. *)
Lemma run_best_odds_complete (R : Run.Runtime) (L : Run.lawful R)
    (market_data : Dict.t (Run.market_entry (Run.num R))) (os : list string) :
  NoDup os ->
  Dict.len (fst (Run.find_best_odds R market_data os)) = List.length os ->
  fst (Run.find_best_odds R market_data os)
  = map (fun o => (o, Run.best_price R market_data o)) os
  /\ forall o, In o os ->
       Run.ltb R (Run.zero R) (Run.best_price R market_data o) = true.
Proof.
  intros N Len. unfold Run.find_best_odds in *.
  rewrite run_find_fold_best_odds in *; auto. simpl in *.
  unfold Dict.len in Len. rewrite length_map in Len.
  apply filter_length_all in Len. rewrite Len. split; [reflexivity|].
  intros o I. apply (filter_all_forall _ _ Len o I).
Qed.

Lemma run_find_step_keeps (R : Run.Runtime)
    (market_data : Dict.t (Run.market_entry (Run.num R)))
    (acc : Dict.t (Run.num R) * Dict.t string) (o o1 : string) :
  Dict.mem (snd acc) o = true ->
  Dict.mem (snd (Run.find_step R market_data acc o1)) o = true.
Proof.
  intro M. unfold Run.find_step.
  destruct (Run.ltb R (Run.zero R) (fst (Run.best_for_outcome R market_data o1)));
    [|assumption].
  destruct (snd (Run.best_for_outcome R market_data o1)) as [b|]; [|assumption].
  simpl. apply DictFacts.mem_true_in. rewrite DictFacts.keys_set.
  apply DictFacts.mem_true_in in M.
  destruct (Dict.mem (snd acc) o1); [assumption | apply in_or_app; now left].
Qed.

Lemma run_find_fold_present (R : Run.Runtime) (L : Run.lawful R)
    (market_data : Dict.t (Run.market_entry (Run.num R))) (os : list string) :
  forall acc o,
    (Dict.mem (snd acc) o = true
     \/ (In o os
         /\ Run.ltb R (Run.zero R) (Run.best_price R market_data o) = true)) ->
    Dict.mem (snd (fold_left (Run.find_step R market_data) os acc)) o = true.
Proof.
  induction os as [|o1 r IH]; intros acc o H; simpl.
  - destruct H as [H | [[] _]]. exact H.
  - apply IH. destruct H as [H | [[<- | I] P]].
    + left. now apply run_find_step_keeps.
    + left. unfold Run.find_step. fold (Run.best_price R market_data o1).
      rewrite P.
      destruct (run_best_assigned R L market_data o1 P) as [b B].
      rewrite B. simpl. unfold Dict.mem. now rewrite DictFacts.get_set_same.
    + right. auto.
Qed.

Lemma run_py_div_some (R : Run.Runtime) (x y q : Run.num R) :
  Run.py_div R x y = Some q -> Run.is_zero R y = false /\ q = Run.quot R x y.
Proof.
  unfold Run.py_div. destruct (Run.is_zero R y); [discriminate|].
  intro H. injection H as <-. auto.
Qed.

Lemma run_py_div_nonzero (R : Run.Runtime) (x y : Run.num R) :
  Run.is_zero R y = false -> Run.py_div R x y = Some (Run.quot R x y).
Proof. intro H. unfold Run.py_div. now rewrite H. Qed.

Lemma run_implied_of_spec (R : Run.Runtime) (best_odds implied : Dict.t (Run.num R)) :
  NoDup (Dict.keys best_odds) ->
  Run.implied_of R best_odds = Some implied ->
  implied = map (fun item => (fst item, Run.quot R (Run.one R) (snd item))) best_odds.
Proof.
  intros N H. unfold Run.implied_of, Dict.items in H.
  apply (for_each_set_map fst (fun item => Run.quot R (Run.one R) (snd item))) in H;
    auto.
  intros acc x acc' B. bind_inv B. injection B as <-.
  apply run_py_div_some in E. destruct E as [_ ->]. reflexivity.
Qed.

(** One iteration of lines 182-189 does not raise when the three look-ups
    succeed, and keeps the two mappings on the same bookmakers. *)
Lemma run_organize_step_total (R : Run.Runtime) (best_bookmakers : Dict.t string)
    (stakes best_odds : Dict.t (Run.num R))
    (acc : Dict.t (Dict.t (Run.num R)) * Dict.t (Dict.t (Run.num R))) (o : string) :
  Dict.keys (fst acc) = Dict.keys (snd acc) ->
  Dict.mem best_bookmakers o = true ->
  Dict.mem stakes o = true ->
  Dict.mem best_odds o = true ->
  exists acc',
    Run.organize_step R best_bookmakers stakes best_odds acc o = Some acc'
    /\ Dict.keys (fst acc') = Dict.keys (snd acc').
Proof.
  intros K Mb Ms Mo.
  destruct (mem_get_some _ _ Mb) as [b Gb].
  destruct (mem_get_some _ _ Ms) as [s Gs].
  destruct (mem_get_some _ _ Mo) as [p Gp].
  unfold Run.organize_step. rewrite Gb. simpl. rewrite Gs. simpl.
  set (acc1 := if negb (Dict.mem (fst acc) b)
               then (Dict.set (fst acc) b [], Dict.set (snd acc) b [])
               else acc).
  assert (G : Dict.keys (fst acc1) = Dict.keys (snd acc1)
              /\ Dict.mem (fst acc1) b = true).
  { subst acc1. destruct (Dict.mem (fst acc) b) eqn:M; simpl.
    - auto.
    - split.
      + rewrite !DictFacts.keys_set, <- (mem_keys_eq _ _ b K), M, K. reflexivity.
      + unfold Dict.mem. now rewrite DictFacts.get_set_same. }
  destruct G as [K1 M1].
  pose proof M1 as M2. rewrite (mem_keys_eq _ _ b K1) in M2.
  destruct (mem_get_some _ _ M1) as [i1 G1].
  destruct (mem_get_some _ _ M2) as [i2 G2].
  rewrite G1. simpl. rewrite Gp. simpl. rewrite G2. simpl.
  eexists. split; [reflexivity|]. simpl.
  rewrite !DictFacts.keys_set, M1, M2. exact K1.
Qed.

Lemma run_organize_loop_total (R : Run.Runtime) (best_bookmakers : Dict.t string)
    (stakes best_odds : Dict.t (Run.num R)) (os : list string) :
  forall acc,
    Dict.keys (fst acc) = Dict.keys (snd acc) ->
    (forall o, In o os ->
       Dict.mem best_bookmakers o = true /\ Dict.mem stakes o = true
       /\ Dict.mem best_odds o = true) ->
    exists acc',
      for_each (Run.organize_step R best_bookmakers stakes best_odds) os acc = Some acc'.
Proof.
  induction os as [|o r IH]; intros acc K H; simpl; [eauto|].
  destruct (H o (or_introl eq_refl)) as (Mb & Ms & Mo).
  destruct (run_organize_step_total R _ _ _ acc o K Mb Ms Mo) as (acc1 & S & K1).
  rewrite S. simpl. apply IH; [exact K1|]. intros o' I. apply H. now right.
Qed.

(** ** What the calculator has checked when it returns an opportunity *)

Lemma run_calculate_arbitrage_inv (R : Run.Runtime) (L : Run.lawful R)
    (self : Run.ArbitrageDetector (Run.num R)) (event : Event) (mt : string)
    (market_data : Dict.t (Run.market_entry (Run.num R))) (now : Z)
    (opp : Run.opportunity (Run.num R)) :
  Run._calculate_arbitrage R self event mt market_data now = Some opp ->
  (2 <= List.length (Run.all_outcomes_of R market_data))%nat
  /\ (forall o, In o (Run.all_outcomes_of R market_data) ->
        Run.ltb R (Run.zero R) (Run.best_price R market_data o) = true)
  /\ Run.leb R (Run.one R) (Run.computed_implied_sum R market_data) = false
  /\ Run.is_zero R (Run.computed_implied_sum R market_data) = false
  /\ Run.ltb R (Run.computed_profit R market_data) (Run.min_profit_percentage self)
     = false
  /\ Run.profit_percentage opp = Run.round2 R (Run.computed_profit R market_data)
  /\ Run.total_stake opp = Run.thousand R.
Proof.
  intro H. unfold Run._calculate_arbitrage in H.
  pose proof (run_order_nodup R L market_data) as N.
  pose proof (Run.set_iter_perm R L (Run.all_outcomes_of R market_data)) as P.
  set (outs := Run.all_outcomes_of R market_data) in *.
  set (order := Run.set_iter R outs) in *.
  destruct (List.length outs <? 2)%nat eqn:L2; [discriminate|].
  apply Nat.ltb_ge in L2.
  destruct (Dict.len (fst (Run.find_best_odds R market_data order)) =? List.length outs)%nat
    eqn:Len; simpl in H; [|discriminate].
  apply Nat.eqb_eq in Len. rewrite <- (Permutation_length P) in Len.
  destruct (run_best_odds_complete R L market_data order N Len) as [Bo Pos].
  rewrite Bo in H.
  bind_inv H. rename v into implied.
  apply run_implied_of_spec in E;
    [| unfold Dict.keys; rewrite map_map; simpl; now rewrite map_id].
  rewrite map_map in E. simpl in E.
  assert (V : Dict.values implied
              = map (fun o => Run.quot R (Run.one R) (Run.best_price R market_data o))
                  order).
  { subst implied. unfold Dict.values. now rewrite map_map. }
  rewrite V in H.
  change (Run.sum R (map (fun o => Run.quot R (Run.one R) (Run.best_price R market_data o))
                       order))
    with (Run.computed_implied_sum R market_data) in H.
  destruct (Run.leb R (Run.one R) (Run.computed_implied_sum R market_data)) eqn:T1;
    [discriminate|].
  bind_inv H. rename v into q.
  apply run_py_div_some in E0. destruct E0 as [Tnz ->].
  change (Run.mul R (Run.quot R (Run.sub R (Run.one R)
                                   (Run.computed_implied_sum R market_data))
                       (Run.computed_implied_sum R market_data))
            (Run.hundred R))
    with (Run.computed_profit R market_data) in H.
  destruct (Run.ltb R (Run.computed_profit R market_data)
              (Run.min_profit_percentage self)) eqn:MP; [discriminate|].
  bind_inv H. bind_inv H. bind_inv H. injection H as <-. simpl.
  split; [exact L2|]. split.
  { intros o I. apply Pos. apply (Permutation_in _ (Permutation_sym P) I). }
  repeat (split; [first [assumption | reflexivity]|]). reflexivity.
Qed.

(** ** C1: a computed sum of 1.0 or more *)

(** C1 (as amended): when the best-price implied probabilities of a market,
    summed as the runtime sums them, give 1.0 or more, the calculator returns
    "no opportunity"; this holds in every lawful runtime, double precision
    included, whatever the order in which the set of outcomes is iterated. *)
Theorem no_arbitrage_when_computed_sum_ge_1 (R : Run.Runtime) (L : Run.lawful R)
    (self : Run.ArbitrageDetector (Run.num R)) (event : Event) (mt : string)
    (market_data : Dict.t (Run.market_entry (Run.num R))) (now : Z) :
  Run.leb R (Run.one R) (Run.computed_implied_sum R market_data) = true ->
  Run._calculate_arbitrage R self event mt market_data now = None.
Proof.
  intro H.
  destruct (Run._calculate_arbitrage R self event mt market_data now) as [opp|] eqn:C;
    [|reflexivity].
  apply (run_calculate_arbitrage_inv R L) in C. destruct C as (_ & _ & T & _).
  congruence.
Qed.

(** ** When a market is accepted *)

(** The calculator accepts a market exactly when the set of outcomes has at
    least two names, every outcome has a best price above 0, the computed sum
    of the implied probabilities is neither 1.0 or more nor zero, and the
    computed profit percentage is not below the configured minimum. *)
Theorem market_accepted_iff_computed (R : Run.Runtime) (L : Run.lawful R)
    (self : Run.ArbitrageDetector (Run.num R)) (event : Event) (mt : string)
    (market_data : Dict.t (Run.market_entry (Run.num R))) (now : Z) :
  (exists opp, Run._calculate_arbitrage R self event mt market_data now = Some opp)
  <->
  (2 <= List.length (Run.all_outcomes_of R market_data))%nat
  /\ (forall o, In o (Run.all_outcomes_of R market_data) ->
        Run.ltb R (Run.zero R) (Run.best_price R market_data o) = true)
  /\ Run.leb R (Run.one R) (Run.computed_implied_sum R market_data) = false
  /\ Run.is_zero R (Run.computed_implied_sum R market_data) = false
  /\ Run.ltb R (Run.computed_profit R market_data) (Run.min_profit_percentage self)
     = false.
Proof.
  split.
  - intros [opp H]. apply (run_calculate_arbitrage_inv R L) in H.
    destruct H as (L2 & Pos & T1 & Tnz & MP & _). auto.
  - intros (L2 & Pos & T1 & Tnz & MP).
    pose proof (run_order_nodup R L market_data) as N.
    pose proof (Run.set_iter_perm R L (Run.all_outcomes_of R market_data)) as P.
    unfold Run._calculate_arbitrage.
    unfold Run.computed_profit in MP. unfold Run.computed_implied_sum in *.
    set (outs := Run.all_outcomes_of R market_data) in *.
    set (order := Run.set_iter R outs) in *.
    set (price := Run.best_price R market_data) in *.
    set (t := Run.sum R (map (fun o => Run.quot R (Run.one R) (price o)) order)) in *.
    assert (Pos' : forall o, In o order -> Run.ltb R (Run.zero R) (price o) = true).
    { intros o I. apply Pos. apply (Permutation_in _ P I). }
    apply Nat.ltb_ge in L2. rewrite L2.
    assert (Bo : fst (Run.find_best_odds R market_data order)
                 = map (fun o => (o, price o)) order).
    { unfold Run.find_best_odds. rewrite run_find_fold_best_odds; auto. simpl.
      rewrite filter_all_true; [reflexivity | exact Pos']. }
    rewrite Bo. unfold Dict.len.
    rewrite length_map, (Permutation_length P), Nat.eqb_refl. simpl.
    assert (Im : Run.implied_of R (map (fun o => (o, price o)) order)
                 = Some (map (fun o => (o, Run.quot R (Run.one R) (price o))) order)).
    { unfold Run.implied_of, Dict.items.
      rewrite (for_each_set_map_some fst
                 (fun item => Run.quot R (Run.one R) (snd item))).
      - simpl. now rewrite map_map.
      - intros acc [o v] I. apply in_keyed_map in I. destruct I as [I E].
        simpl. rewrite run_py_div_nonzero; [reflexivity|].
        rewrite E. apply (Run.positive_not_zero R L). now apply Pos'.
      - now rewrite keyed_map_keys.
      - simpl. tauto. }
    rewrite Im. simpl.
    assert (V : Dict.values (map (fun o => (o, Run.quot R (Run.one R) (price o))) order)
                = map (fun o => Run.quot R (Run.one R) (price o)) order).
    { unfold Dict.values. now rewrite map_map. }
    rewrite V. fold t. rewrite T1.
    rewrite (run_py_div_nonzero R _ t Tnz). simpl. rewrite MP.
    assert (St : Run.stakes_of R
                   (map (fun o => (o, Run.quot R (Run.one R) (price o))) order)
                   t (Run.thousand R)
                 = Some (map (fun o =>
                                (o, Run.round2 R
                                      (Run.mul R
                                         (Run.quot R (Run.quot R (Run.one R) (price o)) t)
                                         (Run.thousand R))))
                           order)).
    { unfold Run.stakes_of, Dict.items.
      rewrite (for_each_set_map_some fst
                 (fun item => Run.round2 R
                                (Run.mul R (Run.quot R (snd item) t) (Run.thousand R)))).
      - simpl. now rewrite map_map.
      - intros acc x I. rewrite (run_py_div_nonzero R _ t Tnz). reflexivity.
      - now rewrite keyed_map_keys.
      - simpl. tauto. }
    rewrite St. simpl.
    rewrite (run_py_div_nonzero R _ _ (Run.hundred_not_zero R L)). simpl.
    destruct (run_organize_loop_total R (snd (Run.find_best_odds R market_data order))
                (map (fun o =>
                        (o, Run.round2 R
                              (Run.mul R
                                 (Run.quot R (Run.quot R (Run.one R) (price o)) t)
                                 (Run.thousand R))))
                   order)
                (map (fun o => (o, price o)) order)
                order ([], []) eq_refl) as [organized Og].
    { intros o I. split; [|split].
      - unfold Run.find_best_odds. apply (run_find_fold_present R L). right. auto.
      - now apply keyed_map_mem.
      - now apply keyed_map_mem. }
    rewrite Og. simpl. eauto.
Qed.

(** ** The profit of an accepted opportunity *)

(** For an accepted opportunity the computed sum of the implied probabilities
    is not 1.0 or more, the computed profit percentage is not below the
    configured minimum, and the reported profit percentage is that computed
    percentage rounded by [round(_, 2)]. *)
Theorem accepted_profit_not_below_minimum (R : Run.Runtime) (L : Run.lawful R)
    (self : Run.ArbitrageDetector (Run.num R)) (event : Event) (mt : string)
    (market_data : Dict.t (Run.market_entry (Run.num R))) (now : Z)
    (opp : Run.opportunity (Run.num R)) :
  Run._calculate_arbitrage R self event mt market_data now = Some opp ->
  Run.leb R (Run.one R) (Run.computed_implied_sum R market_data) = false
  /\ Run.ltb R (Run.computed_profit R market_data) (Run.min_profit_percentage self)
     = false
  /\ Run.profit_percentage opp = Run.round2 R (Run.computed_profit R market_data).
Proof.
  intro H. apply (run_calculate_arbitrage_inv R L) in H.
  destruct H as (_ & _ & T1 & _ & MP & Pp & _). auto.
Qed.

(** ** The exact model is the calculator run on exact arithmetic *)

Lemma fold_left_map_items {A B S : Type} (g : S -> B -> S) (h : A -> B) (l : list A) :
  forall s, fold_left g (map h l) s = fold_left (fun s x => g s (h x)) l s.
Proof.
  induction l as [|x r IH]; intro s; simpl; [reflexivity | apply IH].
Qed.

Lemma fold_left_ext_all {A S : Type} (g g' : S -> A -> S) (l : list A) :
  (forall s x, g s x = g' s x) ->
  forall s, fold_left g l s = fold_left g' l s.
Proof.
  intro E. induction l as [|x r IH]; intro s; simpl; [reflexivity|].
  rewrite E. apply IH.
Qed.

Lemma run_market_outcomes (market_data : Dict.t bookmaker_data) :
  Run.all_outcomes_of exact_runtime (run_market market_data)
  = all_outcomes_of market_data.
Proof.
  unfold Run.all_outcomes_of, all_outcomes_of, run_market, Dict.values.
  rewrite map_map. simpl.
  rewrite !fold_left_map_items. reflexivity.
Qed.

Lemma run_market_best (market_data : Dict.t bookmaker_data) (o : string) :
  Run.best_for_outcome exact_runtime (run_market market_data) o
  = best_for_outcome market_data o.
Proof.
  unfold Run.best_for_outcome, best_for_outcome, run_market, Dict.items.
  rewrite fold_left_map_items. reflexivity.
Qed.

Lemma run_market_find_best (market_data : Dict.t bookmaker_data) (os : list string) :
  Run.find_best_odds exact_runtime (run_market market_data) os
  = find_best_odds market_data os.
Proof.
  unfold Run.find_best_odds, find_best_odds.
  apply fold_left_ext_all. intros s o.
  unfold Run.find_step, find_step. rewrite run_market_best. reflexivity.
Qed.

Lemma run_market_risk (event : Event) (market_data : Dict.t bookmaker_data) (now : Z) :
  _calculate_risk_score event (Run.timestamps (run_market market_data)) now
  = _calculate_risk_score event market_data now.
Proof.
  unfold _calculate_risk_score, risk_signals, Run.timestamps, run_market.
  unfold Dict.len, Dict.values. rewrite !map_map, !length_map. simpl.
  assert (G : forall (l : Dict.t bookmaker_data) a,
            for_each
              (fun oldest bd =>
                 age <- dt_sub (utcnow now) (bd_timestamp bd) ;;
                 Some (py_max oldest (total_seconds age / 60)))
              (map (fun x => mk_bookmaker_data [] (bd_timestamp (snd x))) l) a
            = for_each
                (fun oldest bd =>
                   age <- dt_sub (utcnow now) (bd_timestamp bd) ;;
                   Some (py_max oldest (total_seconds age / 60)))
                (map snd l) a).
  { induction l as [|x r IH]; intro a; simpl; [reflexivity|].
    destruct (dt_sub (utcnow now) (bd_timestamp (snd x))); simpl; [apply IH | reflexivity]. }
  rewrite G. reflexivity.
Qed.

(** The calculator of the exact model is the calculator over the runtime,
    run on exact arithmetic with the set of outcomes iterated in order of first
    insertion. *)
Lemma exact_model_is_run (self : ArbitrageDetector) (event : Event) (mt : string)
    (market_data : Dict.t bookmaker_data) (now : Z) :
  Run._calculate_arbitrage exact_runtime (run_detector self) event mt
    (run_market market_data) now
  = option_map run_opportunity (_calculate_arbitrage self event mt market_data now).
Proof.
  unfold Run._calculate_arbitrage, _calculate_arbitrage.
  rewrite run_market_outcomes, run_market_find_best, run_market_risk.
  simpl.
  destruct (List.length (all_outcomes_of market_data) <? 2)%nat; [reflexivity|].
  destruct (negb (Dict.len (fst (find_best_odds market_data (all_outcomes_of market_data)))
                  =? List.length (all_outcomes_of market_data))%nat); [reflexivity|].
  change (Run.implied_of exact_runtime) with implied_of.
  destruct (implied_of (fst (find_best_odds market_data (all_outcomes_of market_data))))
    as [implied|]; simpl; [|reflexivity].
  destruct (Qle_bool 1 (py_sum (Dict.values implied))); [reflexivity|].
  change (Run.py_div exact_runtime) with py_div.
  destruct (py_div (1 - py_sum (Dict.values implied)) (py_sum (Dict.values implied)))
    as [q|]; simpl; [|reflexivity].
  destruct (Qltb (q * 100) (min_profit_percentage self)); [reflexivity|].
  change (Run.stakes_of exact_runtime) with stakes_of.
  destruct (stakes_of implied (py_sum (Dict.values implied)) 1000) as [stakes|];
    simpl; [|reflexivity].
  change (Run.organize_step exact_runtime) with organize_step.
  destruct (for_each
              (organize_step
                 (snd (find_best_odds market_data (all_outcomes_of market_data)))
                 stakes
                 (fst (find_best_odds market_data (all_outcomes_of market_data))))
              (all_outcomes_of market_data) ([], [])) as [organized|];
    simpl; reflexivity.
Qed.

(** ** Sample runs in double precision *)

Lemma no_arbitrage_when_computed_sum_ge_1_witness :
  Run.leb binary64 (Run.one binary64)
    (Run.computed_implied_sum binary64 overround_book) = true
  /\ Run._calculate_arbitrage binary64 default_settings sample_event "h2h"
       overround_book 0 = None.
Proof.
  split.
  - vm_compute. reflexivity.
  - apply (no_arbitrage_when_computed_sum_ge_1 binary64 binary64_lawful).
    vm_compute. reflexivity.
Defined.

(** C1 as stated fails: six runners at 6.0 have implied probabilities that
    sum to exactly 1, the sum computed for them is 0.9999999999999999, and
    with a minimum profit of 0 the calculator returns an opportunity, with a
    profit of 0.0. *)
Lemma fair_book_accepted :
  1 <= best_price_implied_sum (exact_market fair_book)
  /\ Run.computed_implied_sum binary64 fair_book = (1 - 0x1p-53)%float
  /\ option_map Run.profit_percentage
       (Run._calculate_arbitrage binary64 no_minimum sample_event "outrights"
          fair_book 0)
     = Some 0%float.
Proof.
  split; [vm_compute; discriminate|].
  split; vm_compute; reflexivity.
Qed.

Lemma market_accepted_iff_computed_witness :
  exists opp,
    Run._calculate_arbitrage binary64 default_settings sample_event "h2h"
      scenario_a_book 0 = Some opp.
Proof.
  apply (proj2 (market_accepted_iff_computed binary64 binary64_lawful
                  default_settings sample_event "h2h" scenario_a_book 0)).
  split; [vm_compute; lia|]. split.
  - intros o I. vm_compute in I.
    destruct I as [<- | [<- | []]]; vm_compute; reflexivity.
  - repeat split; vm_compute; reflexivity.
Defined.

Lemma accepted_profit_not_below_minimum_witness :
  Run.leb binary64 (Run.one binary64)
    (Run.computed_implied_sum binary64 scenario_a_book) = false
  /\ Run.ltb binary64 (Run.computed_profit binary64 scenario_a_book)
       (Run.min_profit_percentage default_settings) = false
  /\ Run.profit_percentage scenario_a_computed
     = Run.round2 binary64 (Run.computed_profit binary64 scenario_a_book).
Proof.
  apply (accepted_profit_not_below_minimum binary64 binary64_lawful
           default_settings sample_event "h2h" scenario_a_book 0
           scenario_a_computed).
  vm_compute. reflexivity.
Defined.

(** At the threshold the rounding decides: best prices 1.53 and 3.06 give a
    profit of at least 2 percent in exact arithmetic, where the market is
    accepted, and a computed profit of 1.9999999999999927, with which the
    calculator returns "no opportunity". *)
Lemma threshold_decided_by_rounding :
  option_map profit_percentage
    (_calculate_arbitrage default_detector sample_event "h2h"
       (exact_market threshold_book) 0)
  = Some (200 # 100)
  /\ Run._calculate_arbitrage binary64 default_settings sample_event "h2h"
       threshold_book 0 = None.
Proof.
  split; vm_compute; reflexivity.
Qed.
